(** * Bank-statement analyzer: the client-side engine, verified

    A shallow embedding of the browser script that drives the processing
    view (the large anonymous script of the repository): amount
    normalisation, the balance-mismatch checker, the debounced per-page save
    with its token guard, the job poll loop, the reconciliation of the
    locally cached job list and the begin-process action of the external
    attachment feed.

    Conventions of the embedding.
    - A JavaScript string is a [string]; a character is a code unit below 256.
    - A cell of a row (and any optional field of a payload) is an
      [option string]: [None] stands for [null], [undefined] and an absent
      key, [Some s] for a value whose [String(value)] is [s].
    - A JavaScript number met by the amount code carries its exact decimal
      value, a sign (so that negative zero exists) and the binary64 overflow
      and underflow thresholds; the rounding of the significand to 53 bits is
      not modelled.
    - Asynchronous code is cut at its [await] points: what runs between two
      awaits is one atomic step on the state, and an in-flight request is an
      event delivered later, in any order. *)

From Stdlib Require Import ZArith NArith QArith Qabs Qminmax Lia Ascii.
From Stdlib Require String.
From stdpp Require Import gmap strings list sorting.

Local Open Scope N_scope.
Local Open Scope stdpp_scope.

#[local] Arguments String.append !_ _ : simpl nomatch.

(** ** Characters and strings as the script uses them *)

Module Js.

(** [\d] of a regular expression without the unicode flag: ASCII digits. *)
Definition isDigit (c : ascii) : bool :=
  let n := N_of_ascii c in (48 <=? n) && (n <=? 57).

Definition digitVal (c : ascii) : N := N_of_ascii c - 48.

Definition digitChar (d : N) : ascii := ascii_of_N (48 + d).

(** White space and line terminators removed by [String.prototype.trim],
    among the code units below 256: TAB, LF, VT, FF, CR, SP and NBSP. *)
Definition isSpace (c : ascii) : bool :=
  let n := N_of_ascii c in
  ((9 <=? n) && (n <=? 13)) || (n =? 32) || (n =? 160).

Fixpoint trimStart (s : string) : string :=
  match s with
  | String c s' => if isSpace c then trimStart s' else s
  | EmptyString => EmptyString
  end.

Fixpoint trimEnd (s : string) : string :=
  match s with
  | EmptyString => EmptyString
  | String c s' =>
      match trimEnd s' with
      | EmptyString => if isSpace c then EmptyString else String c EmptyString
      | r => String c r
      end
  end.

Definition trim (s : string) : string := trimEnd (trimStart s).

(** [s.replaceAll(c, '')] and [s.replace(/[^...]/g, '')] both keep the
    characters that pass a test. *)
Fixpoint keep (p : ascii -> bool) (s : string) : string :=
  match s with
  | EmptyString => EmptyString
  | String c s' => if p c then String c (keep p s') else keep p s'
  end.

Definition startsWith (c : ascii) (s : string) : bool :=
  match s with
  | String c' _ => Ascii.eqb c' c
  | EmptyString => false
  end.

Fixpoint endsWith (c : ascii) (s : string) : bool :=
  match s with
  | EmptyString => false
  | String c' EmptyString => Ascii.eqb c' c
  | String _ s' => endsWith c s'
  end.

(** Truthiness of a string: the empty string is the only falsy one. *)
Definition truthy (s : string) : bool :=
  match s with EmptyString => false | _ => true end.

(** [a || b] on strings. *)
Definition orElse (a b : string) : string := if truthy a then a else b.

(** [String.prototype.toLowerCase] on the letters A to Z. *)
Definition lowerChar (c : ascii) : ascii :=
  let n := N_of_ascii c in
  if (65 <=? n) && (n <=? 90) then ascii_of_N (n + 32) else c.

Fixpoint toLowerCase (s : string) : string :=
  match s with
  | EmptyString => EmptyString
  | String c s' => String (lowerChar c) (toLowerCase s')
  end.

(** Decimal digits of a natural number, most significant first. *)
Fixpoint digitsFuel (fuel : nat) (n : N) : string :=
  match fuel with
  | O => EmptyString
  | S f =>
      (if n <? 10 then EmptyString else digitsFuel f (n / 10))
        +:+ String (digitChar (n mod 10)) EmptyString
  end.

Definition digitsOf (n : N) : string :=
  digitsFuel (S (N.to_nat (N.log2 n))) n.

(** [String(n).padStart(3, '0')] for a natural number [n]. *)
Definition pad3 (n : N) : string :=
  let d := digitsOf n in
  match String.length d with
  | 1%nat => "00" +:+ d
  | 2%nat => "0" +:+ d
  | _ => d
  end.

End Js.

(** ** Numbers of the amount code *)

(** A finite number: sign, decimal significand and decimal exponent; its
    value is [(-1)^neg * sig * 10^exp10]. *)
Record dec : Type := Dec { neg : bool; sig : N; exp10 : Z }.

Inductive jsnum : Type :=
| NaN : jsnum
| Inf : bool -> jsnum
| Fin : dec -> jsnum.

Module Num.

(** Smallest magnitude that binary64 rounds to infinity, and largest one it
    rounds to zero. *)
Definition overflowAt : N := 2 ^ 1024 - 2 ^ 970.
Definition underflowDen : N := 2 ^ 1075.

Definition pow10 (k : Z) : N := 10 ^ Z.to_N k.

(** [sig * 10^e >= overflowAt]. *)
Definition overflows (m : N) (e : Z) : bool :=
  if (0 <=? e)%Z then overflowAt <=? m * pow10 e
  else overflowAt * pow10 (- e) <=? m.

(** [sig * 10^e <= 2^-1075]. *)
Definition underflows (m : N) (e : Z) : bool :=
  if (0 <=? e)%Z then m * pow10 e * underflowDen <=? 1
  else m * underflowDen <=? pow10 (- e).

(** The number a decimal literal denotes. *)
Definition ofDecimal (sgn : bool) (m : N) (e : Z) : jsnum :=
  if m =? 0 then Fin (Dec sgn 0 0)
  else if overflows m e then Inf sgn
  else if underflows m e then Fin (Dec sgn 0 0)
  else Fin (Dec sgn m e).

(** [acc] extended by the leading digits of [s]; how many there were; the
    rest of [s]. *)
Fixpoint scanDigits (acc : N) (cnt : nat) (s : string) : N * nat * string :=
  match s with
  | String c s' =>
      if Js.isDigit c then scanDigits (acc * 10 + Js.digitVal c) (S cnt) s'
      else (acc, cnt, s)
  | EmptyString => (acc, cnt, s)
  end.

(** An optional sign in front of a literal: whether it is a minus, and what
    follows it. *)
Definition splitSign (s : string) : bool * string :=
  match s with
  | String "-"%char r => (true, r)
  | String "+"%char r => (false, r)
  | _ => (false, s)
  end.

(** ExponentPart of a decimal literal, when one is there. *)
Definition scanExponent (s : string) : Z :=
  match s with
  | String c r =>
      if Ascii.eqb c "e"%char || Ascii.eqb c "E"%char then
        let '(sgn, r') := splitSign r in
        let '(v, cnt, _) := scanDigits 0 0 r' in
        match cnt with
        | O => 0%Z
        | _ => if sgn then (- Z.of_N v)%Z else Z.of_N v
        end
      else 0%Z
  | EmptyString => 0%Z
  end.

(** [Number.parseFloat]: the longest prefix of the trimmed input that is a
    StrDecimalLiteral, [NaN] when there is none. *)
Definition parseFloat (input : string) : jsnum :=
  let s := Js.trimStart input in
  let '(sgn, s1) := splitSign s in
  if String.prefix "Infinity" s1 then Inf sgn
  else
    let '(iv, ic, r1) := scanDigits 0 0 s1 in
    let '(m, fc, r2) :=
      match r1 with
      | String "."%char r => scanDigits iv 0 r
      | _ => (iv, O, r1)
      end in
    match (ic + fc)%nat with
    | O => NaN
    | _ => ofDecimal sgn m (scanExponent r2 - Z.of_nat fc)
    end.

(** [x > 0] on a finite number. *)
Definition isPositive (d : dec) : bool := negb (neg d) && (0 <? sig d).

(** Unary minus. *)
Definition negate (d : dec) : dec := Dec (negb (neg d)) (sig d) (exp10 d).

(** The magnitude in hundredths, ties away from zero (the default rounding
    of Intl.NumberFormat). *)
Definition cents (d : dec) : N :=
  if (0 <=? exp10 d + 2)%Z then sig d * pow10 (exp10 d + 2)
  else
    let D := pow10 (- (exp10 d + 2)) in
    (2 * sig d + D) / (2 * D).

(** Grouping of the integer digits by three. *)
Fixpoint group3 (s : string) : string :=
  match s with
  | EmptyString => EmptyString
  | String c s' =>
      String c
        (if (0 <? String.length s')%nat && (String.length s' mod 3 =? 0)%nat
         then String ","%char (group3 s')
         else group3 s')
  end.

(** [x.toLocaleString('en-US', {minimumFractionDigits: 2,
    maximumFractionDigits: 2})] on a finite number. *)
Definition toLocale2 (d : dec) : string :=
  let c := cents d in
  (if neg d then "-" else "")
    +:+ group3 (Js.digitsOf (c / 100))
    +:+ String "."%char (String (Js.digitChar (c / 10 mod 10))
                      (String (Js.digitChar (c mod 10)) EmptyString)).

(** The exact value, for arithmetic. *)
Definition toQ (d : dec) : Q :=
  let mag : Q :=
    if (0 <=? exp10 d)%Z then inject_Z (Z.of_N (sig d * pow10 (exp10 d)))
    else Qmake (Z.of_N (sig d)) (Z.to_pos (Z.of_N (pow10 (- exp10 d)))) in
  if neg d then Qopp mag else mag.

End Num.

(** ** Amount cells *)

(** [normalizeEditableCellValue]. *)
Definition normalizeEditableCellValue (value : option string) : string :=
  match value with
  | None => ""
  | Some s => s
  end.

Definition isAmountChar (c : ascii) : bool :=
  Js.isDigit c || Ascii.eqb c "."%char || Ascii.eqb c "-"%char.

(** [parseAmountForFormatting]: [None] is the script's [null]. *)
Definition parseAmountForFormatting (value : option string) : option dec :=
  let raw := Js.trim (normalizeEditableCellValue value) in
  if negb (Js.truthy raw) then None
  else
    let hasParenNegative := Js.startsWith "("%char raw && Js.endsWith ")"%char raw in
    let cleaned :=
      Js.keep isAmountChar (Js.keep (fun c => negb (Ascii.eqb c ","%char)) raw) in
    if negb (Js.truthy cleaned) || String.eqb cleaned "-"
       || String.eqb cleaned "." || String.eqb cleaned "-."
    then None
    else
      match Num.parseFloat cleaned with
      | Fin parsed =>
          if hasParenNegative && Num.isPositive parsed
          then Some (Num.negate parsed)
          else Some parsed
      | _ => None
      end.

(** [formatAmountCellValue]. *)
Definition formatAmountCellValue (value : option string) : string :=
  let raw := Js.trim (normalizeEditableCellValue value) in
  if negb (Js.truthy raw) then ""
  else
    match parseAmountForFormatting (Some raw) with
    | None => raw
    | Some parsed => Num.toLocale2 parsed
    end.


(** ** Rows and optional values *)

(** One parsed row; every cell may be absent. *)
Record Row : Type := MkRow {
  row_id : option string;
  date : option string;
  description : option string;
  debit : option string;
  credit : option string;
  balance : option string
}.

(** [String(o || dflt)] for an optional string [o]. *)
Definition strOr (o : option string) (dflt : string) : string :=
  match o with
  | Some s => Js.orElse s dflt
  | None => dflt
  end.

(** Truthiness of an optional string. *)
Definition truthyO (o : option string) : bool :=
  match o with
  | Some s => Js.truthy s
  | None => false
  end.

(** [String(o)] where an absent value prints as [undefined]. *)
Definition jsString (o : option string) : string :=
  match o with
  | Some s => s
  | None => "undefined"
  end.

(** ** The balance-mismatch checker *)

Definition isFiniteO (x : option dec) : bool :=
  match x with Some _ => true | None => false end.

(** [Number.isFinite(x) ? x : 0] as an exact value. *)
Definition numOrZero (x : option dec) : Q :=
  match x with Some d => Num.toQ d | None => 0%Q end.

(** [a > b] on exact values. *)
Definition Qgtb (a b : Q) : bool := negb (Qle_bool a b).

(** The body of the loop of [computeBalanceMismatchRowIds] at index [idx]. *)
Definition mismatchStep (rows : list Row) (mismatches : gset string) (idx : nat)
  : gset string :=
  match rows !! (idx - 1)%nat, rows !! idx with
  | Some prev, Some current =>
      let rowId := Js.trim (strOr (row_id current) "") in
      if negb (Js.truthy rowId) then mismatches
      else
        let prevBal := parseAmountForFormatting (balance prev) in
        let currBal := parseAmountForFormatting (balance current) in
        let debit := parseAmountForFormatting (debit current) in
        let credit := parseAmountForFormatting (credit current) in
        let hasFlow := isFiniteO debit || isFiniteO credit in
        match prevBal, currBal with
        | Some pb, Some cb =>
            if negb hasFlow then mismatches
            else
              let expected :=
                (Num.toQ pb - numOrZero debit + numOrZero credit)%Q in
              if Qgtb (Qabs (Num.toQ cb - expected)) (1 # 100)
              then {[ rowId ]} ∪ mismatches
              else mismatches
        | _, _ => mismatches
        end
  | _, _ => mismatches
  end.

(** [computeBalanceMismatchRowIds]: the loop runs [idx] from 1 to
    [rows.length - 1]. *)
Definition computeBalanceMismatchRowIds (rows : list Row) : gset string :=
  if (length rows <? 2)%nat then ∅
  else fold_left (mismatchStep rows) (seq 1 (length rows - 1)) ∅.



(** ** Records exchanged with the server and kept by the page *)

(** A LocalJobRecord of the cached job list. *)
Record JobRecord : Type := MkJobRecord {
  lj_jobId : option string;
  lj_fileName : option string;
  lj_sizeBytes : option N;
  lj_lastModified : option N;
  lj_createdAt : option N;
  lj_status : option string;
  lj_step : option string;
  lj_progress : option Q;
  lj_parseMode : option string
}.

(** The body of [GET /jobs/{id}]. *)
Record StatusPayload : Type := MkStatusPayload {
  pl_status : option string;
  pl_step : option string;
  pl_progress : option Q;
  pl_message : option string;
  pl_parse_mode : option string
}.

(** An AttachmentProcessBinding. *)
Record Binding : Type := MkBinding {
  bd_jobId : string;
  bd_status : string;
  bd_step : string;
  bd_progress : Q
}.

Record Summary : Type := MkSummary {
  total_transactions : option N;
  summary_metrics : string
}.

(** The body of [PUT /jobs/{id}/parsed/{page}]. *)
Record SavePayload : Type := MkSavePayload {
  sp_rows : option (list Row);
  sp_summary : option Summary
}.

Record Bound : Type := MkBound {
  bound_row_id : string;
  bound_box : Q * Q * Q * Q
}.

Inductive PanelMode : Type := TableMode | JsonMode.

(** What [fetch] gives: a network failure, or a response with its status,
    its text and its parsed body. *)
Inductive FetchResult (A : Type) : Type :=
| NetworkError (msg : string)
| Response (status : nat) (text : string) (json : A).
Arguments NetworkError {A} msg.
Arguments Response {A} status text json.

(** How an awaited promise settles. *)
Inductive Outcome (A : Type) : Type :=
| Resolved (a : A)
| Rejected (msg : string).
Arguments Resolved {A} a.
Arguments Rejected {A} msg.

Inductive Request : Type :=
| GetJob (jobId : string)
| PostStart (jobId : string)
| GetCleaned (jobId : string)
| GetSummary (jobId : string)
| GetParsed (jobId page : string)
| GetBounds (jobId page : string)
| GetOpenaiRaw (jobId page : string)
| PutParsed (jobId page : string) (rows : list Row)
| PostBeginProcess (attachmentId : string).

(** What the script does to the world outside [state]: requests, alerts,
    navigation, and writes of the cached job list to local storage. An alert
    whose text goes through [normalizeApiErrorMessage] is recorded with its
    prefix and the raw message. *)
Inductive Effect : Type :=
| Sent (r : Request)
| Alert (text : string)
| AlertNormalized (prefix rawMessage : string)
| Redirect (url : string)
| Stored (jobs : list JobRecord).

(** ** The state of the page

    The fields of the script's [state] object that the modelled functions
    read or write, then what they show in the document ([dom_*]) and the
    browser around them: the clock in milliseconds and the source of timer
    handles.

    A pending save timer is recorded in [pageSaveTimers] by the time at which
    it fires, and the poll interval exists exactly while [pollTimer] holds
    its handle: every [setTimeout] and [setInterval] of the modelled code is
    preceded by the matching clear, and every clear empties the field. *)
Record State : Type := MkState {
  jobId : option string;
  pages : list string;
  parsedByPage : gmap string (list Row);
  boundsByPage : gmap string (list Bound);
  openaiRawByPage : gmap string string;
  currentPage : option string;
  selectedRowId : option string;
  pollTimer : option nat;
  uploadedJobs : list JobRecord;
  totalParsedRows : nat;
  isCompleted : bool;
  crmProcessByAttachment : gmap string Binding;
  crmStatusTimer : option nat;
  pageSaveTimers : gmap string nat;
  pageSaveTokenByPage : gmap string nat;
  parsedPanelMode : PanelMode;
  currentParseMode : string;
  dom_jobStatus : string;
  dom_jobStep : string;
  dom_jobProgress : Q;
  now : nat;
  timerSeq : nat
}.

(** Field updates. *)
Definition set_jobId (v : option string) (s : State) : State :=
  MkState v (pages s) (parsedByPage s) (boundsByPage s) (openaiRawByPage s)
    (currentPage s) (selectedRowId s) (pollTimer s) (uploadedJobs s)
    (totalParsedRows s) (isCompleted s) (crmProcessByAttachment s)
    (crmStatusTimer s) (pageSaveTimers s) (pageSaveTokenByPage s)
    (parsedPanelMode s) (currentParseMode s) (dom_jobStatus s)
    (dom_jobStep s) (dom_jobProgress s) (now s) (timerSeq s).
Definition set_pages (v : list string) (s : State) : State :=
  MkState (jobId s) v (parsedByPage s) (boundsByPage s) (openaiRawByPage s)
    (currentPage s) (selectedRowId s) (pollTimer s) (uploadedJobs s)
    (totalParsedRows s) (isCompleted s) (crmProcessByAttachment s)
    (crmStatusTimer s) (pageSaveTimers s) (pageSaveTokenByPage s)
    (parsedPanelMode s) (currentParseMode s) (dom_jobStatus s)
    (dom_jobStep s) (dom_jobProgress s) (now s) (timerSeq s).
Definition set_parsedByPage (v : gmap string (list Row)) (s : State) : State :=
  MkState (jobId s) (pages s) v (boundsByPage s) (openaiRawByPage s)
    (currentPage s) (selectedRowId s) (pollTimer s) (uploadedJobs s)
    (totalParsedRows s) (isCompleted s) (crmProcessByAttachment s)
    (crmStatusTimer s) (pageSaveTimers s) (pageSaveTokenByPage s)
    (parsedPanelMode s) (currentParseMode s) (dom_jobStatus s)
    (dom_jobStep s) (dom_jobProgress s) (now s) (timerSeq s).
Definition set_boundsByPage (v : gmap string (list Bound)) (s : State) : State :=
  MkState (jobId s) (pages s) (parsedByPage s) v (openaiRawByPage s)
    (currentPage s) (selectedRowId s) (pollTimer s) (uploadedJobs s)
    (totalParsedRows s) (isCompleted s) (crmProcessByAttachment s)
    (crmStatusTimer s) (pageSaveTimers s) (pageSaveTokenByPage s)
    (parsedPanelMode s) (currentParseMode s) (dom_jobStatus s)
    (dom_jobStep s) (dom_jobProgress s) (now s) (timerSeq s).
Definition set_openaiRawByPage (v : gmap string string) (s : State) : State :=
  MkState (jobId s) (pages s) (parsedByPage s) (boundsByPage s) v
    (currentPage s) (selectedRowId s) (pollTimer s) (uploadedJobs s)
    (totalParsedRows s) (isCompleted s) (crmProcessByAttachment s)
    (crmStatusTimer s) (pageSaveTimers s) (pageSaveTokenByPage s)
    (parsedPanelMode s) (currentParseMode s) (dom_jobStatus s)
    (dom_jobStep s) (dom_jobProgress s) (now s) (timerSeq s).
Definition set_currentPage (v : option string) (s : State) : State :=
  MkState (jobId s) (pages s) (parsedByPage s) (boundsByPage s)
    (openaiRawByPage s) v (selectedRowId s) (pollTimer s) (uploadedJobs s)
    (totalParsedRows s) (isCompleted s) (crmProcessByAttachment s)
    (crmStatusTimer s) (pageSaveTimers s) (pageSaveTokenByPage s)
    (parsedPanelMode s) (currentParseMode s) (dom_jobStatus s)
    (dom_jobStep s) (dom_jobProgress s) (now s) (timerSeq s).
Definition set_selectedRowId (v : option string) (s : State) : State :=
  MkState (jobId s) (pages s) (parsedByPage s) (boundsByPage s)
    (openaiRawByPage s) (currentPage s) v (pollTimer s) (uploadedJobs s)
    (totalParsedRows s) (isCompleted s) (crmProcessByAttachment s)
    (crmStatusTimer s) (pageSaveTimers s) (pageSaveTokenByPage s)
    (parsedPanelMode s) (currentParseMode s) (dom_jobStatus s)
    (dom_jobStep s) (dom_jobProgress s) (now s) (timerSeq s).
Definition set_pollTimer (v : option nat) (s : State) : State :=
  MkState (jobId s) (pages s) (parsedByPage s) (boundsByPage s)
    (openaiRawByPage s) (currentPage s) (selectedRowId s) v (uploadedJobs s)
    (totalParsedRows s) (isCompleted s) (crmProcessByAttachment s)
    (crmStatusTimer s) (pageSaveTimers s) (pageSaveTokenByPage s)
    (parsedPanelMode s) (currentParseMode s) (dom_jobStatus s)
    (dom_jobStep s) (dom_jobProgress s) (now s) (timerSeq s).
Definition set_uploadedJobs (v : list JobRecord) (s : State) : State :=
  MkState (jobId s) (pages s) (parsedByPage s) (boundsByPage s)
    (openaiRawByPage s) (currentPage s) (selectedRowId s) (pollTimer s) v
    (totalParsedRows s) (isCompleted s) (crmProcessByAttachment s)
    (crmStatusTimer s) (pageSaveTimers s) (pageSaveTokenByPage s)
    (parsedPanelMode s) (currentParseMode s) (dom_jobStatus s)
    (dom_jobStep s) (dom_jobProgress s) (now s) (timerSeq s).
Definition set_totalParsedRows (v : nat) (s : State) : State :=
  MkState (jobId s) (pages s) (parsedByPage s) (boundsByPage s)
    (openaiRawByPage s) (currentPage s) (selectedRowId s) (pollTimer s)
    (uploadedJobs s) v (isCompleted s) (crmProcessByAttachment s)
    (crmStatusTimer s) (pageSaveTimers s) (pageSaveTokenByPage s)
    (parsedPanelMode s) (currentParseMode s) (dom_jobStatus s)
    (dom_jobStep s) (dom_jobProgress s) (now s) (timerSeq s).
Definition set_isCompleted (v : bool) (s : State) : State :=
  MkState (jobId s) (pages s) (parsedByPage s) (boundsByPage s)
    (openaiRawByPage s) (currentPage s) (selectedRowId s) (pollTimer s)
    (uploadedJobs s) (totalParsedRows s) v (crmProcessByAttachment s)
    (crmStatusTimer s) (pageSaveTimers s) (pageSaveTokenByPage s)
    (parsedPanelMode s) (currentParseMode s) (dom_jobStatus s)
    (dom_jobStep s) (dom_jobProgress s) (now s) (timerSeq s).
Definition set_crmProcessByAttachment (v : gmap string Binding) (s : State) : State :=
  MkState (jobId s) (pages s) (parsedByPage s) (boundsByPage s)
    (openaiRawByPage s) (currentPage s) (selectedRowId s) (pollTimer s)
    (uploadedJobs s) (totalParsedRows s) (isCompleted s) v (crmStatusTimer s)
    (pageSaveTimers s) (pageSaveTokenByPage s) (parsedPanelMode s)
    (currentParseMode s) (dom_jobStatus s) (dom_jobStep s)
    (dom_jobProgress s) (now s) (timerSeq s).
Definition set_crmStatusTimer (v : option nat) (s : State) : State :=
  MkState (jobId s) (pages s) (parsedByPage s) (boundsByPage s)
    (openaiRawByPage s) (currentPage s) (selectedRowId s) (pollTimer s)
    (uploadedJobs s) (totalParsedRows s) (isCompleted s)
    (crmProcessByAttachment s) v (pageSaveTimers s) (pageSaveTokenByPage s)
    (parsedPanelMode s) (currentParseMode s) (dom_jobStatus s)
    (dom_jobStep s) (dom_jobProgress s) (now s) (timerSeq s).
Definition set_pageSaveTimers (v : gmap string nat) (s : State) : State :=
  MkState (jobId s) (pages s) (parsedByPage s) (boundsByPage s)
    (openaiRawByPage s) (currentPage s) (selectedRowId s) (pollTimer s)
    (uploadedJobs s) (totalParsedRows s) (isCompleted s)
    (crmProcessByAttachment s) (crmStatusTimer s) v (pageSaveTokenByPage s)
    (parsedPanelMode s) (currentParseMode s) (dom_jobStatus s)
    (dom_jobStep s) (dom_jobProgress s) (now s) (timerSeq s).
Definition set_pageSaveTokenByPage (v : gmap string nat) (s : State) : State :=
  MkState (jobId s) (pages s) (parsedByPage s) (boundsByPage s)
    (openaiRawByPage s) (currentPage s) (selectedRowId s) (pollTimer s)
    (uploadedJobs s) (totalParsedRows s) (isCompleted s)
    (crmProcessByAttachment s) (crmStatusTimer s) (pageSaveTimers s) v
    (parsedPanelMode s) (currentParseMode s) (dom_jobStatus s)
    (dom_jobStep s) (dom_jobProgress s) (now s) (timerSeq s).
Definition set_parsedPanelMode (v : PanelMode) (s : State) : State :=
  MkState (jobId s) (pages s) (parsedByPage s) (boundsByPage s)
    (openaiRawByPage s) (currentPage s) (selectedRowId s) (pollTimer s)
    (uploadedJobs s) (totalParsedRows s) (isCompleted s)
    (crmProcessByAttachment s) (crmStatusTimer s) (pageSaveTimers s)
    (pageSaveTokenByPage s) v (currentParseMode s) (dom_jobStatus s)
    (dom_jobStep s) (dom_jobProgress s) (now s) (timerSeq s).
Definition set_currentParseMode (v : string) (s : State) : State :=
  MkState (jobId s) (pages s) (parsedByPage s) (boundsByPage s)
    (openaiRawByPage s) (currentPage s) (selectedRowId s) (pollTimer s)
    (uploadedJobs s) (totalParsedRows s) (isCompleted s)
    (crmProcessByAttachment s) (crmStatusTimer s) (pageSaveTimers s)
    (pageSaveTokenByPage s) (parsedPanelMode s) v (dom_jobStatus s)
    (dom_jobStep s) (dom_jobProgress s) (now s) (timerSeq s).
Definition set_dom_jobStatus (v : string) (s : State) : State :=
  MkState (jobId s) (pages s) (parsedByPage s) (boundsByPage s)
    (openaiRawByPage s) (currentPage s) (selectedRowId s) (pollTimer s)
    (uploadedJobs s) (totalParsedRows s) (isCompleted s)
    (crmProcessByAttachment s) (crmStatusTimer s) (pageSaveTimers s)
    (pageSaveTokenByPage s) (parsedPanelMode s) (currentParseMode s) v
    (dom_jobStep s) (dom_jobProgress s) (now s) (timerSeq s).
Definition set_dom_jobStep (v : string) (s : State) : State :=
  MkState (jobId s) (pages s) (parsedByPage s) (boundsByPage s)
    (openaiRawByPage s) (currentPage s) (selectedRowId s) (pollTimer s)
    (uploadedJobs s) (totalParsedRows s) (isCompleted s)
    (crmProcessByAttachment s) (crmStatusTimer s) (pageSaveTimers s)
    (pageSaveTokenByPage s) (parsedPanelMode s) (currentParseMode s)
    (dom_jobStatus s) v (dom_jobProgress s) (now s) (timerSeq s).
Definition set_dom_jobProgress (v : Q) (s : State) : State :=
  MkState (jobId s) (pages s) (parsedByPage s) (boundsByPage s)
    (openaiRawByPage s) (currentPage s) (selectedRowId s) (pollTimer s)
    (uploadedJobs s) (totalParsedRows s) (isCompleted s)
    (crmProcessByAttachment s) (crmStatusTimer s) (pageSaveTimers s)
    (pageSaveTokenByPage s) (parsedPanelMode s) (currentParseMode s)
    (dom_jobStatus s) (dom_jobStep s) v (now s) (timerSeq s).
Definition set_now (v : nat) (s : State) : State :=
  MkState (jobId s) (pages s) (parsedByPage s) (boundsByPage s)
    (openaiRawByPage s) (currentPage s) (selectedRowId s) (pollTimer s)
    (uploadedJobs s) (totalParsedRows s) (isCompleted s)
    (crmProcessByAttachment s) (crmStatusTimer s) (pageSaveTimers s)
    (pageSaveTokenByPage s) (parsedPanelMode s) (currentParseMode s)
    (dom_jobStatus s) (dom_jobStep s) (dom_jobProgress s) v (timerSeq s).
Definition set_timerSeq (v : nat) (s : State) : State :=
  MkState (jobId s) (pages s) (parsedByPage s) (boundsByPage s)
    (openaiRawByPage s) (currentPage s) (selectedRowId s) (pollTimer s)
    (uploadedJobs s) (totalParsedRows s) (isCompleted s)
    (crmProcessByAttachment s) (crmStatusTimer s) (pageSaveTimers s)
    (pageSaveTokenByPage s) (parsedPanelMode s) (currentParseMode s)
    (dom_jobStatus s) (dom_jobStep s) (dom_jobProgress s) (now s) v.

(** ** Steps of the script

    A step of the script runs on the state, may cause effects (in the order
    they happen) and either completes with a value or throws; an [async]
    function is such a step up to its first [await], and another from each
    [await] to the next, the awaited result being the argument. *)
Definition M (A : Type) : Type := State -> Outcome A * State * list Effect.

Definition ret {A : Type} (a : A) : M A := fun s => (Resolved a, s, []).

Definition throw {A : Type} (msg : string) : M A := fun s => (Rejected msg, s, []).

Definition bind {A B : Type} (m : M A) (k : A -> M B) : M B :=
  fun s =>
    match m s with
    | (Resolved a, s1, e1) =>
        let '(r, s2, e2) := k a s1 in (r, s2, e1 ++ e2)
    | (Rejected msg, s1, e1) => (Rejected msg, s1, e1)
    end.

(** [try { m } catch (err) { h err.message }]. *)
Definition tryCatch {A : Type} (m : M A) (h : string -> M A) : M A :=
  fun s =>
    match m s with
    | (Rejected msg, s1, e1) =>
        let '(r, s2, e2) := h msg s1 in (r, s2, e1 ++ e2)
    | done => done
    end.

Definition gets {A : Type} (f : State -> A) : M A := fun s => (Resolved (f s), s, []).

Definition modify (f : State -> State) : M unit := fun s => (Resolved tt, f s, []).

Definition emit (e : Effect) : M unit := fun s => (Resolved tt, s, [e]).

Definition when (b : bool) (m : M unit) : M unit := if b then m else ret tt.

#[global] Instance M_ret : MRet M := @ret.
#[global] Instance M_bind : MBind M := fun A B k m => bind m k.

Definition stateAfter {A : Type} (r : Outcome A * State * list Effect) : State :=
  snd (fst r).
Definition effectsOf {A : Type} (r : Outcome A * State * list Effect) : list Effect :=
  snd r.
Definition outcomeOf {A : Type} (r : Outcome A * State * list Effect) : Outcome A :=
  fst (fst r).

(** [res.ok]. *)
Definition isOk (status : nat) : bool :=
  (200 <=? status)%nat && (status <=? 299)%nat.

(** [api], from the result of its [fetch] on: a 401 redirects to the login
    page and throws, another failure status throws the text of the response,
    a success gives the parsed body. *)
Definition api {A : Type} (res : FetchResult A) : M A :=
  match res with
  | NetworkError msg => throw msg
  | Response status text json =>
      if (status =? 401)%nat
      then emit (Redirect "/login");; throw "not_authenticated"
      else if negb (isOk status)
      then throw (Js.orElse text ("HTTP " +:+ Js.digitsOf (N.of_nat status)))
      else ret json
  end.

(** ** The debounced save of a page's rows *)

Definition ROW_SAVE_DEBOUNCE_MS : nat := 220.

(** [recomputeTotalParsedRows]. *)
Definition recomputeTotalParsedRows (s : State) : State :=
  set_totalParsedRows
    (map_fold (fun _ pageRows acc => (acc + length pageRows)%nat) 0%nat
       (parsedByPage s)) s.

(** The row id used for the row at index [idx]: its own when it has one,
    else its position, padded. *)
Definition rowIdAt (idx : nat) (row : Row) : string :=
  Js.orElse (Js.trim (strOr (row_id row) "")) (Js.pad3 (N.of_nat (idx + 1))).

Definition withRowId (idx : nat) (row : Row) : Row :=
  MkRow (Some (rowIdAt idx row)) (date row) (description row) (debit row)
    (credit row) (balance row).

(** [renderRows], for what it does to [state]: the total is recomputed and
    each row of the current page gets its row id written back. *)
Definition renderRows (s : State) : State :=
  match currentPage s with
  | Some page =>
      if negb (Js.truthy page) then s
      else
        let s1 := recomputeTotalParsedRows s in
        match parsedByPage s1 !! page with
        | Some rows =>
            set_parsedByPage (<[page := imap withRowId rows]> (parsedByPage s1)) s1
        | None => s1
        end
  | None => s
  end.

(** A row as [persistPageRows] sends it. *)
Definition payloadRow (idx : nat) (row : Row) : Row :=
  MkRow (Some (rowIdAt idx row))
    (Some (Js.trim (normalizeEditableCellValue (date row))))
    (Some (Js.trim (normalizeEditableCellValue (description row))))
    (Some (formatAmountCellValue (debit row)))
    (Some (formatAmountCellValue (credit row)))
    (Some (formatAmountCellValue (balance row))).

(** [persistPageRows] up to its [await]: the page's token is bumped and the
    request goes out; the step gives the token that the call captured, or
    nothing when the call returned at once. *)
Definition persistBegin (page : string) : M (option nat) :=
  let pageName := Js.trim page in
  job ← gets jobId;
  if negb (truthyO job) || negb (Js.truthy pageName) then mret None
  else
    sourceRows ← gets (fun s => default [] (parsedByPage s !! pageName));
    let payloadRows := imap payloadRow sourceRows in
    token ← gets (fun s => (default 0 (pageSaveTokenByPage s !! pageName) + 1)%nat);
    modify (fun s =>
      set_pageSaveTokenByPage (<[pageName := token]> (pageSaveTokenByPage s)) s);;
    emit (Sent (PutParsed (strOr job "") pageName payloadRows));;
    mret (Some token).

(** [String(row?.row_id || idx + 1)]. *)
Definition shapeId (idx : nat) (row : Row) : string :=
  strOr (row_id row) (Js.digitsOf (N.of_nat (idx + 1))).

Fixpoint sameIds (idx : nat) (existing incoming : list Row) : bool :=
  match existing, incoming with
  | [], _ => true
  | e :: es, i :: is' =>
      String.eqb (shapeId idx e) (shapeId idx i) && sameIds (S idx) es is'
  | _ :: _, [] => false
  end.

(** The copy of the fields of a response row into the existing row. *)
Definition copyRow (existing src : Row) : Row :=
  MkRow
    (Some (Js.trim (strOr (row_id src) (strOr (row_id existing) ""))))
    (Some (Js.trim (normalizeEditableCellValue (date src))))
    (Some (Js.trim (normalizeEditableCellValue (description src))))
    (Some (formatAmountCellValue (debit src)))
    (Some (formatAmountCellValue (credit src)))
    (Some (formatAmountCellValue (balance src))).

Fixpoint copyRows (existing incoming : list Row) : list Row :=
  match existing, incoming with
  | e :: es, i :: is' => copyRow e i :: copyRows es is'
  | _, _ => existing
  end.

Definition hasRowId (rows : list Row) (id : string) : bool :=
  existsb (fun row => String.eqb (strOr (row_id row) "") id) rows.

(** The reconciliation of the rows of a response with the rows in memory:
    copied in place when they line up, put in their place otherwise. *)
Definition reconcileRows (pageName : string) (rows : list Row) (s : State)
  : State :=
  let existingRows := default [] (parsedByPage s !! pageName) in
  let sameShape :=
    (length existingRows =? length rows)%nat && sameIds 0 existingRows rows in
  if sameShape then
    match parsedByPage s !! pageName with
    | Some _ =>
        set_parsedByPage
          (<[pageName := copyRows existingRows rows]> (parsedByPage s)) s
    | None => s
    end
  else
    let s' := set_parsedByPage (<[pageName := rows]> (parsedByPage s)) s in
    if decide (currentPage s' = Some pageName) then renderRows s' else s'.

(** The selection is dropped when its row is not among the rows of the
    response. *)
Definition clearStaleSelection (rows : list Row) (s : State) : State :=
  match selectedRowId s with
  | Some sel =>
      if Js.truthy sel && negb (hasRowId rows sel)
      then set_selectedRowId None s
      else s
  | None => s
  end.

(** What [persistPageRows] does with a response whose token is current. *)
Definition applySaveResponse (pageName : string) (payload : SavePayload)
    (s : State) : State :=
  recomputeTotalParsedRows
    match sp_rows payload with
    | Some rows => clearStaleSelection rows (reconcileRows pageName rows s)
    | None => s
    end.

(** [persistPageRows] from its [await] on, for the call that captured
    [token]. *)
Definition persistResume (page : string) (token : nat)
    (res : FetchResult SavePayload) : M unit :=
  let pageName := Js.trim page in
  payload ← api res;
  current ← gets (fun s => pageSaveTokenByPage s !! pageName);
  if decide (current = Some token)
  then modify (applySaveResponse pageName payload)
  else mret tt.

(** [queuePageRowsSave]: the timer of the page is cleared if there is one
    and set anew, [ROW_SAVE_DEBOUNCE_MS] from now. *)
Definition queuePageRowsSave (page : string) (s : State) : State :=
  let pageName := Js.trim page in
  if negb (Js.truthy pageName) || negb (truthyO (jobId s)) then s
  else
    set_pageSaveTimers
      (<[pageName := (now s + ROW_SAVE_DEBOUNCE_MS)%nat]> (pageSaveTimers s)) s.

(** The callback of the timer set by [queuePageRowsSave], up to the [await]
    inside [persistPageRows]. *)
Definition saveTimerFires (pageName : string) : M (option nat) :=
  modify (fun s => set_pageSaveTimers (delete pageName (pageSaveTimers s)) s);;
  persistBegin pageName.

(** The rest of that callback: a rejected save is reported. *)
Definition saveTimerSettles (pageName : string) (token : nat)
    (res : FetchResult SavePayload) : M unit :=
  tryCatch (persistResume pageName token res)
    (fun msg => emit (AlertNormalized "Save failed: " msg)).

(** Time passes up to [t]. *)
Definition advanceTo (t : nat) (s : State) : State :=
  set_now (Nat.max (now s) t) s.

Definition saveTimerDue (pageName : string) (s : State) : bool :=
  match pageSaveTimers s !! pageName with
  | Some deadline => (deadline <=? now s)%nat
  | None => false
  end.

(** Time passes up to [t], and the save timer of [pageName] fires if it is
    due by then. *)
Definition runSaveTimer (pageName : string) (t : nat) : M unit :=
  modify (advanceTo t);;
  due ← gets (saveTimerDue pageName);
  if (due : bool) then saveTimerFires pageName;; mret tt else mret tt.


(** The editable fields of a row, and the listener of the [input] event of
    a cell: the row takes the typed value and a save is queued. *)
Inductive Field : Type := FDate | FDescription | FDebit | FCredit | FBalance.

Definition setField (f : Field) (v : string) (row : Row) : Row :=
  match f with
  | FDate =>
      MkRow (row_id row) (Some v) (description row) (debit row) (credit row)
        (balance row)
  | FDescription =>
      MkRow (row_id row) (date row) (Some v) (debit row) (credit row)
        (balance row)
  | FDebit =>
      MkRow (row_id row) (date row) (description row) (Some v) (credit row)
        (balance row)
  | FCredit =>
      MkRow (row_id row) (date row) (description row) (debit row) (Some v)
        (balance row)
  | FBalance =>
      MkRow (row_id row) (date row) (description row) (debit row) (credit row)
        (Some v)
  end.

Definition onCellInput (page : string) (idx : nat) (f : Field) (v : string)
    (s : State) : State :=
  queuePageRowsSave page
    (set_parsedByPage
       (alter (alter (setField f v) idx) page (parsedByPage s)) s).

(** The save requests for a page among some effects. *)
Definition isPutFor (pageName : string) (e : Effect) : bool :=
  match e with
  | Sent (PutParsed _ page _) => String.eqb page pageName
  | _ => false
  end.

Definition savesSent (pageName : string) (es : list Effect) : nat :=
  length (List.filter (isPutFor pageName) es).

(** A burst of calls of [queuePageRowsSave] for one page, at the given
    times; before each call the clock moves to its time and the page's timer
    fires if it is due. *)
Fixpoint queueBurst (page : string) (times : list nat) : M unit :=
  match times with
  | [] => mret tt
  | t :: rest =>
      runSaveTimer page t;;
      modify (queuePageRowsSave page);;
      queueBurst page rest
  end.

(** Each time of the list is at or after the one before and less than the
    debounce window after it. *)
Fixpoint withinWindow (prev : nat) (times : list nat) : bool :=
  match times with
  | [] => true
  | t :: rest =>
      (prev <=? t)%nat && (t <? prev + ROW_SAVE_DEBOUNCE_MS)%nat
      && withinWindow t rest
  end.

(** The last time of a list of times that follows [prev]. *)
Fixpoint lastTime (prev : nat) (times : list nat) : nat :=
  match times with
  | [] => prev
  | t :: rest => lastTime t rest
  end.


(** A row whose id is what [renderRows] writes: present, trimmed, not
    empty. *)
Definition hasRenderedId (row : Row) : Prop :=
  exists id, row_id row = Some id /\ Js.trim id = id /\ id <> "".

(** ** The cached job list *)

(** [saveStoredJobs]. *)
Definition saveStoredJobs : M unit :=
  jobs ← gets uploadedJobs;
  emit (Stored (take 100 jobs)).

(** [arr.findIndex(p)], [None] standing for -1. *)
Fixpoint findIndex {A : Type} (p : A -> bool) (l : list A) : option nat :=
  match l with
  | [] => None
  | x :: rest => if p x then Some 0%nat else S <$> findIndex p rest
  end.

(** The object handed to [updateUploadedJobIfExists]; the key [parseMode]
    may be absent from it. *)
Record JobPartial : Type := MkJobPartial {
  pt_jobId : option string;
  pt_status : string;
  pt_step : string;
  pt_progress : Q;
  pt_parseMode : option (option string)
}.

(** [{ ...old, ...partial }]. *)
Definition mergePartial (old : JobRecord) (partial : JobPartial) : JobRecord :=
  MkJobRecord (pt_jobId partial) (lj_fileName old) (lj_sizeBytes old)
    (lj_lastModified old) (lj_createdAt old)
    (Some (pt_status partial)) (Some (pt_step partial))
    (Some (pt_progress partial))
    (match pt_parseMode partial with
     | Some v => v
     | None => lj_parseMode old
     end).

(** [updateUploadedJobIfExists]. *)
Definition updateUploadedJobIfExists (partial : JobPartial) : M unit :=
  let id := Js.trim (strOr (pt_jobId partial) "") in
  if negb (Js.truthy id) then mret tt
  else
    jobs ← gets uploadedJobs;
    match findIndex (fun j => String.eqb (jsString (lj_jobId j)) id) jobs with
    | None => mret tt
    | Some idx =>
        modify (fun s =>
          set_uploadedJobs
            (alter (fun old => mergePartial old partial) idx (uploadedJobs s)) s);;
        saveStoredJobs
    end.

(** The record pushed for a row whose status request succeeded. *)
Definition mergeStatus (row : JobRecord) (payload : StatusPayload) : JobRecord :=
  MkJobRecord (lj_jobId row) (lj_fileName row) (lj_sizeBytes row)
    (lj_lastModified row) (lj_createdAt row)
    (Some (strOr (pl_status payload) (strOr (lj_status row) "queued")))
    (Some (strOr (pl_step payload) (strOr (lj_step row) "")))
    (Some (default (default 0%Q (lj_progress row)) (pl_progress payload)))
    (lj_parseMode row).

(** The loop of [reconcileStoredJobsStatuses] over the rows from index
    [idx] on; [fetchAt i] is what the status request of the row at index [i]
    gives. The step gives the list [next], or nothing when the function
    returned from inside the loop. *)
Fixpoint reconcileLoop (rows : list JobRecord) (idx : nat)
    (fetchAt : nat -> FetchResult StatusPayload) (next : list JobRecord)
  : M (option (list JobRecord)) :=
  match rows with
  | [] => mret (Some next)
  | row :: rest =>
      let jobId := Js.trim (strOr (lj_jobId row) "") in
      if negb (Js.truthy jobId) then reconcileLoop rest (S idx) fetchAt next
      else
        emit (Sent (GetJob jobId));;
        match fetchAt idx with
        | NetworkError _ => reconcileLoop rest (S idx) fetchAt (next ++ [row])
        | Response status _ payload =>
            if (status =? 401)%nat then
              emit (Redirect "/login");; mret None
            else if (status =? 404)%nat then
              reconcileLoop rest (S idx) fetchAt next
            else if negb (isOk status) then
              reconcileLoop rest (S idx) fetchAt (next ++ [row])
            else
              reconcileLoop rest (S idx) fetchAt
                (next ++ [mergeStatus row payload])
        end
  end.

(** [reconcileStoredJobsStatuses]. *)
Definition reconcileStoredJobsStatuses
    (fetchAt : nat -> FetchResult StatusPayload) : M unit :=
  jobs ← gets uploadedJobs;
  match jobs with
  | [] => mret tt
  | _ =>
      r ← reconcileLoop (take 100 jobs) 0 fetchAt [];
      match r with
      | None => mret tt
      | Some next => modify (set_uploadedJobs next);; saveStoredJobs
      end
  end.

(** What becomes of the cached record at index [i], in the words of the
    description: dropped on a 404, kept as it is on a fetch error or another
    failure status, merged on a success; a record without a job id is not
    asked about and is dropped. *)
Definition reconciledSlot (fetchAt : nat -> FetchResult StatusPayload)
    (i : nat) (row : JobRecord) : list JobRecord :=
  if negb (Js.truthy (Js.trim (strOr (lj_jobId row) ""))) then []
  else
    match fetchAt i with
    | NetworkError _ => [row]
    | Response status _ payload =>
        if (status =? 404)%nat then []
        else if negb (isOk status) then [row]
        else [mergeStatus row payload]
    end.

(** ** The job poll loop *)

(** [stopPolling]. *)
Definition stopPolling (s : State) : State := set_pollTimer None s.

(** [Math.max(0, Math.min(100, x))]. *)
Definition clampPercent (x : Q) : Q := Qmax 0 (Qmin 100 x).

(** [setStatus]. *)
Definition setStatus (payload : StatusPayload) : M unit :=
  let raw := Js.toLowerCase (strOr (pl_status payload) "idle") in
  let mapped := if String.eqb raw "done" then "completed" else raw in
  modify (set_dom_jobStatus mapped);;
  modify (set_dom_jobStep (strOr (pl_step payload) "-"));;
  let progress := clampPercent (default 0%Q (pl_progress payload)) in
  modify (set_dom_jobProgress progress);;
  modify (set_isCompleted (String.eqb mapped "completed"));;
  modify (fun s =>
    set_currentParseMode
      (Js.toLowerCase
         (Js.trim (strOr (pl_parse_mode payload)
                     (Js.orElse (currentParseMode s) "")))) s);;
  job ← gets jobId;
  if truthyO job then
    updateUploadedJobIfExists
      (MkJobPartial job
         (strOr (pl_status payload) "queued")
         (strOr (pl_step payload) "queued")
         (default 0%Q (pl_progress payload))
         (Some (pl_parse_mode payload)))
  else mret tt.

(** Running a step and keeping how it settled. *)
Definition settle {A : Type} (m : M A) : M (Outcome A) :=
  fun s => let '(r, s1, e1) := m s in (Resolved r, s1, e1).

Fixpoint forEach {A : Type} (f : A -> M unit) (l : list A) : M unit :=
  match l with
  | [] => mret tt
  | x :: rest => f x;; forEach f rest
  end.

Fixpoint mapM {A B : Type} (f : A -> M B) (l : list A) : M (list B) :=
  match l with
  | [] => mret []
  | x :: rest => y ← f x; ys ← mapM f rest; mret (y :: ys)
  end.

(** [flushPendingPageSaves]: the pending timers are cleared, the saves of
    their pages go out, and each one is resumed with its response;
    [Promise.allSettled] drops the rejections. *)
Definition flushPendingPageSaves (saves : string -> FetchResult SavePayload)
  : M unit :=
  pendingPages ← gets (fun s => (map_to_list (pageSaveTimers s)).*1);
  match pendingPages with
  | [] => mret tt
  | _ =>
      modify (fun s =>
        set_pageSaveTimers
          (foldr (fun page timers => delete page timers) (pageSaveTimers s)
             pendingPages) s);;
      sent ← mapM (fun page => token ← persistBegin page; mret (page, token))
               pendingPages;
      forEach (fun '(page, token) =>
                 match token with
                 | Some t => settle (persistResume page t (saves page));; mret tt
                 | None => mret tt
                 end) sent
  end.

(** [String(name || '').replace(/\.png$/i, '')]. *)
Definition stripPng (name : string) : string :=
  let n := String.length name in
  if (4 <=? n)%nat
     && String.eqb (Js.toLowerCase (String.substring (n - 4) 4 name)) ".png"
  then String.substring 0 (n - 4) name
  else name.

(** The responses that one run of [loadResultData] receives. *)
Record LoadInputs : Type := MkLoadInputs {
  li_saves : string -> FetchResult SavePayload;
  li_cleaned : FetchResult (option (list string));
  li_summary : FetchResult (option Summary);
  li_parsed : FetchResult (list Row);
  li_bounds : FetchResult (list Bound);
  li_openaiRaw : FetchResult string
}.

(** [ensureCurrentPageOpenaiRawLoaded]. *)
Definition ensureCurrentPageOpenaiRawLoaded (li : LoadInputs) : M unit :=
  job ← gets jobId;
  page ← gets (fun s => Js.trim (strOr (currentPage s) ""));
  if negb (truthyO job) || negb (Js.truthy page) then mret tt
  else
    cached ← gets (fun s => openaiRawByPage s !! page);
    match cached with
    | Some _ => mret tt
    | None =>
        emit (Sent (GetOpenaiRaw (strOr job "") page));;
        tryCatch
          (raw ← api (li_openaiRaw li);
           modify (fun s =>
             set_openaiRawByPage (<[page := raw]> (openaiRawByPage s)) s))
          (fun _ =>
             modify (fun s =>
               set_openaiRawByPage
                 (<[page := "openai_ocr_raw_not_ready"]> (openaiRawByPage s)) s))
    end.

(** [loadPreview], for what it does to [state]. *)
Definition loadPreview (s : State) : State :=
  if truthyO (jobId s) && truthyO (currentPage s)
  then set_selectedRowId None s
  else s.

(** [loadCurrentPageData]. *)
Definition loadCurrentPageData (li : LoadInputs) : M unit :=
  job ← gets jobId;
  current ← gets currentPage;
  if negb (truthyO job) || negb (truthyO current) then mret tt
  else
    let page := strOr current "" in
    parsed ← gets (fun s => parsedByPage s !! page);
    match parsed with
    | Some _ => mret tt
    | None =>
        emit (Sent (GetParsed (strOr job "") page));;
        rows ← api (li_parsed li);
        modify (fun s => set_parsedByPage (<[page := rows]> (parsedByPage s)) s)
    end;;
    bounds ← gets (fun s => boundsByPage s !! page);
    match bounds with
    | Some _ => mret tt
    | None =>
        emit (Sent (GetBounds (strOr job "") page));;
        bs ← api (li_bounds li);
        modify (fun s => set_boundsByPage (<[page := bs]> (boundsByPage s)) s)
    end;;
    mode ← gets parsedPanelMode;
    match mode with
    | JsonMode => ensureCurrentPageOpenaiRawLoaded li
    | TableMode => modify renderRows
    end;;
    modify loadPreview.

(** The page names of a cleaned-page list: the extension removed, the empty
    ones dropped, sorted. *)
Definition cleanedPages (cleaned : option (list string)) : list string :=
  merge_sort String.le
    (List.filter Js.truthy (stripPng <$> default [] cleaned)).

(** [loadResultData]. Both requests of its [Promise.all] go out and both
    are awaited; the first rejection is the one thrown. *)
Definition loadResultData (li : LoadInputs) : M unit :=
  flushPendingPageSaves (li_saves li);;
  job ← gets jobId;
  if negb (truthyO job) then mret tt
  else
    emit (Sent (GetCleaned (strOr job "")));;
    emit (Sent (GetSummary (strOr job "")));;
    cleanedR ← settle (api (li_cleaned li));
    summaryR ← settle (api (li_summary li));
    match cleanedR, summaryR with
    | Rejected msg, _ => throw msg
    | _, Rejected msg => throw msg
    | Resolved cleaned, Resolved summary =>
        let pages := cleanedPages cleaned in
        modify (set_pages pages);;
        modify (set_currentPage (head pages));;
        modify (set_parsedByPage ∅);;
        modify (set_boundsByPage ∅);;
        modify (set_openaiRawByPage ∅);;
        modify (set_totalParsedRows
                  (N.to_nat (default 0%N (summary ≫= total_transactions))));;
        loadCurrentPageData li
    end.

(** [pollStatus] up to its [await]: whether a status request went out. *)
Definition pollStatusBegin : M bool :=
  job ← gets jobId;
  if negb (truthyO job) then mret false
  else emit (Sent (GetJob (strOr job "")));; mret true.

(** [pollStatus] from its [await] on. *)
Definition pollStatusResume (res : FetchResult StatusPayload) (li : LoadInputs)
  : M unit :=
  tryCatch
    (payload ← api res;
     setStatus payload;;
     let status := Js.toLowerCase (strOr (pl_status payload) "") in
     (if String.eqb status "done"
      then modify stopPolling;; loadResultData li
      else mret tt);;
     (if String.eqb status "failed"
      then modify stopPolling;;
           emit (Alert ("Job failed: "
                        +:+ strOr (pl_message payload) "unknown error"))
      else mret tt))
    (fun msg =>
       modify stopPolling;;
       emit (Alert ("Status check failed: " +:+ msg))).

(** [startPolling], up to the [await] of the [pollStatus] it calls. *)
Definition startPolling : M unit :=
  modify stopPolling;;
  modify (fun s =>
    set_timerSeq (S (timerSeq s)) (set_pollTimer (Some (timerSeq s)) s));;
  pollStatusBegin;; mret tt.

(** [stopCrmStatusPolling], [startCrmStatusPolling]. *)
Definition stopCrmStatusPolling (s : State) : State := set_crmStatusTimer None s.

Definition startCrmStatusPolling (s : State) : State :=
  match crmStatusTimer s with
  | Some _ => s
  | None =>
      set_timerSeq (S (timerSeq s)) (set_crmStatusTimer (Some (timerSeq s)) s)
  end.

(** The responses that one run of [setActiveJob] receives. *)
Record ActivateInputs : Type := MkActivateInputs {
  ai_saves : string -> FetchResult SavePayload;
  ai_status : FetchResult StatusPayload;
  ai_load : LoadInputs
}.

(** [setActiveJob]; switching to the processing view stops the status timer
    of the attachment feed. *)
Definition setActiveJob (jobIdArg : string) (switchToProcessing : bool)
    (ai : ActivateInputs) : M unit :=
  flushPendingPageSaves (ai_saves ai);;
  let id := Js.trim jobIdArg in
  if negb (Js.truthy id) then mret tt
  else
    modify (set_jobId (Some id));;
    modify (set_isCompleted false);;
    modify (set_totalParsedRows 0%nat);;
    modify (set_openaiRawByPage ∅);;
    when switchToProcessing (modify stopCrmStatusPolling);;
    emit (Sent (GetJob id));;
    status ← api (ai_status ai);
    setStatus status;;
    let st := Js.toLowerCase (strOr (pl_status status) "") in
    if String.eqb st "done" || String.eqb st "failed" then
      if String.eqb st "done" then loadResultData (ai_load ai) else mret tt
    else startPolling.

(** What happens to the poll loop: its timer ticks, or the response to a
    status request of [pollStatus] arrives. A tick runs [pollStatus] only
    while the interval exists. *)
Inductive PollEvent : Type :=
| TimerTick
| StatusArrives (res : FetchResult StatusPayload) (li : LoadInputs).

Definition pollStep (e : PollEvent) : M unit :=
  match e with
  | TimerTick =>
      timer ← gets pollTimer;
      match timer with
      | Some _ => pollStatusBegin;; mret tt
      | None => mret tt
      end
  | StatusArrives res li => pollStatusResume res li
  end.

Definition isStatusRequest (e : Effect) : bool :=
  match e with Sent (GetJob _) => true | _ => false end.

Definition isLoadRequest (e : Effect) : bool :=
  match e with Sent (GetCleaned _) | Sent (GetSummary _) => true | _ => false end.

Definition isAlert (e : Effect) : bool :=
  match e with Alert _ | AlertNormalized _ _ => true | _ => false end.

Definition countIf (p : Effect -> bool) (es : list Effect) : nat :=
  length (List.filter p es).

(** ** Beginning the processing of an attachment *)

(** The button that was clicked. *)
Record Button : Type := MkButton {
  btn_disabled : bool;
  btn_textContent : string
}.

(** The listener of the attachment table for a button carrying
    [data-process-attachment-id], up to the point where the request is in
    flight: the button it leaves, and the attachment id and the label it
    keeps for later when a request went out. *)
Definition beginProcessClick (attribute : string) (btn : Button)
  : M (Button * option (string * string)) :=
  let attachmentId := Js.trim attribute in
  if negb (Js.truthy attachmentId) then mret (btn, None)
  else
    let priorLabel := Js.orElse (btn_textContent btn) "Begin Process" in
    emit (Sent (PostBeginProcess attachmentId));;
    mret (MkButton true "Starting…", Some (attachmentId, priorLabel)).

(** The rest of the listener: the [then] callback on the response, and the
    [catch] callback on a rejection of the request or of anything the [then]
    callback does. *)
Definition beginProcessSettles (attachmentId priorLabel : string)
    (btn : Button) (res : FetchResult (option string)) (ai : ActivateInputs)
  : M Button :=
  tryCatch
    (job_id ← api res;
     let jobId := Js.trim (strOr job_id "") in
     if negb (Js.truthy jobId) then throw "missing_job_id"
     else
       modify (fun s =>
         set_crmProcessByAttachment
           (<[attachmentId := MkBinding jobId "queued" "queued" 0%Q]>
              (crmProcessByAttachment s)) s);;
       modify startCrmStatusPolling;;
       setActiveJob jobId true ai;;
       mret btn)
    (fun msg =>
       emit (AlertNormalized "Begin process failed: " msg);;
       mret (MkButton false priorLabel)).

(** ** The state when the script starts *)

Definition initialState (stored : list JobRecord) : State :=
  MkState None [] ∅ ∅ ∅ None None None stored 0%nat false ∅ None ∅ ∅
    TableMode "" "" "" 0%Q 0%nat 1%nat.

(** ** Escaping text for the document *)

Module Html.

(** The characters that [escapeHtml] replaces. *)
Definition amp : ascii := "&"%char.
Definition lt : ascii := "<"%char.
Definition gt : ascii := ">"%char.
Definition dquote : ascii := ascii_of_nat 34.
Definition squote : ascii := "'"%char.

(** [s.replaceAll(c, rep)] for a pattern of one character. *)
Fixpoint replaceAll (c : ascii) (rep : string) (s : string) : string :=
  match s with
  | EmptyString => EmptyString
  | String x s' =>
      if Ascii.eqb x c then rep +:+ replaceAll c rep s'
      else String x (replaceAll c rep s')
  end.

End Html.

(** [escapeHtml]: the five replacements in the order of the source, the
    ampersand first. *)
Definition escapeHtml (value : option string) : string :=
  Html.replaceAll Html.squote "&#39;"
    (Html.replaceAll Html.dquote "&quot;"
       (Html.replaceAll Html.gt "&gt;"
          (Html.replaceAll Html.lt "&lt;"
             (Html.replaceAll Html.amp "&amp;" (default "" value))))).

(** ** The processes of the attachments *)

(** The statuses that [normalizeProcessStatus] lets through as they are. *)
Definition knownProcessStatuses : list string :=
  ["queued"; "processing"; "completed"; "failed"; "needs_review"].

(** [normalizeProcessStatus]. *)
Definition normalizeProcessStatus (rawStatus : option string) : string :=
  let status := Js.toLowerCase (Js.trim (strOr rawStatus "")) in
  if String.eqb status "done" then "completed"
  else if existsb (String.eqb status) knownProcessStatuses then status
  else "not_started".

(** An item of the attachment feed, for the fields that
    [syncCrmProcessMapFromItems] reads; a progress that is there is a finite
    number. *)
Record CrmItem : Type := MkCrmItem {
  attachment_id : option string;
  process_job_id : option string;
  process_step : option string;
  process_status : option string;
  process_progress : option Q
}.

(** The binding that [syncCrmProcessMapFromItems] writes for an item, given
    the binding the attachment had. *)
Definition bindingOfItem (previous : option Binding) (item : CrmItem) : Binding :=
  MkBinding
    (Js.trim (strOr (process_job_id item)
                (Js.orElse (default "" (bd_jobId <$> previous)) "")))
    (normalizeProcessStatus
       (Some (strOr (process_status item)
                (Js.orElse (default "" (bd_status <$> previous))
                   "not_started"))))
    (Js.trim (strOr (process_step item)
                (Js.orElse (default "" (bd_step <$> previous)) "")))
    (default (default 0%Q (bd_progress <$> previous)) (process_progress item)).

(** [syncCrmProcessMapFromItems]: the map is built anew from the items, in
    their order; [previous] is read from the map being replaced. *)
Definition syncCrmProcessMapFromItems (items : list CrmItem) (s : State)
  : State :=
  let next :=
    fold_left
      (fun next item =>
         let attachmentId := Js.trim (strOr (attachment_id item) "") in
         if negb (Js.truthy attachmentId) then next
         else
           <[attachmentId :=
               bindingOfItem (crmProcessByAttachment s !! attachmentId) item]>
             next)
      items ∅ in
  set_crmProcessByAttachment next s.

(** ** Adding to the cached job list *)

(** [upsertUploadedJob], for the record that [uploadSelectedFile] hands it:
    the object literal there has every key of a record, so the spread
    [{ ...old, ...partial }] keeps nothing of the old record. *)
Definition upsertUploadedJob (partial : JobRecord) : M unit :=
  let id := Js.trim (strOr (lj_jobId partial) "") in
  if negb (Js.truthy id) then mret tt
  else
    jobs ← gets uploadedJobs;
    match findIndex (fun j => String.eqb (jsString (lj_jobId j)) id) jobs with
    | Some idx =>
        modify (fun s =>
          set_uploadedJobs (alter (fun _ => partial) idx (uploadedJobs s)) s)
    | None =>
        modify (fun s => set_uploadedJobs (partial :: uploadedJobs s) s)
    end;;
    saveStoredJobs.

(** ** Inserting and deleting rows *)

(** [selectRow], for what it does to [state]. *)
Definition selectRow (rowId : option string) (s : State) : State :=
  set_selectedRowId (Some (Js.trim (strOr rowId ""))) s.

(** [Number.parseInt(input, 10)]: white space, a sign, then the longest run
    of digits; nothing when there is no digit ([NaN]). The value of the run
    is taken exactly; the script rounds it to binary64 from 2^53 on. *)
Definition parseInt10 (input : string) : option (bool * N) :=
  let '(sgn, s1) := Num.splitSign (Js.trimStart input) in
  let '(v, cnt, _) := Num.scanDigits 0 0 s1 in
  match cnt with
  | O => None
  | _ => Some (sgn, v)
  end.

(** One turn of the [reduce] of [buildNextRowId]: [Math.max(max, num)] when
    [num] is finite, a negative [num] never passing [max], which starts at 0. *)
Definition nextMax (max : N) (idx : nat) (row : Row) : N :=
  let raw :=
    Js.orElse (Js.trim (strOr (row_id row) ""))
      (Js.digitsOf (N.of_nat (idx + 1))) in
  match parseInt10 raw with
  | Some (sgn, v) =>
      if Num.overflowAt <=? v then max
      else if sgn then max
      else N.max max v
  | None => max
  end.

Fixpoint maxRowFrom (idx : nat) (rows : list Row) (max : N) : N :=
  match rows with
  | [] => max
  | row :: rest => maxRowFrom (S idx) rest (nextMax max idx row)
  end.

(** [buildNextRowId]. *)
Definition buildNextRowId (rows : list Row) : string :=
  Js.pad3 (maxRowFrom 0 rows 0 + 1).

(** The test of [insertRowAfter] and [deleteRow] for the row they act on. *)
Definition isRow (rowId : option string) (row : Row) : bool :=
  String.eqb (strOr (row_id row) "") (strOr rowId "").

(** [insertRowAfter]. *)
Definition insertRowAfter (page : string) (rowId : option string) (s : State)
  : State :=
  let rows := default [] (parsedByPage s !! page) in
  match findIndex (isRow rowId) rows with
  | None => s
  | Some idx =>
      let nextRow :=
        MkRow (Some (buildNextRowId rows)) (Some "") (Some "") (Some "")
          (Some "") (Some "") in
      let rows' := take (idx + 1) rows ++ nextRow :: drop (idx + 1) rows in
      queuePageRowsSave page
        (selectRow (row_id nextRow)
           (renderRows
              (set_parsedByPage (<[page := rows']> (parsedByPage s)) s)))
  end.

(** [deleteRow]. *)
Definition deleteRow (page : string) (rowId : option string) (s : State)
  : State :=
  let rows := default [] (parsedByPage s !! page) in
  match findIndex (isRow rowId) rows with
  | None => s
  | Some idx =>
      let rows' := delete idx rows in
      let s1 := set_parsedByPage (<[page := rows']> (parsedByPage s)) s in
      let s2 :=
        match rows' with
        | [] => set_selectedRowId None s1
        | _ =>
            if String.eqb (strOr (selectedRowId s1) "") (strOr rowId "") then
              let fallback := rows' !! Nat.min idx (length rows' - 1) in
              let id := Js.trim (strOr (fallback ≫= row_id) "") in
              set_selectedRowId (if Js.truthy id then Some id else None) s1
            else s1
        end in
      queuePageRowsSave page (renderRows s2)
  end.

(** ** Moving between the pages *)

(** [state.pages.indexOf(state.currentPage)], [None] standing for -1. *)
Definition indexOfPage (current : option string) (pages : list string)
  : option nat :=
  match current with
  | Some c => findIndex (String.eqb c) pages
  | None => None
  end.

(** [loadCurrentPageData().catch(...)] of the page controls. *)
Definition loadPageOrAlert (li : LoadInputs) : M unit :=
  tryCatch (loadCurrentPageData li)
    (fun msg => emit (Alert ("Page load failed: " +:+ msg))).

(** The listener of the button for the previous page. *)
Definition pagePrevClick (li : LoadInputs) : M unit :=
  idx ← gets (fun s => indexOfPage (currentPage s) (pages s));
  match idx with
  | Some (S k) =>
      modify (fun s => set_currentPage (pages s !! k) s);;
      modify (set_selectedRowId None);;
      loadPageOrAlert li
  | _ => mret tt
  end.

(** The listener of the button for the next page. *)
Definition pageNextClick (li : LoadInputs) : M unit :=
  idx ← gets (fun s => indexOfPage (currentPage s) (pages s));
  total ← gets (fun s => length (pages s));
  match idx with
  | Some k =>
      if (total - 1 <=? k)%nat then mret tt
      else
        modify (fun s => set_currentPage (pages s !! (k + 1)%nat) s);;
        modify (set_selectedRowId None);;
        loadPageOrAlert li
  | None => mret tt
  end.

(** ** Polling the processes of the attachments *)

(** The test of [refreshCrmProcessStatuses] for an entry of the map that it
    asks the server about: a job id, and a status of [queued] or
    [processing]. *)
Definition isPollable (processInfo : Binding) : bool :=
  Js.truthy (Js.trim (bd_jobId processInfo))
  && existsb (String.eqb (normalizeProcessStatus (Some (bd_status processInfo))))
       ["queued"; "processing"].

(** The callback of [refreshCrmProcessStatuses] for one entry, up to its
    [await]: whether a request went out. *)
Definition refreshEntryBegin (processInfo : Binding) : M bool :=
  if isPollable processInfo
  then emit (Sent (GetJob (Js.trim (bd_jobId processInfo))));; mret true
  else mret false.

(** The rest of that callback: whether the binding changed. A failure of
    the request is caught and dropped. *)
Definition refreshEntrySettles (attachmentId : string) (processInfo : Binding)
    (res : FetchResult StatusPayload) : M bool :=
  tryCatch
    (payload ← api res;
     let jobId := Js.trim (bd_jobId processInfo) in
     let nextStatus := normalizeProcessStatus (pl_status payload) in
     let nextStep := Js.trim (strOr (pl_step payload) "") in
     let nextProgress :=
       default (bd_progress processInfo) (pl_progress payload) in
     prev ← gets (fun s => crmProcessByAttachment s !! attachmentId);
     let same :=
       match prev with
       | Some b =>
           String.eqb (bd_status b) nextStatus
           && String.eqb (bd_step b) nextStep
           && Qeq_bool (bd_progress b) nextProgress
       | None => false
       end in
     if same then mret false
     else
       modify (fun s =>
         set_crmProcessByAttachment
           (<[attachmentId := MkBinding jobId nextStatus nextStep nextProgress]>
              (crmProcessByAttachment s)) s);;
       mret true)
    (fun _ => mret false).

(** ** Auxiliary notions for the proofs *)

(** A step keeps an invariant of the state and causes only effects of some
    kind. *)
Definition Keeps (I : State -> Prop) (E : Effect -> Prop) {A : Type}
    (m : M A) : Prop :=
  forall s, I s -> I (stateAfter (m s)) /\ Forall E (effectsOf (m s)).

(** What holds of the result of a step run from [s]: [Q] when it completes,
    [X] when it throws; both see the state it leaves and the effects it
    caused. *)
Definition wp {A : Type} (m : M A)
    (Q : A -> State -> list Effect -> Prop)
    (X : string -> State -> list Effect -> Prop) (s : State) : Prop :=
  match m s with
  | (Resolved a, s', es) => Q a s' es
  | (Rejected msg, s', es) => X msg s' es
  end.

(** A run of the poll loop over some events, and the status requests among
    some effects. *)
Definition runPoll (events : list PollEvent) : M unit := forEach pollStep events.

Definition quiet (e : Effect) : Prop := isStatusRequest e = false.

(** The fields that the save controller and the loading of results leave
    alone. *)
Definition frame (s : State) :=
  (jobId s, pollTimer s, uploadedJobs s, isCompleted s,
   crmProcessByAttachment s, crmStatusTimer s, parsedPanelMode s,
   currentParseMode s, dom_jobStatus s, dom_jobStep s, dom_jobProgress s,
   now s, timerSeq s).

(** Kinds of effects. *)
Inductive EffectKind : Type :=
| KStatus | KStart | KCleaned | KSummary | KPage | KSave | KBegin
| KAlert | KRedirect | KStored.

Definition kindOf (e : Effect) : EffectKind :=
  match e with
  | Sent (GetJob _) => KStatus
  | Sent (PostStart _) => KStart
  | Sent (GetCleaned _) => KCleaned
  | Sent (GetSummary _) => KSummary
  | Sent (GetParsed _ _) | Sent (GetBounds _ _) | Sent (GetOpenaiRaw _ _) => KPage
  | Sent (PutParsed _ _ _) => KSave
  | Sent (PostBeginProcess _) => KBegin
  | Alert _ | AlertNormalized _ _ => KAlert
  | Redirect _ => KRedirect
  | Stored _ => KStored
  end.

Definition kindEqb (a b : EffectKind) : bool :=
  match a, b with
  | KStatus, KStatus | KStart, KStart | KCleaned, KCleaned
  | KSummary, KSummary | KPage, KPage | KSave, KSave | KBegin, KBegin
  | KAlert, KAlert | KRedirect, KRedirect | KStored, KStored => true
  | _, _ => false
  end.

(** The effect is of one of the kinds of the list. *)
Definition ofKinds (ks : list EffectKind) (e : Effect) : Prop :=
  existsb (kindEqb (kindOf e)) ks = true.

Definition isKind (k : EffectKind) (e : Effect) : bool := kindEqb (kindOf e) k.

(** After the reset of [loadResultData] and the load of the first page: the
    pages are those of the cleaned list, the first one is current, and the
    caches hold nothing for another page. *)
Definition viewReset (cleaned : option (list string)) (s : State) : Prop :=
  pages s = cleanedPages cleaned
  /\ currentPage s = head (cleanedPages cleaned)
  /\ (forall q, is_Some (parsedByPage s !! q) -> currentPage s = Some q)
  /\ (forall q, is_Some (boundsByPage s !! q) -> currentPage s = Some q)
  /\ (forall q, is_Some (openaiRawByPage s !! q) ->
                Js.trim <$> currentPage s = Some q).

(** What [setStatus] shows and records before it turns to the cached job
    list. *)
Definition statusShown (payload : StatusPayload) (s : State) : State :=
  let raw := Js.toLowerCase (strOr (pl_status payload) "idle") in
  let mapped := if String.eqb raw "done" then "completed" else raw in
  set_currentParseMode
    (Js.toLowerCase
       (Js.trim (strOr (pl_parse_mode payload)
                   (Js.orElse (currentParseMode s) ""))))
    (set_isCompleted (String.eqb mapped "completed")
       (set_dom_jobProgress (clampPercent (default 0%Q (pl_progress payload)))
          (set_dom_jobStep (strOr (pl_step payload) "-")
             (set_dom_jobStatus mapped s)))).

(** The object that [setStatus] hands to [updateUploadedJobIfExists]. *)
Definition statusPartial (job : option string) (payload : StatusPayload)
  : JobPartial :=
  MkJobPartial job (strOr (pl_status payload) "queued")
    (strOr (pl_step payload) "queued") (default 0%Q (pl_progress payload))
    (Some (pl_parse_mode payload)).

(** A step that never throws. *)
Definition NoThrow {A : Type} (m : M A) : Prop :=
  forall s, exists a, outcomeOf (m s) = Resolved a.

(** What one run of [loadResultData] started from [s] leaves, however it
    ends: the frame untouched, one request for the cleaned-page list and one
    for the summary, and the view reset when both are answered. *)
Definition loadPost (li : LoadInputs) (s s' : State) (es : list Effect) : Prop :=
  frame s' = frame s
  /\ countIf (isKind KCleaned) es = 1%nat
  /\ countIf (isKind KSummary) es = 1%nat
  /\ Forall (ofKinds [KSave; KRedirect; KCleaned; KSummary; KPage]) es
  /\ (forall st tx c st' tx' sm,
        li_cleaned li = Response st tx c -> isOk st = true ->
        li_summary li = Response st' tx' sm -> isOk st' = true ->
        viewReset c s').

(** A cached record that reconciliation asks the server about: one with a
    job id. *)
Definition asked (row : JobRecord) : bool :=
  Js.truthy (Js.trim (strOr (lj_jobId row) "")).

(** ** Shapes of strings and of printed amounts *)

(** Every character of the string satisfies [p]. *)
Fixpoint allChars (p : ascii -> bool) (s : string) : bool :=
  match s with
  | EmptyString => true
  | String c s' => p c && allChars p s'
  end.

(** The string does not start with white space. *)
Definition noLeadSpace (s : string) : Prop :=
  match s with
  | String c _ => Js.isSpace c = false
  | EmptyString => True
  end.

Definition signStr (sgn : bool) : string := if sgn then "-" else "".

Definition fracStr (c : N) : string :=
  String "."%char (String (Js.digitChar (c / 10 mod 10))
                    (String (Js.digitChar (c mod 10)) EmptyString)).

(** What [toLocale2] prints for a magnitude of [c] hundredths. *)
Definition canon (sgn : bool) (c : N) : string :=
  signStr sgn +:+ Num.group3 (Js.digitsOf (c / 100)) +:+ fracStr c.

(** The same without the grouping commas. *)
Definition plain (sgn : bool) (c : N) : string :=
  signStr sgn +:+ Js.digitsOf (c / 100) +:+ fracStr c.

(** ** The checker, one turn of its loop *)


(** The kinds of effects of a poll whose timer is stopped. *)
Definition noStatus : list EffectKind :=
  [KSave; KRedirect; KCleaned; KSummary; KPage; KStored; KAlert].

(** What [escapeHtml] writes for one character. *)
Definition escapeChar (c : ascii) : string :=
  if Ascii.eqb c Html.amp then "&amp;"
  else if Ascii.eqb c Html.lt then "&lt;"
  else if Ascii.eqb c Html.gt then "&gt;"
  else if Ascii.eqb c Html.dquote then "&quot;"
  else if Ascii.eqb c Html.squote then "&#39;"
  else String c EmptyString.

Fixpoint escapeEach (s : string) : string :=
  match s with
  | EmptyString => EmptyString
  | String c s' => escapeChar c +:+ escapeEach s'
  end.

(** A character that may stand in markup without opening a tag or closing
    an attribute value. *)
Definition isMarkupSafe (c : ascii) : bool :=
  negb (Ascii.eqb c Html.lt || Ascii.eqb c Html.gt
        || Ascii.eqb c Html.dquote || Ascii.eqb c Html.squote).

(** The attachment ids under which the items of a feed are kept. *)
Definition itemKey (item : CrmItem) : string :=
  Js.trim (strOr (attachment_id item) "").

(** The statuses that a binding may carry after normalisation. *)
Definition isProcessStatus (status : string) : Prop :=
  status = "not_started" \/ In status knownProcessStatuses.

(** The test by which the cached record of a job is looked up. *)
Definition hasJobId (id : string) (j : JobRecord) : bool :=
  String.eqb (jsString (lj_jobId j)) id.

(** A write of the job list to local storage holds at most [n] records;
    every other effect passes. *)
Definition storesAtMost (n : nat) (e : Effect) : Prop :=
  match e with
  | Stored jobs => (length jobs <= n)%nat
  | _ => True
  end.

(** A row as a save sends it and as a save response leaves it: a rendered
    id, trimmed text cells and normalised amounts. *)
Definition isNormalRow (r : Row) : Prop :=
  hasRenderedId r
  /\ (exists d, date r = Some d /\ Js.trim d = d)
  /\ (exists d, description r = Some d /\ Js.trim d = d)
  /\ (exists a, debit r = Some a /\ formatAmountCellValue (Some a) = a)
  /\ (exists a, credit r = Some a /\ formatAmountCellValue (Some a) = a)
  /\ (exists a, balance r = Some a /\ formatAmountCellValue (Some a) = a).

(** The empty row that [insertRowAfter] puts into a list of rows. *)
Definition blankRowFor (rows : list Row) : Row :=
  MkRow (Some (buildNextRowId rows)) (Some "") (Some "") (Some "") (Some "")
    (Some "").

(** Where the selection goes when the selected row, at index [idx], is
    deleted and [rows'] are the rows left: to the row now at that index, or
    to the last row. *)
Definition fallbackSelection (idx : nat) (rows' : list Row) : option string :=
  let id :=
    Js.trim (strOr ((rows' !! Nat.min idx (length rows' - 1)) ≫= row_id) "") in
  if Js.truthy id then Some id else None.

(** The status requests of a reconciliation that runs to its end: one for
    each record that carries a job id, in the order of the list. *)
Definition reconcileRequests (rows : list JobRecord) : list Effect :=
  (fun row => Sent (GetJob (Js.trim (strOr (lj_jobId row) ""))))
    <$> List.filter asked rows.

(** What activating job [id] from [s] leaves when the server answered the
    status request with status [st] (in lower case), [o] being how the
    activation ended. *)
Definition activated (s : State) (id st : string) (o : Outcome unit)
    (s' : State) (es : list Effect) : Prop :=
  jobId s' = Some id
  /\ (st = "done" ->
      pollTimer s' = pollTimer s
      /\ countIf (isKind KStatus) es = 1%nat
      /\ countIf (isKind KCleaned) es = 1%nat
      /\ countIf (isKind KSummary) es = 1%nat)
  /\ (st = "failed" ->
      o = Resolved tt /\ pollTimer s' = pollTimer s
      /\ countIf (isKind KStatus) es = 1%nat
      /\ countIf (isKind KCleaned) es = 0%nat)
  /\ (st <> "done" -> st <> "failed" ->
      o = Resolved tt /\ pollTimer s' = Some (timerSeq s)
      /\ countIf (isKind KStatus) es = 2%nat
      /\ countIf (isKind KCleaned) es = 0%nat).
(** ** Sample inputs *)

Module Sample.

(** A row of a ledger: an id, the two flow amounts and the balance. *)
Definition ledgerRow (id : string) (d c b : option string) : Row :=
  MkRow (Some id) None None d c b.

(** A state with job [J1] active and its poll timer armed. *)
Definition polling : State :=
  set_timerSeq 2%nat
    (set_pollTimer (Some 1%nat) (set_jobId (Some "J1") (initialState []))).

Definition status (word : string) (progress : Q) : StatusPayload :=
  MkStatusPayload (Some word) (Some "parse") (Some progress) None None.

(** The server answers every request of a result load with nothing of
    interest. *)
Definition emptyLoad : LoadInputs :=
  MkLoadInputs (fun _ => Response 200 "" (MkSavePayload None None))
    (Response 200 "" (Some [])) (Response 200 "" None)
    (Response 200 "" []) (Response 200 "" []) (Response 200 "" "").

(** Cached records, and a server that has forgotten the job of the first
    record and no longer knows the session at the second. *)
Definition record (id : string) (progress : Q) : JobRecord :=
  MkJobRecord (Some id) (Some "statement.pdf") (Some 2048%N) None None
    (Some "processing") (Some "ocr") (Some progress) (Some "ocr").

Definition gone : FetchResult StatusPayload :=
  Response 404 "not found" (MkStatusPayload None None None None None).

Definition loggedOut : FetchResult StatusPayload :=
  Response 401 "" (MkStatusPayload None None None None None).

Definition goneThenLoggedOut (i : nat) : FetchResult StatusPayload :=
  match i with 0%nat => gone | _ => loggedOut end.

Definition goneThenUpdated (i : nat) : FetchResult StatusPayload :=
  match i with
  | 0%nat => gone
  | _ => Response 200 "" (status "processing" 55)
  end.

(** The script starting with two cached records. *)
Definition twoCached : State := initialState [record "A" 10; record "B" 20].

(** Job [J1] active, with its record in the cached list. *)
Definition tracked : State :=
  set_jobId (Some "J1") (initialState [record "J1" 10]).

Definition overshoot (i : nat) : FetchResult StatusPayload :=
  Response 200 "" (status "processing" 150).

(** The button of an attachment, and the responses of one activation. *)
Definition beginButton : Button := MkButton false "Begin Process".

Definition activation : ActivateInputs :=
  MkActivateInputs (fun _ => Response 200 "" (MkSavePayload None None))
    (Response 200 "" (status "processing" 5)) emptyLoad.

(** Job [J1] with page [page_001] open on two rows as rendering leaves
    them. *)
Definition twoRows : list Row :=
  [MkRow (Some "001") (Some "01/02") (Some "Opening") None None (Some "100.00");
   MkRow (Some "002") (Some "01/03") (Some "Rent") (Some "20.00") None
     (Some "80.00")].

Definition editing : State :=
  set_parsedByPage {[ "page_001" := twoRows ]}
    (set_currentPage (Some "page_001")
       (set_pages ["page_001"]
          (set_jobId (Some "J1") (initialState [])))).

Definition saved : FetchResult SavePayload :=
  Response 200 "" (MkSavePayload (Some twoRows) None).

End Sample.

(** More sample inputs. *)
Module Shown.

(** [Sample.editing] with the bounds of its page in the cache. *)
Definition loaded : State :=
  set_boundsByPage {[ "page_001" := [] ]} Sample.editing.

End Shown.
(** * Properties *)

Example format_plain : formatAmountCellValue (Some " 1234567.891 ") = "1,234,567.89".
Proof. vm_compute. reflexivity. Qed.
Example format_paren : formatAmountCellValue (Some "(5)") = "-5.00".
Proof. vm_compute. reflexivity. Qed.
Example format_text : formatAmountCellValue (Some " n/a ") = "n/a".
Proof. vm_compute. reflexivity. Qed.
Example format_half : formatAmountCellValue (Some "0.125") = "0.13".
Proof. vm_compute. reflexivity. Qed.
Example format_negzero : formatAmountCellValue (Some "-0.001") = "-0.00".
Proof. vm_compute. reflexivity. Qed.
Example format_dots : formatAmountCellValue (Some "1.2.3") = "1.20".
Proof. vm_compute. reflexivity. Qed.
Example format_pad : Js.pad3 7 = "007" /\ Js.pad3 1234 = "1234".
Proof. vm_compute. split; reflexivity. Qed.

(** ** Facts about characters and strings *)

Module JsFacts.
Import Js.


Lemma allChars_app p a b :
  allChars p (a +:+ b) = allChars p a && allChars p b.
Proof.
  induction a as [|c a IH]; simpl; [reflexivity|].
  rewrite IH. apply andb_assoc.
Qed.

Lemma allChars_weaken (p q : ascii -> bool) s :
  (forall c, p c = true -> q c = true) ->
  allChars p s = true -> allChars q s = true.
Proof.
  intros Hpq. induction s as [|c s IH]; simpl; [reflexivity|].
  intros [Hc Hs]%andb_true_iff. rewrite (Hpq _ Hc), (IH Hs). reflexivity.
Qed.

Lemma app_assoc_str (a b c : string) : (a +:+ b) +:+ c = a +:+ (b +:+ c).
Proof. induction a as [|x a IH]; simpl; [reflexivity|]. now rewrite IH. Qed.

Lemma keep_app p a b : keep p (a +:+ b) = keep p a +:+ keep p b.
Proof.
  induction a as [|c a IH]; simpl; [reflexivity|].
  destruct (p c); simpl; now rewrite IH.
Qed.

Lemma keep_all p s : allChars p s = true -> keep p s = s.
Proof.
  induction s as [|c s IH]; simpl; [reflexivity|].
  intros [Hc Hs]%andb_true_iff. rewrite Hc, (IH Hs). reflexivity.
Qed.

(** *** Trimming *)


Lemma trimStart_noLead s : noLeadSpace (trimStart s).
Proof.
  induction s as [|c s IH]; simpl; [exact I|].
  destruct (isSpace c) eqn:E; [exact IH | exact E].
Qed.

Lemma trimStart_fixed s : noLeadSpace s -> trimStart s = s.
Proof. destruct s as [|c s]; simpl; [reflexivity|]. now intros ->. Qed.

Lemma trimEnd_noLead s : noLeadSpace s -> noLeadSpace (trimEnd s).
Proof.
  destruct s as [|c s]; simpl; [intros _; exact I|].
  intros Hc. destruct (trimEnd s); simpl; [rewrite Hc|]; exact Hc.
Qed.

Lemma trimEnd_idem s : trimEnd (trimEnd s) = trimEnd s.
Proof.
  induction s as [|c s IH]; simpl; [reflexivity|].
  destruct (trimEnd s) as [|a r] eqn:E.
  - destruct (isSpace c) eqn:Ec; simpl; [reflexivity | now rewrite Ec].
  - change (trimEnd (String c (String a r))) with
      (match trimEnd (String a r) with
       | EmptyString => if isSpace c then EmptyString else String c EmptyString
       | r' => String c r'
       end).
    rewrite IH. reflexivity.
Qed.

Lemma trim_idem s : trim (trim s) = trim s.
Proof.
  unfold trim.
  rewrite (trimStart_fixed (trimEnd (trimStart s))).
  - apply trimEnd_idem.
  - apply trimEnd_noLead, trimStart_noLead.
Qed.

Lemma trimEnd_nospace s :
  allChars (fun c => negb (isSpace c)) s = true -> trimEnd s = s.
Proof.
  induction s as [|c s IH]; simpl; [reflexivity|].
  intros [Hc Hs]%andb_true_iff. rewrite (IH Hs).
  apply negb_true_iff in Hc. rewrite Hc. destruct s; reflexivity.
Qed.

Lemma trim_nospace s :
  allChars (fun c => negb (isSpace c)) s = true -> trim s = s.
Proof.
  intros H. unfold trim. rewrite trimStart_fixed.
  - now apply trimEnd_nospace.
  - destruct s as [|c s]; simpl in *; [exact I|].
    apply andb_true_iff in H as [Hc _]. now apply negb_true_iff.
Qed.

(** *** Digits *)

Lemma digitChar_isDigit d : d < 10 -> isDigit (digitChar d) = true.
Proof.
  intros H.
  assert (d = 0 \/ d = 1 \/ d = 2 \/ d = 3 \/ d = 4 \/ d = 5 \/ d = 6
          \/ d = 7 \/ d = 8 \/ d = 9) as Hd by lia.
  repeat (destruct Hd as [-> | Hd]; [reflexivity|]). now subst.
Qed.

Lemma digitVal_digitChar d : d < 10 -> digitVal (digitChar d) = d.
Proof.
  intros H.
  assert (d = 0 \/ d = 1 \/ d = 2 \/ d = 3 \/ d = 4 \/ d = 5 \/ d = 6
          \/ d = 7 \/ d = 8 \/ d = 9) as Hd by lia.
  repeat (destruct Hd as [-> | Hd]; [reflexivity|]). now subst.
Qed.

Lemma mod10_lt n : n mod 10 < 10.
Proof. apply N.mod_lt. discriminate. Qed.

Lemma digitsFuel_allDigits f n : allChars isDigit (digitsFuel f n) = true.
Proof.
  revert n. induction f as [|f IH]; intros n; simpl; [reflexivity|].
  rewrite allChars_app. simpl.
  rewrite (digitChar_isDigit _ (mod10_lt n)).
  destruct (n <? 10); simpl; [reflexivity|]. now rewrite IH.
Qed.

Lemma digitsOf_allDigits n : allChars isDigit (digitsOf n) = true.
Proof. apply digitsFuel_allDigits. Qed.

Lemma digitsOf_cons n : exists c r, digitsOf n = String c r.
Proof.
  unfold digitsOf. simpl.
  destruct (if n <? 10 then EmptyString else _) as [|c r]; simpl; eauto.
Qed.

End JsFacts.

(** ** Facts about the numbers of the amount code *)

Module NumFacts.
Import Js JsFacts Num.

Lemma length_app_str (a b : string) :
  String.length (a +:+ b) = (String.length a + String.length b)%nat.
Proof. induction a as [|c a IH]; simpl; [reflexivity|]. now rewrite IH. Qed.

Lemma scan_stop acc cnt c rest :
  isDigit c = false ->
  scanDigits acc cnt (String c rest) = (acc, cnt, String c rest).
Proof. intros H. simpl. now rewrite H. Qed.

Lemma scan_digit acc cnt d rest :
  d < 10 ->
  scanDigits acc cnt (String (digitChar d) rest)
  = scanDigits (acc * 10 + d) (S cnt) rest.
Proof.
  intros H. simpl.
  now rewrite (digitChar_isDigit d H), (digitVal_digitChar d H).
Qed.

Lemma div10_mod10 n : n / 10 * 10 + n mod 10 = n.
Proof. rewrite N.mul_comm. symmetry. apply N.div_mod. discriminate. Qed.

Lemma scan_digitsFuel f : forall n cnt rest,
  n < 10 ^ N.of_nat f ->
  scanDigits 0 cnt (digitsFuel f n +:+ rest)
  = scanDigits n (cnt + String.length (digitsFuel f n)) rest.
Proof.
  induction f as [|f IH]; intros n cnt rest Hn.
  - simpl in *. assert (n = 0) as -> by lia. now rewrite Nat.add_0_r.
  - cbn [digitsFuel]. destruct (n <? 10) eqn:E.
    + apply N.ltb_lt in E. cbn [String.append String.length].
      rewrite (scan_digit 0 cnt (n mod 10) rest (mod10_lt n)).
      rewrite (N.mod_small n 10 E), Nat.add_1_r. reflexivity.
    + apply N.ltb_ge in E.
      rewrite app_assoc_str, IH.
      * cbn [String.append].
        rewrite (scan_digit _ _ _ _ (mod10_lt n)), div10_mod10.
        rewrite length_app_str. cbn [String.length].
        now rewrite Nat.add_1_r, Nat.add_succ_r.
      * rewrite Nat2N.inj_succ, N.pow_succ_r' in Hn.
        apply N.Div0.div_lt_upper_bound. lia.
Qed.

Lemma digitsOf_fuel n : n < 10 ^ N.of_nat (S (N.to_nat (N.log2 n))).
Proof.
  rewrite Nat2N.inj_succ, N2Nat.id.
  destruct (N.eq_dec n 0) as [-> | Hn]; [reflexivity|].
  apply N.lt_le_trans with (2 ^ N.succ (N.log2 n)).
  - apply N.log2_spec. lia.
  - apply N.pow_le_mono_l. lia.
Qed.

Lemma scan_digitsOf n cnt rest :
  scanDigits 0 cnt (digitsOf n +:+ rest)
  = scanDigits n (cnt + String.length (digitsOf n)) rest.
Proof. apply scan_digitsFuel, digitsOf_fuel. Qed.

Lemma digitsOf_length n : (1 <= String.length (digitsOf n))%nat.
Proof. destruct (digitsOf_cons n) as (c & r & ->). simpl. lia. Qed.

(** *** Grouping and cleaning *)

Lemma keep_group3 p s :
  p ","%char = false -> allChars p s = true -> keep p (group3 s) = s.
Proof.
  intros Hcomma. induction s as [|c s IH]; [reflexivity|].
  cbn [group3 allChars keep]. intros [Hc Hs]%andb_true_iff. rewrite Hc.
  destruct ((0 <? String.length s)%nat && (String.length s mod 3 =? 0)%nat);
    cbn [keep]; rewrite ?Hcomma, (IH Hs); reflexivity.
Qed.

Lemma group3_chars (p : ascii -> bool) s :
  p ","%char = true -> allChars p s = true -> allChars p (group3 s) = true.
Proof.
  intros Hcomma. induction s as [|c s IH]; [reflexivity|].
  cbn [group3 allChars]. intros [Hc Hs]%andb_true_iff. rewrite Hc.
  destruct ((0 <? String.length s)%nat && (String.length s mod 3 =? 0)%nat);
    cbn [allChars]; rewrite ?Hcomma, (IH Hs); reflexivity.
Qed.

Lemma group3_cons c s : exists r, group3 (String c s) = String c r.
Proof. simpl. eauto. Qed.

End NumFacts.

(** ** The canonical amount strings *)

Module AmountFacts.
Import Js JsFacts Num NumFacts.





Lemma toLocale2_canon d : toLocale2 d = canon (neg d) (cents d).
Proof. reflexivity. Qed.

Lemma digit_not_space c : isDigit c = true -> negb (isSpace c) = true.
Proof.
  destruct c as [[|] [|] [|] [|] [|] [|] [|] [|]];
    vm_compute; congruence.
Qed.

Lemma digit_amountChar c : isDigit c = true -> isAmountChar c = true.
Proof. intros H. unfold isAmountChar. now rewrite H. Qed.

Lemma digit_not_comma c :
  isDigit c = true -> negb (Ascii.eqb c ","%char) = true.
Proof.
  destruct c as [[|] [|] [|] [|] [|] [|] [|] [|]];
    vm_compute; congruence.
Qed.

Lemma splitSign_digit c r :
  isDigit c = true -> splitSign (String c r) = (false, String c r).
Proof.
  destruct c as [[|] [|] [|] [|] [|] [|] [|] [|]];
    vm_compute; congruence.
Qed.

Lemma prefix_Infinity_digit c r :
  isDigit c = true -> String.prefix "Infinity" (String c r) = false.
Proof.
  destruct c as [[|] [|] [|] [|] [|] [|] [|] [|]];
    vm_compute; congruence.
Qed.

Lemma startsWith_paren_digit c r :
  isDigit c = true -> startsWith "("%char (String c r) = false.
Proof.
  destruct c as [[|] [|] [|] [|] [|] [|] [|] [|]];
    vm_compute; congruence.
Qed.

Lemma fracStr_digits c :
  allChars isDigit (String (digitChar (c / 10 mod 10))
                      (String (digitChar (c mod 10)) EmptyString)) = true.
Proof.
  simpl. now rewrite !digitChar_isDigit by apply mod10_lt.
Qed.

Lemma canon_chars (p : ascii -> bool) sgn c :
  p "-"%char = true -> p ","%char = true -> p "."%char = true ->
  (forall x, isDigit x = true -> p x = true) ->
  allChars p (canon sgn c) = true.
Proof.
  intros Hm Hc Hd Hp. unfold canon, fracStr.
  rewrite !allChars_app. cbn [allChars].
  rewrite Hd, group3_chars; [| exact Hc
    | exact (allChars_weaken _ _ _ Hp (digitsOf_allDigits _))].
  rewrite !Hp by (apply digitChar_isDigit, mod10_lt).
  destruct sgn; simpl; now rewrite ?Hm.
Qed.

Lemma trim_canon sgn c : trim (canon sgn c) = canon sgn c.
Proof.
  apply trim_nospace, canon_chars; try reflexivity. apply digit_not_space.
Qed.

Lemma canon_cons sgn c : exists x r, canon sgn c = String x r.
Proof.
  unfold canon. destruct sgn; simpl; [eauto|].
  destruct (digitsOf_cons (c / 100)) as (x & r & ->).
  destruct (group3_cons x r) as (r' & ->). simpl. eauto.
Qed.

Lemma clean_canon sgn c :
  keep isAmountChar (keep (fun x => negb (Ascii.eqb x ","%char)) (canon sgn c))
  = plain sgn c.
Proof.
  unfold canon, plain, fracStr. rewrite !keep_app.
  rewrite (keep_group3 _ (digitsOf (c / 100)) eq_refl
             (allChars_weaken _ _ _ digit_not_comma (digitsOf_allDigits _))).
  rewrite (keep_all _ (digitsOf (c / 100))
             (allChars_weaken _ _ _ digit_amountChar (digitsOf_allDigits _))).
  f_equal; [destruct sgn; reflexivity|]. f_equal.
  pose proof (fracStr_digits c) as H.
  cbn [keep]. cbn [allChars] in H.
  apply andb_true_iff in H as [H1 H2]. apply andb_true_iff in H2 as [H2 _].
  rewrite !(digit_not_comma _ H1), !(digit_not_comma _ H2).
  cbn [keep isAmountChar]. simpl.
  unfold isAmountChar. rewrite H1, H2. reflexivity.
Qed.

Lemma cents_digits c :
  (c / 100 * 10 + c / 10 mod 10) * 10 + c mod 10 = c.
Proof.
  pose proof (N.div_mod c 10 ltac:(discriminate)) as H1.
  pose proof (N.div_mod (c / 10) 10 ltac:(discriminate)) as H2.
  rewrite N.Div0.div_div in H2. change (10 * 10) with 100 in H2.
  lia.
Qed.

Lemma parseFloat_plain sgn c :
  parseFloat (plain sgn c) = ofDecimal sgn c (-2).
Proof.
  unfold parseFloat.
  destruct (digitsOf_cons (c / 100)) as (x & r & Hx).
  pose proof (digitsOf_allDigits (c / 100)) as Hall.
  rewrite Hx in Hall. cbn [allChars] in Hall.
  apply andb_true_iff in Hall as [Hxd _].
  assert (trimStart (plain sgn c) = plain sgn c) as ->.
  { apply trimStart_fixed. unfold plain. rewrite Hx.
    destruct sgn; simpl; [reflexivity|].
    apply negb_true_iff, digit_not_space, Hxd. }
  assert (splitSign (plain sgn c)
          = (sgn, digitsOf (c / 100) +:+ fracStr c)) as ->.
  { unfold plain. destruct sgn; [reflexivity|].
    cbn [signStr String.append]. rewrite Hx. cbn [String.append].
    apply splitSign_digit, Hxd. }
  assert (String.prefix "Infinity" (digitsOf (c / 100) +:+ fracStr c) = false)
    as ->.
  { rewrite Hx. cbn [String.append]. apply prefix_Infinity_digit, Hxd. }
  rewrite scan_digitsOf. unfold fracStr.
  rewrite scan_stop by reflexivity.
  rewrite !scan_digit by apply mod10_lt.
  cbn [scanDigits scanExponent].
  rewrite cents_digits.
  pose proof (digitsOf_length (c / 100)) as Hlen.
  destruct (0 + String.length (digitsOf (c / 100)) + 2)%nat eqn:E; [lia|].
  reflexivity.
Qed.

Lemma startsWith_paren_canon sgn c :
  startsWith "("%char (canon sgn c) = false.
Proof.
  unfold canon. destruct sgn; [reflexivity|].
  cbn [signStr String.append].
  destruct (digitsOf_cons (c / 100)) as (x & r & Hx).
  pose proof (digitsOf_allDigits (c / 100)) as Hall.
  rewrite Hx in Hall |- *. cbn [allChars] in Hall.
  apply andb_true_iff in Hall as [Hxd _].
  destruct (group3_cons x r) as (r' & ->). cbn [String.append].
  apply startsWith_paren_digit, Hxd.
Qed.

Lemma digit_first_tests x r :
  isDigit x = true ->
  String.eqb (String x r) "-" = false /\
  String.eqb (String x r) "." = false /\
  String.eqb (String "-"%char (String x r)) "-." = false.
Proof.
  destruct x as [[|] [|] [|] [|] [|] [|] [|] [|]];
    vm_compute; try congruence; intros _; repeat split; reflexivity.
Qed.

Lemma plain_nontrivial sgn c :
  negb (truthy (plain sgn c)) || String.eqb (plain sgn c) "-"
  || String.eqb (plain sgn c) "." || String.eqb (plain sgn c) "-." = false.
Proof.
  unfold plain.
  destruct (digitsOf_cons (c / 100)) as (x & r & Hx).
  pose proof (digitsOf_allDigits (c / 100)) as Hall.
  rewrite Hx in Hall |- *. cbn [allChars] in Hall.
  apply andb_true_iff in Hall as [Hxd _].
  cbn [String.append].
  destruct (digit_first_tests x (r +:+ fracStr c) Hxd) as (H1 & H2 & H3).
  destruct sgn; cbn [signStr String.append truthy negb orb].
  - rewrite H3. reflexivity.
  - rewrite H1, H2. cbn [orb].
    destruct x as [[|] [|] [|] [|] [|] [|] [|] [|]];
      vm_compute in Hxd |- *; congruence.
Qed.

Lemma underflows_cents c : c <> 0 -> underflows c (-2) = false.
Proof.
  intros Hc. unfold underflows. cbn [Z.leb Z.compare].
  apply N.leb_gt.
  assert (pow10 (- -2) < underflowDen) as Hu by (vm_compute; reflexivity).
  revert Hu. generalize (pow10 (- -2)) underflowDen. intros a b Hab. nia.
Qed.

Lemma cents_exact sgn c : cents (Dec sgn c (-2)) = c.
Proof. unfold cents. cbn. apply N.mul_1_r. Qed.

(** A canonical amount string is a fixed point of the normalisation. *)
Lemma format_canon sgn c :
  formatAmountCellValue (Some (canon sgn c)) = canon sgn c.
Proof.
  unfold formatAmountCellValue, parseAmountForFormatting.
  cbn [normalizeEditableCellValue]. rewrite !trim_canon.
  destruct (canon_cons sgn c) as (x & r & Hx).
  assert (truthy (canon sgn c) = true) as -> by now rewrite Hx.
  cbn [negb]. rewrite startsWith_paren_canon, clean_canon, plain_nontrivial.
  cbn [andb]. rewrite parseFloat_plain. unfold ofDecimal.
  destruct (c =? 0) eqn:E0.
  - apply N.eqb_eq in E0. subst c. reflexivity.
  - apply N.eqb_neq in E0. destruct (overflows c (-2)); [reflexivity|].
    rewrite (underflows_cents c E0), toLocale2_canon, cents_exact.
    reflexivity.
Qed.

Lemma format_unparsed v :
  truthy (trim v) = true ->
  parseAmountForFormatting (Some (trim v)) = None ->
  formatAmountCellValue (Some (trim v)) = trim v.
Proof.
  intros Ht Hp. unfold formatAmountCellValue.
  cbn [normalizeEditableCellValue]. rewrite trim_idem, Ht, Hp. reflexivity.
Qed.

End AmountFacts.

(** ** Amount normalisation *)

(** The three outcomes of [formatAmountCellValue] on a string. *)
Lemma formatAmountCellValue_cases (v : string) :
  formatAmountCellValue (Some v) = ""
  \/ (Js.truthy (Js.trim v) = true
      /\ parseAmountForFormatting (Some (Js.trim v)) = None
      /\ formatAmountCellValue (Some v) = Js.trim v)
  \/ (exists d, parseAmountForFormatting (Some (Js.trim v)) = Some d
                /\ formatAmountCellValue (Some v) = Num.toLocale2 d).
Proof.
  unfold formatAmountCellValue. cbn [normalizeEditableCellValue].
  destruct (Js.truthy (Js.trim v)) eqn:Et; cbn [negb]; [|now left].
  destruct (parseAmountForFormatting (Some (Js.trim v))) as [d|] eqn:Ep.
  - right. right. exists d. split; reflexivity.
  - right. left. repeat split; reflexivity.
Qed.


(** ** The balance-mismatch checker *)

Module CheckerFacts.







End CheckerFacts.



Example checker_consistent :
  computeBalanceMismatchRowIds
    [Sample.ledgerRow "001" None None (Some "100");
     Sample.ledgerRow "002" (Some "20") (Some "0") (Some "80");
     Sample.ledgerRow "003" (Some "0") (Some "5") (Some "85")] = ∅.
Proof. vm_compute. reflexivity. Qed.

Example checker_flags_third :
  computeBalanceMismatchRowIds
    [Sample.ledgerRow "001" None None (Some "100");
     Sample.ledgerRow "002" (Some "20") (Some "0") (Some "80");
     Sample.ledgerRow "003" (Some "0") (Some "5") (Some "90")] = {[ "003" ]}.
Proof. vm_compute. reflexivity. Qed.


(** Reduction of the field updates under the projections. *)
Ltac st_simpl :=
  cbn [set_jobId set_pages set_parsedByPage set_boundsByPage
    set_openaiRawByPage set_currentPage set_selectedRowId set_pollTimer
    set_uploadedJobs set_totalParsedRows set_isCompleted set_crmProcessByAttachment
    set_crmStatusTimer set_pageSaveTimers set_pageSaveTokenByPage set_parsedPanelMode
    set_currentParseMode set_dom_jobStatus set_dom_jobStep set_dom_jobProgress
    set_now set_timerSeq jobId pages
    parsedByPage boundsByPage openaiRawByPage currentPage
    selectedRowId pollTimer uploadedJobs totalParsedRows
    isCompleted crmProcessByAttachment crmStatusTimer pageSaveTimers
    pageSaveTokenByPage parsedPanelMode currentParseMode dom_jobStatus
    dom_jobStep dom_jobProgress now timerSeq] in *.

Ltac st_simpl_goal :=
  cbn [set_jobId set_pages set_parsedByPage set_boundsByPage
    set_openaiRawByPage set_currentPage set_selectedRowId set_pollTimer
    set_uploadedJobs set_totalParsedRows set_isCompleted set_crmProcessByAttachment
    set_crmStatusTimer set_pageSaveTimers set_pageSaveTokenByPage set_parsedPanelMode
    set_currentParseMode set_dom_jobStatus set_dom_jobStep set_dom_jobProgress
    set_now set_timerSeq jobId pages
    parsedByPage boundsByPage openaiRawByPage currentPage
    selectedRowId pollTimer uploadedJobs totalParsedRows
    isCompleted crmProcessByAttachment crmStatusTimer pageSaveTimers
    pageSaveTokenByPage parsedPanelMode currentParseMode dom_jobStatus
    dom_jobStep dom_jobProgress now timerSeq].

Ltac step_simpl :=
  unfold mbind, M_bind, bind, mret, M_ret, ret, gets, modify, emit, throw,
    tryCatch, when, stateAfter, effectsOf, outcomeOf in *;
  cbn beta iota zeta in *.

(** ** The save controller *)

Module SaveFacts.

Lemma api_cases {A : Type} (res : FetchResult A) (s : State) :
  (exists json, api res s = (Resolved json, s, []))
  \/ (exists msg es, api res s = (Rejected msg, s, es)).
Proof.
  destruct res as [msg | status text json]; simpl.
  - right. eexists _, _. reflexivity.
  - destruct (status =? 401)%nat.
    + right. eexists _, _. reflexivity.
    + destruct (negb (isOk status)).
      * right. eexists _, _. reflexivity.
      * left. eexists. reflexivity.
Qed.

Lemma api_ok {A : Type} status text (json : A) (s : State) :
  isOk status = true -> api (Response status text json) s = (Resolved json, s, []).
Proof.
  intros Hok. simpl.
  destruct (status =? 401)%nat eqn:E.
  - apply Nat.eqb_eq in E. subst. discriminate.
  - rewrite Hok. reflexivity.
Qed.

Lemma renderRows_tokens s :
  pageSaveTokenByPage (renderRows s) = pageSaveTokenByPage s.
Proof.
  unfold renderRows, recomputeTotalParsedRows.
  repeat case_match; reflexivity.
Qed.

Lemma applySaveResponse_tokens p payload s :
  pageSaveTokenByPage (applySaveResponse p payload s) = pageSaveTokenByPage s.
Proof.
  unfold applySaveResponse, recomputeTotalParsedRows, clearStaleSelection,
    reconcileRows.
  repeat case_match; cbn; rewrite ?renderRows_tokens; reflexivity.
Qed.



Lemma persistResume_current page t status text payload s :
  isOk status = true ->
  pageSaveTokenByPage s !! Js.trim page = Some t ->
  stateAfter (persistResume page t (Response status text payload) s)
  = applySaveResponse (Js.trim page) payload s.
Proof.
  intros Hok Ht. unfold persistResume. step_simpl.
  rewrite (api_ok _ _ _ _ Hok).
  destruct (decide _) as [E|E]; [reflexivity | contradiction].
Qed.


End SaveFacts.




Module DebounceFacts.

Lemma savesSent_app page es1 es2 :
  savesSent page (es1 ++ es2) = (savesSent page es1 + savesSent page es2)%nat.
Proof. unfold savesSent. now rewrite List.filter_app, length_app. Qed.

Lemma truthyO_Some job : Js.truthy job = true -> truthyO (Some job) = true.
Proof. intros H. exact H. Qed.

(** What a call of [queuePageRowsSave] leaves. *)
Lemma queue_spec page job s :
  jobId s = Some job -> Js.truthy job = true ->
  Js.trim page = page -> Js.truthy page = true ->
  let s' := queuePageRowsSave page s in
  pageSaveTimers s' !! page = Some (now s + ROW_SAVE_DEBOUNCE_MS)%nat
  /\ jobId s' = jobId s /\ now s' = now s
  /\ parsedByPage s' = parsedByPage s.
Proof.
  intros Hj Hjt Hp Hpt. unfold queuePageRowsSave.
  rewrite Hp, Hpt, Hj. cbn [truthyO]. rewrite Hjt. cbn.
  rewrite lookup_insert_eq. repeat split; assumption || reflexivity.
Qed.

(** The timer does not fire before its time. *)
Lemma runSaveTimer_idle page t s :
  saveTimerDue page (advanceTo t s) = false ->
  runSaveTimer page t s = (Resolved tt, advanceTo t s, []).
Proof.
  intros H. unfold runSaveTimer. step_simpl. now rewrite H.
Qed.

(** When it fires, one save request goes out and the timer is gone. *)
Lemma runSaveTimer_fires page job t s :
  jobId s = Some job -> Js.truthy job = true ->
  Js.trim page = page -> Js.truthy page = true ->
  saveTimerDue page (advanceTo t s) = true ->
  let r := runSaveTimer page t s in
  effectsOf r
  = [Sent (PutParsed job page
             (imap payloadRow (default [] (parsedByPage s !! page))))]
  /\ pageSaveTimers (stateAfter r) !! page = None
  /\ jobId (stateAfter r) = jobId s
  /\ now (stateAfter r) = Nat.max (now s) t
  /\ parsedByPage (stateAfter r) = parsedByPage s.
Proof.
  intros Hj Hjt Hp Hpt Hdue. unfold runSaveTimer, saveTimerFires, persistBegin.
  step_simpl. rewrite Hdue. cbn. rewrite Hj, Hp, Hpt. cbn [truthyO].
  rewrite Hjt. cbn. unfold Js.orElse. rewrite Hjt.
  rewrite lookup_delete_eq. repeat split; congruence.
Qed.

(** After a call at time [tprev], a burst of calls that each come within
    the window of the one before sends nothing and leaves the timer set from
    the last call. *)
Lemma burst_pending page job : forall times s tprev,
  jobId s = Some job -> Js.truthy job = true ->
  Js.trim page = page -> Js.truthy page = true ->
  now s = tprev ->
  pageSaveTimers s !! page = Some (tprev + ROW_SAVE_DEBOUNCE_MS)%nat ->
  withinWindow tprev times = true ->
  let r := queueBurst page times s in
  outcomeOf r = Resolved tt
  /\ effectsOf r = []
  /\ jobId (stateAfter r) = Some job
  /\ now (stateAfter r) = lastTime tprev times
  /\ pageSaveTimers (stateAfter r) !! page
     = Some (lastTime tprev times + ROW_SAVE_DEBOUNCE_MS)%nat
  /\ parsedByPage (stateAfter r) = parsedByPage s.
Proof.
  induction times as [|t rest IH]; intros s tprev Hj Hjt Hp Hpt Hnow Htm Hw.
  - cbn. repeat split; assumption.
  - cbn [withinWindow] in Hw.
    apply andb_true_iff in Hw as [Hw Hrest].
    apply andb_true_iff in Hw as [Hle Hlt].
    apply Nat.leb_le in Hle. apply Nat.ltb_lt in Hlt.
    assert (saveTimerDue page (advanceTo t s) = false) as Hidle.
    { unfold saveTimerDue, advanceTo. cbn. rewrite Htm.
      apply Nat.leb_gt. lia. }
    set (s1 := queuePageRowsSave page (advanceTo t s)).
    assert (jobId (advanceTo t s) = Some job) as Hj1 by exact Hj.
    destruct (queue_spec page job (advanceTo t s) Hj1 Hjt Hp Hpt)
      as (Ht1 & Hjq & Hnq & Hpq).
    fold s1 in Ht1, Hjq, Hnq, Hpq.
    assert (now (advanceTo t s) = t) as Hnt by (cbn; lia).
    rewrite Hnt in Ht1, Hnq. rewrite Hj1 in Hjq.
    destruct (IH s1 t Hjq Hjt Hp Hpt Hnq Ht1 Hrest)
      as (Ho & He & Hjr & Hnr & Htr & Hpr).
    assert (queueBurst page (t :: rest) s
            = queueBurst page rest s1) as ->.
    { cbn [queueBurst]. unfold mbind, M_bind, bind at 1.
      rewrite (runSaveTimer_idle page t s Hidle).
      unfold bind at 1, modify. fold s1.
      destruct (queueBurst page rest s1) as [[o s2] e2]. reflexivity. }
    rewrite Hpq in Hpr.
    cbn [lastTime]. repeat split; assumption.
Qed.

End DebounceFacts.

(** C4. Queueing a save of a page sets the page's timer 220 ms ahead, and a
    further call within the window replaces that timer: [N >= 1] calls for
    one page, each less than 220 ms after the one before, leave one timer
    set 220 ms after the last of them and send nothing; at any time before
    it is due no save request has gone out, and once it is due exactly one
    has. *)
Theorem debounce_coalesces_saves
    (s : State) (page job : string) (t0 : nat) (times : list nat) :
  jobId s = Some job -> Js.truthy job = true ->
  Js.trim page = page -> Js.truthy page = true ->
  pageSaveTimers s !! page = None ->
  (now s <= t0)%nat ->
  withinWindow t0 times = true ->
  let burst := queueBurst page (t0 :: times) in
  let tN := lastTime t0 times in
  pageSaveTimers (stateAfter (burst s)) !! page
  = Some (tN + ROW_SAVE_DEBOUNCE_MS)%nat
  /\ effectsOf (burst s) = []
  /\ (forall T, (T < tN + ROW_SAVE_DEBOUNCE_MS)%nat ->
        savesSent page (effectsOf ((burst;; runSaveTimer page T) s)) = 0%nat)
  /\ (forall T, (tN + ROW_SAVE_DEBOUNCE_MS <= T)%nat ->
        savesSent page (effectsOf ((burst;; runSaveTimer page T) s)) = 1%nat).
Proof.
  intros Hj Hjt Hp Hpt Hnone Hnow Hw burst tN.
  assert (saveTimerDue page (advanceTo t0 s) = false) as Hidle.
  { unfold saveTimerDue, advanceTo. cbn. now rewrite Hnone. }
  set (s1 := queuePageRowsSave page (advanceTo t0 s)).
  assert (jobId (advanceTo t0 s) = Some job) as Hj1 by exact Hj.
  destruct (DebounceFacts.queue_spec page job (advanceTo t0 s) Hj1 Hjt Hp Hpt)
    as (Ht1 & Hjq & Hnq & Hpq).
  fold s1 in Ht1, Hjq, Hnq, Hpq.
  assert (now (advanceTo t0 s) = t0) as Hnt by (cbn; lia).
  rewrite Hnt in Ht1, Hnq. rewrite Hj1 in Hjq.
  destruct (DebounceFacts.burst_pending page job times s1 t0
              Hjq Hjt Hp Hpt Hnq Ht1 Hw)
    as (Ho & He & Hjr & Hnr & Htr & Hpr).
  assert (burst s = queueBurst page times s1) as Hburst.
  { unfold burst. cbn [queueBurst]. unfold mbind, M_bind, bind at 1.
    rewrite (DebounceFacts.runSaveTimer_idle page t0 s Hidle).
    unfold bind at 1, modify. fold s1.
    destruct (queueBurst page times s1) as [[o s2] e2]. reflexivity. }
  rewrite Hburst. fold tN in Hnr, Htr.
  assert (forall T,
    effectsOf ((burst;; runSaveTimer page T) s)
    = effectsOf (runSaveTimer page T (stateAfter (queueBurst page times s1))))
    as Hrun.
  { intros T. unfold mbind, M_bind, bind at 1. rewrite Hburst.
    destruct (queueBurst page times s1) as [[o' s2] e2] eqn:Eq.
    cbn in Ho, He. subst o' e2. cbn.
    destruct (runSaveTimer page T s2) as [[o3 s3] e3]. reflexivity. }
  split; [exact Htr|]. split; [exact He|]. split.
  - intros T HT. rewrite Hrun, DebounceFacts.runSaveTimer_idle; [reflexivity|].
    unfold saveTimerDue, advanceTo. cbn. rewrite Htr, Hnr.
    apply Nat.leb_gt. unfold ROW_SAVE_DEBOUNCE_MS in *. lia.
  - intros T HT. rewrite Hrun.
    destruct (DebounceFacts.runSaveTimer_fires page job T
                (stateAfter (queueBurst page times s1)) Hjr Hjt Hp Hpt)
      as (Hfx & _).
    { unfold saveTimerDue, advanceTo. cbn. rewrite Htr, Hnr.
      apply Nat.leb_le. unfold ROW_SAVE_DEBOUNCE_MS in *. lia. }
    rewrite Hfx. unfold savesSent. cbn. now rewrite String.eqb_refl.
Qed.

(** The theorem at work: three edits of [page_001] at 10, 50 and 120 ms
    send one save, when the timer set by the last one fires at 340 ms. *)
Lemma debounce_coalesces_saves_witness :
  withinWindow 10 [50; 120]%nat = true
  /\ savesSent "page_001"
       (effectsOf
          ((queueBurst "page_001" [10; 50; 120]%nat;;
            runSaveTimer "page_001" 339) Sample.editing)) = 0%nat
  /\ savesSent "page_001"
       (effectsOf
          ((queueBurst "page_001" [10; 50; 120]%nat;;
            runSaveTimer "page_001" 340) Sample.editing)) = 1%nat.
Proof.
  split; [reflexivity|].
  destruct (debounce_coalesces_saves Sample.editing "page_001" "J1" 10
              [50; 120]%nat eq_refl eq_refl eq_refl eq_refl eq_refl
              ltac:(vm_compute; lia) eq_refl) as (_ & _ & Hbefore & Hafter).
  split; [apply Hbefore | apply Hafter]; vm_compute; lia.
Defined.


Module ReverseFacts.



Lemma withRowId_rendered i r : hasRenderedId r -> withRowId i r = r.
Proof.
  intros (id & Hid & Htrim & Hne). destruct r as [rid d de db cr ba].
  cbn in Hid. subst rid. unfold withRowId, rowIdAt.
  cbn [row_id date description debit credit balance strOr].
  assert (Js.truthy id = true) as Ht by (destruct id; [congruence|reflexivity]).
  unfold Js.orElse. rewrite Ht, Htrim, Ht. reflexivity.
Qed.

Lemma imap_rendered (g : nat -> Row -> Row) (l : list Row) :
  (forall i r, hasRenderedId r -> g i r = r) ->
  Forall hasRenderedId l -> imap g l = l.
Proof.
  revert g. induction l as [|r l IH]; intros g Hg Hall; [reflexivity|].
  inversion Hall; subst. cbn. rewrite Hg by assumption. f_equal.
  apply IH; [|assumption]. intros i r'. apply Hg.
Qed.


Lemma modify_then {A : Type} (f : State -> State) (k : M A) s :
  (modify f;; k) s = k (f s).
Proof.
  unfold mbind, M_bind, bind, modify.
  destruct (k (f s)) as [[o s2] e2]. reflexivity.
Qed.




End ReverseFacts.




(** ** Invariants of steps *)

Section KeepsRules.
Variable I : State -> Prop.
Variable E : Effect -> Prop.

Lemma keeps_ret {A : Type} (a : A) : Keeps I E (mret a).
Proof. intros s H. split; [exact H | constructor]. Qed.

Lemma keeps_throw {A : Type} msg : Keeps I E (@throw A msg).
Proof. intros s H. split; [exact H | constructor]. Qed.

Lemma keeps_gets {A : Type} (f : State -> A) : Keeps I E (gets f).
Proof. intros s H. split; [exact H | constructor]. Qed.

Lemma keeps_emit e : E e -> Keeps I E (emit e).
Proof. intros He s H. split; [exact H | repeat constructor; exact He]. Qed.

Lemma keeps_modify f : (forall s, I s -> I (f s)) -> Keeps I E (modify f).
Proof. intros Hf s H. split; [exact (Hf s H) | constructor]. Qed.

Lemma keeps_bind {A B : Type} (m : M A) (k : A -> M B) :
  Keeps I E m -> (forall a, Keeps I E (k a)) -> Keeps I E (m ≫= k).
Proof.
  intros Hm Hk s H. destruct (Hm s H) as [H1 E1].
  unfold mbind, M_bind, bind, stateAfter, effectsOf in *.
  destruct (m s) as [[[a|msg] s1] e1]; cbn in *; [|split; assumption].
  destruct (Hk a s1 H1) as [H2 E2].
  unfold stateAfter, effectsOf in *.
  destruct (k a s1) as [[r s2] e2]. cbn in *.
  split; [exact H2 | now apply Forall_app].
Qed.

Lemma keeps_bind_gets {A B : Type} (f : State -> A) (k : A -> M B) :
  (forall a, (exists s, I s /\ f s = a) -> Keeps I E (k a)) ->
  Keeps I E (gets f ≫= k).
Proof.
  intros Hk s H.
  assert (Keeps I E (k (f s))) as Hks by (apply Hk; eauto).
  destruct (Hks s H) as [H2 E2].
  unfold mbind, M_bind, bind, gets, stateAfter, effectsOf in *.
  destruct (k (f s) s) as [[r s2] e2]. cbn in *. split; assumption.
Qed.

Lemma keeps_tryCatch {A : Type} (m : M A) (h : string -> M A) :
  Keeps I E m -> (forall msg, Keeps I E (h msg)) -> Keeps I E (tryCatch m h).
Proof.
  intros Hm Hh s H. destruct (Hm s H) as [H1 E1].
  unfold tryCatch, stateAfter, effectsOf in *.
  destruct (m s) as [[[a|msg] s1] e1]; cbn in *; [split; assumption|].
  destruct (Hh msg s1 H1) as [H2 E2].
  unfold stateAfter, effectsOf in *.
  destruct (h msg s1) as [[r s2] e2]. cbn in *.
  split; [exact H2 | now apply Forall_app].
Qed.

Lemma keeps_settle {A : Type} (m : M A) : Keeps I E m -> Keeps I E (settle m).
Proof.
  intros Hm s H. destruct (Hm s H) as [H1 E1].
  unfold settle, stateAfter, effectsOf in *.
  destruct (m s) as [[r s1] e1]. cbn in *. split; assumption.
Qed.

Lemma keeps_when b m : Keeps I E m -> Keeps I E (when b m).
Proof. intros Hm. destruct b; [exact Hm | apply keeps_ret]. Qed.

Lemma keeps_api {A : Type} (res : FetchResult A) :
  E (Redirect "/login") -> Keeps I E (api res).
Proof.
  intros He. destruct res as [msg | status text json]; cbn.
  - apply keeps_throw.
  - destruct (status =? 401)%nat.
    + apply keeps_bind; [apply keeps_emit, He | intros _; apply keeps_throw].
    + destruct (negb (isOk status)); [apply keeps_throw | apply keeps_ret].
Qed.

Lemma keeps_forEach {A : Type} (f : A -> M unit) (l : list A) :
  (forall x, Keeps I E (f x)) -> Keeps I E (forEach f l).
Proof.
  intros Hf. induction l as [|x l IH]; cbn; [apply keeps_ret|].
  apply keeps_bind; [apply Hf | intros _; exact IH].
Qed.

Lemma keeps_mapM {A B : Type} (f : A -> M B) (l : list A) :
  (forall x, Keeps I E (f x)) -> Keeps I E (mapM f l).
Proof.
  intros Hf. induction l as [|x l IH]; cbn; [apply keeps_ret|].
  apply keeps_bind; [apply Hf | intros y].
  apply keeps_bind; [exact IH | intros ys; apply keeps_ret].
Qed.

End KeepsRules.

Ltac keeps_step :=
  lazymatch goal with
  | |- Keeps _ _ _ =>
      first
        [ apply keeps_ret | apply keeps_throw
        | apply keeps_emit
        | apply keeps_api
        | apply keeps_settle
        | apply keeps_when
        | apply keeps_modify; intros ? ?
        | apply keeps_forEach; intros ?
        | apply keeps_mapM; intros ?
        | apply keeps_tryCatch; [| intros ?]
        | apply keeps_bind_gets; intros ? (? & ? & ?)
        | apply keeps_gets
        | apply keeps_bind; [| intros ?]
        | match goal with
          | |- Keeps _ _ (if ?b then _ else _) => destruct b eqn:?
          | |- Keeps _ _ (match ?x with _ => _ end) => destruct x eqn:?
          | |- Keeps _ _ ((match ?x with _ => _ end) _) => destruct x eqn:?
          | |- Keeps _ _ (let '(_, _) := ?x in _) => destruct x
          end ]
  end.

Ltac keeps_go := repeat keeps_step.

(** The same, with lemmas for some of the steps. *)
Tactic Notation "keeps_using" tactic(known) :=
  repeat first [ known | keeps_step ].

Module PollFacts.

(** Updates that leave the frame alone. *)
Lemma frame_set_pages v s : frame (set_pages v s) = frame s.
Proof. reflexivity. Qed.
Lemma frame_set_parsedByPage v s : frame (set_parsedByPage v s) = frame s.
Proof. reflexivity. Qed.
Lemma frame_set_boundsByPage v s : frame (set_boundsByPage v s) = frame s.
Proof. reflexivity. Qed.
Lemma frame_set_openaiRawByPage v s : frame (set_openaiRawByPage v s) = frame s.
Proof. reflexivity. Qed.
Lemma frame_set_currentPage v s : frame (set_currentPage v s) = frame s.
Proof. reflexivity. Qed.
Lemma frame_set_selectedRowId v s : frame (set_selectedRowId v s) = frame s.
Proof. reflexivity. Qed.
Lemma frame_set_totalParsedRows v s : frame (set_totalParsedRows v s) = frame s.
Proof. reflexivity. Qed.
Lemma frame_set_pageSaveTimers v s : frame (set_pageSaveTimers v s) = frame s.
Proof. reflexivity. Qed.
Lemma frame_set_pageSaveTokenByPage v s : frame (set_pageSaveTokenByPage v s) = frame s.
Proof. reflexivity. Qed.
Create Rewrite HintDb frame_rw.
#[local] Hint Rewrite frame_set_pages frame_set_parsedByPage frame_set_boundsByPage frame_set_openaiRawByPage frame_set_currentPage frame_set_selectedRowId frame_set_totalParsedRows frame_set_pageSaveTimers frame_set_pageSaveTokenByPage : frame_rw.

Lemma renderRows_frame s : frame (renderRows s) = frame s.
Proof.
  unfold renderRows, recomputeTotalParsedRows. repeat case_match; reflexivity.
Qed.

Lemma applySaveResponse_frame p payload s :
  frame (applySaveResponse p payload s) = frame s.
Proof.
  unfold applySaveResponse, recomputeTotalParsedRows, clearStaleSelection,
    reconcileRows.
  repeat case_match; autorewrite with frame_rw;
    rewrite ?renderRows_frame; autorewrite with frame_rw; reflexivity.
Qed.

Lemma loadPreview_frame s : frame (loadPreview s) = frame s.
Proof. unfold loadPreview. case_match; reflexivity. Qed.

Ltac frame_side :=
  try exact eq_refl;
  try assumption;
  try (st_simpl; assumption);
  try (rewrite ?renderRows_frame, ?applySaveResponse_frame,
         ?loadPreview_frame; assumption).

Lemma keeps_frame_flush fr saves :
  Keeps (fun s => frame s = fr) (ofKinds [KSave; KRedirect])
    (flushPendingPageSaves saves).
Proof.
  unfold flushPendingPageSaves, persistBegin, persistResume.
  keeps_go; frame_side.
Qed.

Lemma keeps_frame_loadCurrentPageData fr li :
  Keeps (fun s => frame s = fr) (ofKinds [KPage; KRedirect])
    (loadCurrentPageData li).
Proof.
  unfold loadCurrentPageData, ensureCurrentPageOpenaiRawLoaded.
  keeps_go; frame_side.
Qed.

Lemma keeps_weaken {A : Type} I (E E' : Effect -> Prop) (m : M A) :
  (forall e, E e -> E' e) -> Keeps I E m -> Keeps I E' m.
Proof.
  intros HE Hm s H. destruct (Hm s H) as [H1 H2]. split; [exact H1|].
  eapply Forall_impl; eauto.
Qed.

Lemma ofKinds_weaken ks ks' e :
  (forall k, existsb (kindEqb k) ks = true -> existsb (kindEqb k) ks' = true) ->
  ofKinds ks e -> ofKinds ks' e.
Proof. intros H. apply H. Qed.

Ltac kinds_incl :=
  let e := fresh in
  intros e; apply ofKinds_weaken; intros [] ?; (reflexivity || discriminate).

Lemma keeps_frame_loadResultData fr li :
  Keeps (fun s => frame s = fr)
    (ofKinds [KSave; KRedirect; KCleaned; KSummary; KPage])
    (loadResultData li).
Proof.
  unfold loadResultData.
  keeps_go; frame_side.
Qed.


Lemma keeps_timer_loadResultData v li :
  Keeps (fun s => pollTimer s = v) (ofKinds noStatus) (loadResultData li).
Proof.
  intros s Hs.
  destruct (keeps_frame_loadResultData (frame s) li s eq_refl) as [H1 H2].
  split.
  - apply (f_equal (fun fr => fr.1.1.1.1.1.1.1.1.1.1.1.2)) in H1.
    cbn in H1. congruence.
  - eapply Forall_impl; [exact H2|]. kinds_incl.
Qed.

(** Once the timer is stopped, handling a status response leaves it
    stopped and sends no status request. *)
Lemma keeps_stopped_resume res li :
  Keeps (fun s => pollTimer s = None) (ofKinds noStatus)
    (pollStatusResume res li).
Proof.
  unfold pollStatusResume, setStatus, updateUploadedJobIfExists,
    saveStoredJobs.
  cbv zeta.
  (keeps_using (apply keeps_timer_loadResultData)); frame_side.
Qed.

Lemma keeps_stopped_pollStep e :
  Keeps (fun s => pollTimer s = None) (ofKinds noStatus) (pollStep e).
Proof.
  destruct e as [|res li]; cbn [pollStep]; [|apply keeps_stopped_resume].
  apply keeps_bind_gets. intros timer (s & Hs & <-). rewrite Hs.
  apply keeps_ret.
Qed.

End PollFacts.

(** ** Rules for [wp] *)

Module Wp.

Lemma wp_ret {A : Type} (a : A) Q X s : Q a s [] -> wp (mret a) Q X s.
Proof. intros H. exact H. Qed.

Lemma wp_throw {A : Type} msg (Q : A -> _) X s : X msg s [] -> wp (throw msg) Q X s.
Proof. intros H. exact H. Qed.

Lemma wp_gets {A : Type} (f : State -> A) Q X s : Q (f s) s [] -> wp (gets f) Q X s.
Proof. intros H. exact H. Qed.

Lemma wp_modify f Q X s : Q tt (f s) [] -> wp (modify f) Q X s.
Proof. intros H. exact H. Qed.

Lemma wp_emit e Q X s : Q tt s [e] -> wp (emit e) Q X s.
Proof. intros H. exact H. Qed.

Lemma wp_bind {A B : Type} (m : M A) (k : A -> M B) Q X s :
  wp m (fun a s1 e1 =>
          wp (k a) (fun b s2 e2 => Q b s2 (e1 ++ e2))
             (fun msg s2 e2 => X msg s2 (e1 ++ e2)) s1)
       X s ->
  wp (m ≫= k) Q X s.
Proof.
  unfold wp, mbind, M_bind, bind.
  destruct (m s) as [[[a|msg] s1] e1]; [|auto].
  destruct (k a s1) as [[[b|msg] s2] e2]; auto.
Qed.

Lemma wp_tryCatch {A : Type} (m : M A) (h : string -> M A) Q X s :
  wp m Q
     (fun msg s1 e1 =>
        wp (h msg) (fun b s2 e2 => Q b s2 (e1 ++ e2))
           (fun msg' s2 e2 => X msg' s2 (e1 ++ e2)) s1)
     s ->
  wp (tryCatch m h) Q X s.
Proof.
  unfold wp, tryCatch.
  destruct (m s) as [[[a|msg] s1] e1]; [auto|].
  destruct (h msg s1) as [[[b|msg'] s2] e2]; auto.
Qed.

Lemma wp_settle {A : Type} (m : M A) Q X s :
  wp m (fun a s1 e1 => Q (Resolved a) s1 e1)
       (fun msg s1 e1 => Q (Rejected msg) s1 e1) s ->
  wp (settle m) Q X s.
Proof.
  unfold wp, settle. destruct (m s) as [[[a|msg] s1] e1]; auto.
Qed.

Lemma wp_mono {A : Type} (m : M A) (Q Q' : A -> _) (X X' : string -> _) s :
  wp m Q X s ->
  (forall a s' es, Q a s' es -> Q' a s' es) ->
  (forall msg s' es, X msg s' es -> X' msg s' es) ->
  wp m Q' X' s.
Proof.
  unfold wp. destruct (m s) as [[[a|msg] s1] e1]; auto.
Qed.

(** An invariant of a step gives its [wp]. *)
Lemma wp_keeps {A : Type} I E (m : M A) (Q : A -> _) X s :
  Keeps I E m -> I s ->
  (forall a s' es, I s' -> Forall E es -> Q a s' es) ->
  (forall msg s' es, I s' -> Forall E es -> X msg s' es) ->
  wp m Q X s.
Proof.
  intros Hk HI HQ HX. destruct (Hk s HI) as [H1 H2].
  unfold wp, stateAfter, effectsOf in *.
  destruct (m s) as [[[a|msg] s1] e1]; cbn in *; auto.
Qed.

(** A successful response. *)
Lemma wp_api_ok {A : Type} status text (json : A) Q X s :
  isOk status = true -> Q json s [] -> wp (api (Response status text json)) Q X s.
Proof.
  intros Hok H. unfold wp. rewrite (SaveFacts.api_ok _ _ _ _ Hok). exact H.
Qed.

(** Reading the result of a run off its [wp]. *)
Lemma wp_run {A : Type} (m : M A) s :
  wp m (fun a s' es => m s = (Resolved a, s', es))
       (fun msg s' es => m s = (Rejected msg, s', es)) s.
Proof. unfold wp. destruct (m s) as [[[a|msg] s1] e1]; reflexivity. Qed.

Lemma wp_elim {A : Type} (m : M A) Q X s :
  wp m Q X s ->
  match outcomeOf (m s) with
  | Resolved a => Q a (stateAfter (m s)) (effectsOf (m s))
  | Rejected msg => X msg (stateAfter (m s)) (effectsOf (m s))
  end.
Proof.
  unfold wp, outcomeOf, stateAfter, effectsOf.
  destruct (m s) as [[[a|msg] s1] e1]; auto.
Qed.

End Wp.

Ltac wp_step :=
  first
    [ apply Wp.wp_bind | apply Wp.wp_tryCatch | apply Wp.wp_settle
    | apply Wp.wp_ret | apply Wp.wp_throw | apply Wp.wp_gets | apply Wp.wp_modify
    | apply Wp.wp_emit ].

Ltac wp_go := repeat wp_step.

Module PollRun.

Lemma countIf_app p es1 es2 :
  countIf p (es1 ++ es2) = (countIf p es1 + countIf p es2)%nat.
Proof. unfold countIf. now rewrite List.filter_app, length_app. Qed.

Lemma countIf_none p es :
  Forall (fun e => p e = false) es -> countIf p es = 0%nat.
Proof.
  unfold countIf. induction 1 as [|e es He _ IH]; [reflexivity|].
  cbn. now rewrite He.
Qed.

(** With the timer stopped, no run of ticks and late responses sends a
    status request or starts the timer again. *)
Lemma stopped_stays_quiet events s :
  pollTimer s = None ->
  pollTimer (stateAfter (runPoll events s)) = None
  /\ countIf isStatusRequest (effectsOf (runPoll events s)) = 0%nat.
Proof.
  intros Hs.
  destruct (keeps_forEach _ _ pollStep events PollFacts.keeps_stopped_pollStep
              s Hs) as [H1 H2].
  split; [exact H1|]. apply countIf_none.
  eapply Forall_impl; [exact H2|]. intros e He.
  destruct e as [[]| | | |]; (reflexivity || discriminate).
Qed.

End PollRun.

(** C8. When the status request of a poll fails, the handler stops the
    timer and alerts the user with the error; nothing else changes. From
    then on no tick of the timer and no late response makes the poll loop
    send another status request; polling resumes only when [startPolling]
    runs again, which sets a new timer and sends a request at once. *)
Theorem poll_fetch_error_stops_polling
    (s : State) (job : string) (res : FetchResult StatusPayload)
    (li : LoadInputs) (msg : string) (es : list Effect) :
  jobId s = Some job -> Js.truthy job = true ->
  api res s = (Rejected msg, s, es) ->
  let r := pollStatusResume res li s in
  stateAfter r = stopPolling s
  /\ pollTimer (stateAfter r) = None
  /\ effectsOf r = es ++ [Alert ("Status check failed: " +:+ msg)]
  /\ (forall events,
        countIf isStatusRequest (effectsOf (runPoll events (stateAfter r)))
        = 0%nat)
  /\ is_Some (pollTimer (stateAfter (startPolling (stateAfter r))))
  /\ effectsOf (startPolling (stateAfter r)) = [Sent (GetJob job)].
Proof.
  intros Hj Hjt Hapi r.
  assert (r = (Resolved tt, stopPolling s,
               es ++ [Alert ("Status check failed: " +:+ msg)])) as Hr.
  { unfold r, pollStatusResume. step_simpl. rewrite Hapi. reflexivity. }
  rewrite Hr. cbn [stateAfter effectsOf fst snd].
  split; [reflexivity|]. split; [reflexivity|]. split; [reflexivity|].
  split; [intros events; now apply PollRun.stopped_stays_quiet|].
  unfold startPolling, pollStatusBegin. step_simpl. cbn.
  rewrite Hj. cbn [truthyO]. rewrite Hjt. cbn.
  unfold Js.orElse. rewrite Hjt. split; [eexists; reflexivity | reflexivity].
Qed.

(** The theorem at work: the network is down when job [J1] is polled. *)
Lemma poll_fetch_error_stops_polling_witness :
  api (NetworkError "offline") Sample.polling
  = (@Rejected StatusPayload "offline", Sample.polling, [])
  /\ pollTimer
       (stateAfter
          (pollStatusResume (NetworkError "offline") Sample.emptyLoad
             Sample.polling)) = None
  /\ effectsOf
       (pollStatusResume (NetworkError "offline") Sample.emptyLoad
          Sample.polling)
     = [Alert "Status check failed: offline"].
Proof.
  split; [reflexivity|].
  destruct (poll_fetch_error_stops_polling Sample.polling "J1"
              (NetworkError "offline") Sample.emptyLoad "offline" []
              eq_refl eq_refl eq_refl) as (_ & Ht & He & _).
  split; [exact Ht | exact He].
Defined.


Module StatusFacts.

Lemma set_uploadedJobs_same s : set_uploadedJobs (uploadedJobs s) s = s.
Proof. destruct s. reflexivity. Qed.

Lemma set_uploadedJobs_twice a b s :
  set_uploadedJobs a (set_uploadedJobs b s) = set_uploadedJobs a s.
Proof. reflexivity. Qed.

(** [updateUploadedJobIfExists] changes the cached job list only, and only
    writes it to storage. *)
Lemma updateJob_run partial s :
  exists jobs' es,
    updateUploadedJobIfExists partial s
    = (Resolved tt, set_uploadedJobs jobs' s, es)
    /\ Forall (ofKinds [KStored]) es
    /\ jobs' =
       match findIndex
               (fun j => String.eqb (jsString (lj_jobId j))
                           (Js.trim (strOr (pt_jobId partial) "")))
               (uploadedJobs s) with
       | Some idx =>
           if Js.truthy (Js.trim (strOr (pt_jobId partial) ""))
           then alter (fun old => mergePartial old partial) idx (uploadedJobs s)
           else uploadedJobs s
       | None => uploadedJobs s
       end.
Proof.
  unfold updateUploadedJobIfExists, saveStoredJobs. cbv zeta.
  destruct (Js.truthy (Js.trim (strOr (pt_jobId partial) ""))) eqn:Et;
    cbn [negb].
  - step_simpl.
    destruct (findIndex _ (uploadedJobs s)) as [idx|] eqn:Ef.
    + eexists _, _. split; [reflexivity|]. split; [|reflexivity].
      repeat constructor.
    + exists (uploadedJobs s), []. rewrite set_uploadedJobs_same.
      repeat split. constructor.
  - exists (uploadedJobs s), []. rewrite set_uploadedJobs_same.
    split; [reflexivity|]. split; [constructor|].
    now destruct (findIndex _ _).
Qed.

(** [setStatus]: what is shown, then the update of the cached record of the
    active job. *)
Lemma setStatus_run payload s :
  exists jobs' es,
    setStatus payload s
    = (Resolved tt, set_uploadedJobs jobs' (statusShown payload s), es)
    /\ Forall (ofKinds [KStored]) es
    /\ (truthyO (jobId s) = true ->
        stateAfter
          (updateUploadedJobIfExists (statusPartial (jobId s) payload)
             (statusShown payload s))
        = set_uploadedJobs jobs' (statusShown payload s)).
Proof.
  unfold setStatus. fold (statusPartial).
  destruct (truthyO (jobId s)) eqn:Ej.
  - destruct (updateJob_run (statusPartial (jobId s) payload)
                (statusShown payload s)) as (jobs' & es & Hrun & Hes & _).
    exists jobs', es. split; [|split; [exact Hes|]].
    + step_simpl. unfold statusShown in *. st_simpl. rewrite Ej.
      unfold statusPartial in Hrun. st_simpl. rewrite Hrun. reflexivity.
    + intros _. unfold stateAfter. rewrite Hrun. reflexivity.
  - exists (uploadedJobs s), []. split; [|split; [constructor|discriminate]].
    step_simpl. unfold statusShown. st_simpl. rewrite Ej. reflexivity.
Qed.

End StatusFacts.

Module LoadFacts.

Lemma renderRows_view c s : viewReset c s -> viewReset c (renderRows s).
Proof.
  intros (Hp & Hc & Hpar & Hb & Ho).
  unfold renderRows, recomputeTotalParsedRows.
  destruct (currentPage s) as [page|] eqn:Ecur;
    [|repeat split; rewrite ?Ecur; assumption].
  destruct (negb (Js.truthy page));
    [repeat split; rewrite ?Ecur; assumption|].
  st_simpl.
  destruct (parsedByPage s !! page) as [rows|] eqn:Erows;
    unfold viewReset; st_simpl; rewrite ?Ecur;
    repeat split; try assumption.
  intros q [x Hq].
  destruct (decide (page = q)) as [->|Hne]; [reflexivity|].
  rewrite lookup_insert_ne in Hq by assumption. apply Hpar. eauto.
Qed.

Lemma loadPreview_view c s : viewReset c s -> viewReset c (loadPreview s).
Proof.
  intros H. unfold loadPreview. case_match; [|exact H]. exact H.
Qed.

Lemma strOr_truthy o : truthyO o = true -> o = Some (strOr o "").
Proof.
  destruct o as [x|]; [|discriminate]. cbn. intros H.
  unfold Js.orElse. now rewrite H.
Qed.

Lemma view_insert_parsed c s k v :
  viewReset c s -> currentPage s = Some k ->
  viewReset c (set_parsedByPage (<[k := v]> (parsedByPage s)) s).
Proof.
  intros (Hp & Hc & Hpar & Hb & Ho) Hk. unfold viewReset. st_simpl.
  repeat split; try assumption.
  intros q [x Hq]. destruct (decide (k = q)) as [->|Hne]; [assumption|].
  rewrite lookup_insert_ne in Hq by assumption. apply Hpar. eauto.
Qed.

Lemma view_insert_bounds c s k v :
  viewReset c s -> currentPage s = Some k ->
  viewReset c (set_boundsByPage (<[k := v]> (boundsByPage s)) s).
Proof.
  intros (Hp & Hc & Hpar & Hb & Ho) Hk. unfold viewReset. st_simpl.
  repeat split; try assumption.
  intros q [x Hq]. destruct (decide (k = q)) as [->|Hne]; [assumption|].
  rewrite lookup_insert_ne in Hq by assumption. apply Hb. eauto.
Qed.

Lemma view_insert_openai c s k v :
  viewReset c s -> Js.trim <$> currentPage s = Some k ->
  viewReset c (set_openaiRawByPage (<[k := v]> (openaiRawByPage s)) s).
Proof.
  intros (Hp & Hc & Hpar & Hb & Ho) Hk. unfold viewReset. st_simpl.
  repeat split; try assumption.
  intros q [x Hq]. destruct (decide (k = q)) as [->|Hne]; [assumption|].
  rewrite lookup_insert_ne in Hq by assumption. apply Ho. eauto.
Qed.

Lemma view_current c s s' : viewReset c s -> viewReset c s' ->
  currentPage s' = currentPage s.
Proof. intros (_ & H1 & _) (_ & H2 & _). congruence. Qed.

Lemma keeps_view_loadCurrentPageData c li :
  Keeps (viewReset c) (ofKinds [KPage; KRedirect]) (loadCurrentPageData li).
Proof.
  unfold loadCurrentPageData, ensureCurrentPageOpenaiRawLoaded.
  keeps_go; try exact eq_refl; try (now apply renderRows_view);
    try (now apply loadPreview_view).
  - apply view_insert_parsed; [assumption|].
    rewrite (view_current c x0 s) by assumption.
    apply orb_false_iff in Heqb as [_ Hcur]. apply negb_false_iff in Hcur.
    subst a0. now apply strOr_truthy.
  - apply view_insert_bounds; [assumption|].
    rewrite (view_current c x0 s) by assumption.
    apply orb_false_iff in Heqb as [_ Hcur]. apply negb_false_iff in Hcur.
    subst a0. now apply strOr_truthy.
  - apply view_insert_openai; [assumption|].
    rewrite (view_current c x5 s) by assumption. subst a7.
    apply orb_false_iff in Heqb as [_ Hcur]. apply negb_false_iff in Hcur.
    rewrite (view_current c x0 x5) by assumption. rewrite H2.
    rewrite (strOr_truthy a0 Hcur) at 1. reflexivity.
  - apply view_insert_openai; [assumption|].
    rewrite (view_current c x5 s) by assumption. subst a7.
    apply orb_false_iff in Heqb as [_ Hcur]. apply negb_false_iff in Hcur.
    rewrite (view_current c x0 x5) by assumption. rewrite H2.
    rewrite (strOr_truthy a0 Hcur) at 1. reflexivity.
Qed.

End LoadFacts.

(** ** Steps that never throw *)

Module Total.

Lemma total_ret {A : Type} (a : A) : NoThrow (mret a).
Proof. intros s. eexists. reflexivity. Qed.

Lemma total_gets {A : Type} (f : State -> A) : NoThrow (gets f).
Proof. intros s. eexists. reflexivity. Qed.

Lemma total_modify f : NoThrow (modify f).
Proof. intros s. eexists. reflexivity. Qed.

Lemma total_emit e : NoThrow (emit e).
Proof. intros s. eexists. reflexivity. Qed.

Lemma total_settle {A : Type} (m : M A) : NoThrow (settle m).
Proof.
  intros s. unfold settle, outcomeOf.
  destruct (m s) as [[r s1] e1]. eexists. reflexivity.
Qed.

Lemma total_bind {A B : Type} (m : M A) (k : A -> M B) :
  NoThrow m -> (forall a, NoThrow (k a)) -> NoThrow (m ≫= k).
Proof.
  intros Hm Hk s. destruct (Hm s) as [a Ha].
  unfold mbind, M_bind, bind, outcomeOf in *.
  destruct (m s) as [[r s1] e1]. cbn in Ha. subst r.
  destruct (Hk a s1) as [b Hb]. unfold outcomeOf in Hb.
  destruct (k a s1) as [[r s2] e2]. cbn in *. subst r. eauto.
Qed.

Lemma total_tryCatch {A : Type} (m : M A) (h : string -> M A) :
  (forall msg, NoThrow (h msg)) -> NoThrow (tryCatch m h).
Proof.
  intros Hh s. unfold tryCatch, outcomeOf.
  destruct (m s) as [[[a|msg] s1] e1]; [eauto|].
  destruct (Hh msg s1) as [b Hb]. unfold outcomeOf in Hb.
  destruct (h msg s1) as [[r s2] e2]. cbn in *. subst r. eauto.
Qed.

Lemma total_forEach {A : Type} (f : A -> M unit) (l : list A) :
  (forall x, NoThrow (f x)) -> NoThrow (forEach f l).
Proof.
  intros Hf. induction l as [|x l IH]; cbn; [apply total_ret|].
  apply total_bind; [apply Hf | intros _; exact IH].
Qed.

Lemma total_mapM {A B : Type} (f : A -> M B) (l : list A) :
  (forall x, NoThrow (f x)) -> NoThrow (mapM f l).
Proof.
  intros Hf. induction l as [|x l IH]; cbn; [apply total_ret|].
  apply total_bind; [apply Hf | intros y].
  apply total_bind; [exact IH | intros ys; apply total_ret].
Qed.

End Total.

Ltac nothrow_step :=
  lazymatch goal with
  | |- NoThrow _ =>
      first
        [ apply Total.total_ret | apply Total.total_emit | apply Total.total_settle
        | apply Total.total_modify | apply Total.total_gets
        | apply Total.total_forEach; intros ?
        | apply Total.total_mapM; intros ?
        | apply Total.total_tryCatch; intros ?
        | apply Total.total_bind; [| intros ?]
        | match goal with
          | |- NoThrow (if ?b then _ else _) => destruct b
          | |- NoThrow (match ?x with _ => _ end) => destruct x
          | |- NoThrow (let '(_, _) := ?x in _) => destruct x
          end ]
  end.

Module LoadRun.

Lemma flush_total saves : NoThrow (flushPendingPageSaves saves).
Proof.
  unfold flushPendingPageSaves, persistBegin. repeat nothrow_step.
Qed.

Lemma keeps_and {A : Type} (I1 I2 : State -> Prop) E (m : M A) :
  Keeps I1 E m -> Keeps I2 E m -> Keeps (fun s => I1 s /\ I2 s) E m.
Proof.
  intros H1 H2 s [Ha Hb]. destruct (H1 s Ha) as [? ?].
  destruct (H2 s Hb) as [? ?]. repeat split; assumption.
Qed.

(** A step that keeps an invariant and never throws. *)
Lemma wp_total {A : Type} I E (m : M A) (Q : A -> _) X s :
  Keeps I E m -> NoThrow m -> I s ->
  (forall a s' es, I s' -> Forall E es -> Q a s' es) ->
  wp m Q X s.
Proof.
  intros Hk Ht HI HQ. destruct (Hk s HI) as [H1 H2].
  destruct (Ht s) as [a Ha].
  unfold wp, stateAfter, effectsOf, outcomeOf in *.
  destruct (m s) as [[r s1] e1]. cbn in *. subst r. auto.
Qed.

(** The two ways a call of [api] ends. *)
Lemma api_run {A : Type} (res : FetchResult A) s :
  (exists status text json,
     res = Response status text json /\ isOk status = true
     /\ api res s = (Resolved json, s, []))
  \/ (exists msg es,
        api res s = (Rejected msg, s, es)
        /\ Forall (ofKinds [KRedirect]) es
        /\ forall status text json,
             res = Response status text json -> isOk status = false).
Proof.
  destruct res as [msg | status text json].
  - right. exists msg, []. repeat split; [constructor | discriminate].
  - cbn. destruct (status =? 401)%nat eqn:E.
    + right. eexists _, _. split; [reflexivity|].
      split; [repeat constructor|].
      intros ? ? ? [= -> _ _]. apply Nat.eqb_eq in E. now subst.
    + destruct (isOk status) eqn:Eo; cbn.
      * left. eexists _, _, _. repeat split; assumption.
      * right. eexists _, _. split; [reflexivity|].
        split; [constructor|]. now intros ? ? ? [= -> _ _].
Qed.

Lemma wp_settle_api {A : Type} (res : FetchResult A) Q X s :
  (forall status text json,
     res = Response status text json -> isOk status = true ->
     Q (Resolved json) s []) ->
  (forall msg es,
     Forall (ofKinds [KRedirect]) es ->
     (forall status text json,
        res = Response status text json -> isOk status = false) ->
     Q (Rejected msg) s es) ->
  wp (settle (api res)) Q X s.
Proof.
  intros Hok Hbad. unfold wp, settle.
  destruct (api_run res s) as [(st & tx & j & Hr & Ho & ->)
                              | (msg & es & -> & Hes & Hno)]; eauto.
Qed.

End LoadRun.

Module LoadSpec.
Import LoadRun.

Lemma kindEqb_eq a b : kindEqb a b = true -> a = b.
Proof. destruct a, b; cbn; congruence. Qed.

Lemma countIf_kinds k ks es :
  Forall (ofKinds ks) es -> existsb (kindEqb k) ks = false ->
  countIf (isKind k) es = 0%nat.
Proof.
  intros Hes Hk. apply PollRun.countIf_none.
  eapply Forall_impl; [exact Hes|]. intros e He. unfold isKind.
  destruct (kindEqb (kindOf e) k) eqn:E; [|reflexivity].
  apply kindEqb_eq in E. subst k.
  unfold ofKinds in He. congruence.
Qed.

Lemma kinds_weaken ks ks' es :
  (forall k, existsb (kindEqb k) ks = true -> existsb (kindEqb k) ks' = true) ->
  Forall (ofKinds ks) es -> Forall (ofKinds ks') es.
Proof.
  intros H Hes. eapply Forall_impl; [exact Hes|]. intros e. apply H.
Qed.

Ltac kinds_le := intros []; intros ?; (reflexivity || discriminate).

Ltac effects_tac :=
  repeat first
    [ apply Forall_app; split
    | exact I
    | apply List.Forall_nil
    | apply List.Forall_cons; [exact eq_refl|]
    | match goal with
      | H : Forall (ofKinds ?ks) ?es |- Forall (ofKinds ?ks') ?es =>
          apply (kinds_weaken ks ks' es); [kinds_le | exact H]
      end ].

Ltac count_tac :=
  rewrite ?PollRun.countIf_app;
  repeat match goal with
    | H : Forall (ofKinds ?ks) ?es |- context [countIf (isKind ?k) ?es] =>
        rewrite (countIf_kinds k ks es H eq_refl)
    end;
  reflexivity.

Lemma frame_jobId s s' : frame s' = frame s -> jobId s' = jobId s.
Proof.
  intros H. apply (f_equal (fun fr => fr.1.1.1.1.1.1.1.1.1.1.1.1)) in H.
  exact H.
Qed.

Lemma loadResultData_wp li s job :
  jobId s = Some job -> Js.truthy job = true ->
  wp (loadResultData li) (fun _ => loadPost li s) (fun _ => loadPost li s) s.
Proof.
  intros Hj Hjt. unfold loadResultData.
  apply Wp.wp_bind.
  eapply (wp_total (fun s' => frame s' = frame s) (ofKinds [KSave; KRedirect]));
    [apply PollFacts.keeps_frame_flush | apply flush_total | reflexivity |].
  intros _ s1 e1 Hfr He1.
  apply Wp.wp_bind, Wp.wp_gets.
  rewrite (frame_jobId _ _ Hfr), Hj. cbn [truthyO]. rewrite Hjt. cbn [negb].
  apply Wp.wp_bind, Wp.wp_emit. apply Wp.wp_bind, Wp.wp_emit.
  apply Wp.wp_bind. apply wp_settle_api.
  - intros st tx c Hc Hok.
    apply Wp.wp_bind. apply wp_settle_api.
    + intros st' tx' sm Hsm Hok'.
      do 6 (apply Wp.wp_bind; apply Wp.wp_modify).
      eapply (Wp.wp_keeps (fun s' => frame s' = frame s /\ viewReset c s')
                (ofKinds [KPage; KRedirect])).
      * apply keeps_and;
          [apply PollFacts.keeps_frame_loadCurrentPageData
          | apply LoadFacts.keeps_view_loadCurrentPageData].
      * split; [exact Hfr|]. unfold viewReset. st_simpl.
        repeat split; intros q [x Hq]; rewrite lookup_empty in Hq;
          discriminate.
      * intros _ s' es [Hf Hv] Hes. unfold loadPost.
        split; [exact Hf|]. split; [count_tac|]. split; [count_tac|].
        split; [effects_tac|].
        intros st0 tx0 c0 st0' tx0' sm0 Hc0 _ _ _.
        rewrite Hc in Hc0. inversion Hc0; subst. exact Hv.
      * intros _ s' es [Hf Hv] Hes. unfold loadPost.
        split; [exact Hf|]. split; [count_tac|]. split; [count_tac|].
        split; [effects_tac|].
        intros st0 tx0 c0 st0' tx0' sm0 Hc0 _ _ _.
        rewrite Hc in Hc0. inversion Hc0; subst. exact Hv.
    + intros msg es Hes Hno. apply Wp.wp_throw. unfold loadPost.
      split; [exact Hfr|]. split; [count_tac|]. split; [count_tac|].
      split; [effects_tac|].
      intros st0 tx0 c0 st0' tx0' sm0 _ _ Hs0 Hok0.
      rewrite (Hno _ _ _ Hs0) in Hok0. discriminate.
  - intros msg es Hes Hno.
    apply Wp.wp_bind. apply wp_settle_api.
    + intros st' tx' sm Hsm Hok'. apply Wp.wp_throw. unfold loadPost.
      split; [exact Hfr|]. split; [count_tac|]. split; [count_tac|].
      split; [effects_tac|].
      intros st0 tx0 c0 st0' tx0' sm0 Hc0 Hok0 _ _.
      rewrite (Hno _ _ _ Hc0) in Hok0. discriminate.
    + intros msg' es' Hes' Hno'. apply Wp.wp_throw. unfold loadPost.
      split; [exact Hfr|]. split; [count_tac|]. split; [count_tac|].
      split; [effects_tac|].
      intros st0 tx0 c0 st0' tx0' sm0 Hc0 Hok0 _ _.
      rewrite (Hno _ _ _ Hc0) in Hok0. discriminate.
Qed.

End LoadSpec.

Module PollSpec.

Lemma strOr_nonempty o d :
  strOr o "" <> "" -> strOr o d = strOr o "".
Proof.
  destruct o as [x|]; cbn; [|congruence].
  unfold Js.orElse. destruct (Js.truthy x) eqn:E; [reflexivity|congruence].
Qed.

Lemma lower_status o d w :
  w <> "" -> Js.toLowerCase (strOr o "") = w ->
  Js.toLowerCase (strOr o d) = w.
Proof.
  intros Hw H. rewrite strOr_nonempty; [exact H|].
  intros E. rewrite E in H. cbn in H. congruence.
Qed.

Lemma frame_dom s s' :
  frame s' = frame s ->
  pollTimer s' = pollTimer s /\ dom_jobStatus s' = dom_jobStatus s
  /\ dom_jobStep s' = dom_jobStep s /\ dom_jobProgress s' = dom_jobProgress s.
Proof.
  intros H. unfold frame in H. inversion H. repeat split; assumption.
Qed.

(** The result of handling a successful status response, by the status it
    carries. *)
Lemma resume_ok_run s job status text payload li :
  jobId s = Some job -> Js.truthy job = true -> isOk status = true ->
  let st := Js.toLowerCase (strOr (pl_status payload) "") in
  let r := pollStatusResume (Response status text payload) li s in
  exists jobs' es0,
    Forall (ofKinds [KStored]) es0
    /\ let s1 := set_uploadedJobs jobs' (statusShown payload s) in
       (st = "done" ->
        exists s2 es,
          loadPost li (stopPolling s1) s2 es
          /\ ((stateAfter r = s2 /\ effectsOf r = es0 ++ es)
              \/ exists msg,
                   stateAfter r = stopPolling s2
                   /\ effectsOf r
                      = es0 ++ es ++ [Alert ("Status check failed: " +:+ msg)]))
       /\ (st = "failed" ->
           stateAfter r = stopPolling s1
           /\ effectsOf r
              = es0 ++ [Alert ("Job failed: "
                               +:+ strOr (pl_message payload) "unknown error")])
       /\ (st <> "done" -> st <> "failed" ->
           stateAfter r = s1 /\ effectsOf r = es0).
Proof.
  intros Hj Hjt Hok st r.
  destruct (StatusFacts.setStatus_run payload s) as (jobs' & es0 & Hset & Hes0 & _).
  exists jobs', es0. split; [exact Hes0|]. intros s1.
  assert (jobId (stopPolling s1) = Some job) as Hj1 by exact Hj.
  pose proof (LoadSpec.loadResultData_wp li (stopPolling s1) job Hj1 Hjt) as Hload.
  unfold wp in Hload.
  unfold r, pollStatusResume.
  unfold tryCatch, mbind, M_bind, bind.
  rewrite (SaveFacts.api_ok _ _ _ _ Hok), Hset. fold s1.
  unfold st in *. clear st r Hset. clearbody s1.
  split; [|split].
  - intros Hst. rewrite Hst. cbn [String.eqb Ascii.eqb Bool.eqb].
    change (modify stopPolling s1)
      with (Resolved tt, stopPolling s1, @nil Effect).
    cbn beta iota.
    destruct (loadResultData li (stopPolling s1)) as [[[[]|msg] s2] es].
    + exists s2, es. split; [exact Hload|]. left.
      cbn. rewrite ?app_nil_r. split; reflexivity.
    + exists s2, es. split; [exact Hload|]. right. exists msg.
      cbn. rewrite ?app_nil_r, <- ?app_assoc. split; reflexivity.
  - intros Hst. rewrite Hst. cbn. rewrite ?app_nil_r. split; reflexivity.
  - intros N1 N2.
    destruct (String.eqb _ "done") eqn:E1;
      [apply String.eqb_eq in E1; contradiction|].
    destruct (String.eqb _ "failed") eqn:E2;
      [apply String.eqb_eq in E2; contradiction|].
    cbn. rewrite ?app_nil_r. split; reflexivity.
Qed.

End PollSpec.

Module PollClaim.
Import PollSpec.

Lemma viewReset_stopPolling c s : viewReset c s -> viewReset c (stopPolling s).
Proof. exact (fun H => H). Qed.

Lemma shown_done payload :
  Js.toLowerCase (strOr (pl_status payload) "") = "done" ->
  forall s, dom_jobStatus (statusShown payload s) = "completed".
Proof.
  intros H s. unfold statusShown. st_simpl.
  now rewrite (lower_status _ "idle" "done" ltac:(discriminate) H).
Qed.

Lemma shown_fields jobs' payload s :
  let s1 := set_uploadedJobs jobs' (statusShown payload s) in
  (dom_jobStatus s1 = dom_jobStatus (statusShown payload s)
   /\ dom_jobStep s1 = strOr (pl_step payload) "-"
   /\ dom_jobProgress s1 = clampPercent (default 0%Q (pl_progress payload)))
  /\ pollTimer s1 = pollTimer s.
Proof.
  unfold statusShown. st_simpl_goal.
  split; [split; [|split]|]; reflexivity.
Qed.

Lemma shown_fields_stopped jobs' payload s :
  let s1 := stopPolling (set_uploadedJobs jobs' (statusShown payload s)) in
  dom_jobStatus s1 = dom_jobStatus (statusShown payload s)
  /\ dom_jobStep s1 = strOr (pl_step payload) "-"
  /\ dom_jobProgress s1 = clampPercent (default 0%Q (pl_progress payload)).
Proof.
  unfold statusShown, stopPolling. st_simpl_goal.
  split; [|split]; reflexivity.
Qed.

Lemma frame_stopPolling s s' :
  frame s' = frame (stopPolling s) ->
  frame (stopPolling s') = frame (stopPolling s).
Proof.
  unfold frame, stopPolling. st_simpl. intros H. inversion H. reflexivity.
Qed.

End PollClaim.

(** C2, with the status word the script tests. On a successful poll response
    for the active job the status, the step and the progress (clamped) are
    shown. When the status of the payload is [done] (in any letter case; it
    is shown as [completed]) the timer is stopped and one result load runs:
    one request for the cleaned-page list, one for the summary, and, when
    both are answered, the caches reset and the first page current. When it
    is [failed] the timer is stopped and the failure message is alerted, with
    no result load. In both cases no later tick or late response sends a
    status request. For any other status the timer is left as it is and
    nothing but the cached job list is written. *)
Theorem poll_response_by_status
    (s : State) (job : string) (status : nat) (text : string)
    (payload : StatusPayload) (li : LoadInputs) :
  jobId s = Some job -> Js.truthy job = true -> isOk status = true ->
  let st := Js.toLowerCase (strOr (pl_status payload) "") in
  let r := pollStatusResume (Response status text payload) li s in
  let s' := stateAfter r in
  let es := effectsOf r in
  (dom_jobStatus s' = dom_jobStatus (statusShown payload s)
   /\ dom_jobStep s' = strOr (pl_step payload) "-"
   /\ dom_jobProgress s' = clampPercent (default 0%Q (pl_progress payload)))
  /\ (st = "done" ->
      dom_jobStatus s' = "completed"
      /\ pollTimer s' = None
      /\ countIf (isKind KCleaned) es = 1%nat
      /\ countIf (isKind KSummary) es = 1%nat
      /\ (forall c1 t1 c c2 t2 sm,
            li_cleaned li = Response c1 t1 c -> isOk c1 = true ->
            li_summary li = Response c2 t2 sm -> isOk c2 = true ->
            viewReset c s')
      /\ (forall events,
            countIf isStatusRequest (effectsOf (runPoll events s')) = 0%nat))
  /\ (st = "failed" ->
      pollTimer s' = None
      /\ In (Alert ("Job failed: "
                    +:+ strOr (pl_message payload) "unknown error")) es
      /\ countIf (isKind KCleaned) es = 0%nat
      /\ countIf (isKind KSummary) es = 0%nat
      /\ (forall events,
            countIf isStatusRequest (effectsOf (runPoll events s')) = 0%nat))
  /\ (st <> "done" -> st <> "failed" ->
      pollTimer s' = pollTimer s /\ Forall (ofKinds [KStored]) es).
Proof.
  intros Hj Hjt Hok st r s' es.
  destruct (PollSpec.resume_ok_run s job status text payload li Hj Hjt Hok)
    as (jobs' & es0 & Hes0 & Hdone & Hfailed & Hother).
  fold st r in Hdone, Hfailed, Hother. fold s' es in Hdone, Hfailed, Hother.
  clearbody s' es. clear r.
  assert (st = "done" -> pollTimer s' = None
          /\ frame s' = frame (stopPolling
                                 (set_uploadedJobs jobs' (statusShown payload s)))
          /\ countIf (isKind KCleaned) es = 1%nat
          /\ countIf (isKind KSummary) es = 1%nat
          /\ (forall c1 t1 c c2 t2 sm,
                li_cleaned li = Response c1 t1 c -> isOk c1 = true ->
                li_summary li = Response c2 t2 sm -> isOk c2 = true ->
                viewReset c s')) as Hd.
  { intros Hst. destruct (Hdone Hst) as (s2 & es2 & Hpost & Hres).
    destruct Hpost as (Hfr & Hc & Hsm & Hks & Hview).
    destruct (PollSpec.frame_dom _ _ Hfr) as (Ht & _).
    destruct Hres as [[-> ->] | (msg & -> & ->)].
    - split; [rewrite Ht; reflexivity|]. split; [exact Hfr|].
      split; [|split; [|exact Hview]].
      + rewrite PollRun.countIf_app, Hc.
        now rewrite (LoadSpec.countIf_kinds KCleaned _ _ Hes0 eq_refl).
      + rewrite PollRun.countIf_app, Hsm.
        now rewrite (LoadSpec.countIf_kinds KSummary _ _ Hes0 eq_refl).
    - split; [reflexivity|].
      split; [now apply PollClaim.frame_stopPolling|].
      split; [|split].
      + rewrite !PollRun.countIf_app, Hc.
        now rewrite (LoadSpec.countIf_kinds KCleaned _ _ Hes0 eq_refl).
      + rewrite !PollRun.countIf_app, Hsm.
        now rewrite (LoadSpec.countIf_kinds KSummary _ _ Hes0 eq_refl).
      + intros. apply PollClaim.viewReset_stopPolling. eauto. }
  split.
  { destruct (String.eqb st "done") eqn:E1.
    - apply String.eqb_eq in E1. destruct (Hd E1) as (_ & Hfr & _).
      destruct (PollSpec.frame_dom _ _ Hfr) as (_ & H1 & H2 & H3).
      rewrite H1, H2, H3. apply PollClaim.shown_fields_stopped.
    - apply String.eqb_neq in E1.
      destruct (String.eqb st "failed") eqn:E2.
      + apply String.eqb_eq in E2. destruct (Hfailed E2) as [-> _].
        apply PollClaim.shown_fields_stopped.
      + apply String.eqb_neq in E2. destruct (Hother E1 E2) as [-> _].
        apply PollClaim.shown_fields. }
  split; [|split].
  - intros Hst. destruct (Hd Hst) as (Ht & Hfr & Hc & Hsm & Hview).
    destruct (PollSpec.frame_dom _ _ Hfr) as (_ & H1 & _).
    split.
    { rewrite H1, (proj1 (PollClaim.shown_fields_stopped jobs' payload s)).
      exact (PollClaim.shown_done payload Hst s). }
    split; [exact Ht|]. split; [exact Hc|]. split; [exact Hsm|].
    split; [exact Hview|].
    intros events. exact (proj2 (PollRun.stopped_stays_quiet events s' Ht)).
  - intros Hst. destruct (Hfailed Hst) as [Hs He].
    assert (pollTimer s' = None) as Ht by (rewrite Hs; reflexivity).
    split; [exact Ht|].
    split; [rewrite He; apply in_or_app; right; left; reflexivity|].
    split; [rewrite He; LoadSpec.count_tac|].
    split; [rewrite He; LoadSpec.count_tac|].
    intros events. exact (proj2 (PollRun.stopped_stays_quiet events s' Ht)).
  - intros N1 N2. destruct (Hother N1 N2) as [Hs He].
    split; [|rewrite He; exact Hes0].
    rewrite Hs. apply PollClaim.shown_fields.
Qed.

(** The theorem at work: job [J1] is polled and the server answers [done]. *)
Lemma poll_response_by_status_witness :
  jobId Sample.polling = Some "J1" /\ Js.truthy "J1" = true
  /\ isOk 200 = true
  /\ let r := pollStatusResume (Response 200 "" (Sample.status "done" 100))
                Sample.emptyLoad Sample.polling in
     pollTimer (stateAfter r) = None
     /\ countIf (isKind KCleaned) (effectsOf r) = 1%nat.
Proof.
  split; [reflexivity|]. split; [reflexivity|]. split; [reflexivity|].
  destruct (poll_response_by_status Sample.polling "J1" 200 ""
              (Sample.status "done" 100) Sample.emptyLoad
              eq_refl eq_refl eq_refl) as (_ & Hdone & _).
  destruct (Hdone eq_refl) as (_ & Ht & Hc & _).
  split; [exact Ht | exact Hc].
Defined.

(** A payload whose status is the word [completed] is shown as completed and
    marks the job completed, yet the timer stays armed, no result load
    starts, and the next tick polls again. *)
Lemma poll_completed_word_keeps_polling :
  let r := pollStatusResume (Response 200 "" (Sample.status "completed" 100))
             Sample.emptyLoad Sample.polling in
  dom_jobStatus (stateAfter r) = "completed"
  /\ isCompleted (stateAfter r) = true
  /\ pollTimer (stateAfter r) = Some 1%nat
  /\ countIf (isKind KCleaned) (effectsOf r) = 0%nat
  /\ countIf (isKind KSummary) (effectsOf r) = 0%nat
  /\ effectsOf (pollStep TimerTick (stateAfter r)) = [Sent (GetJob "J1")].
Proof. vm_compute. repeat split. Qed.

(** ** Reconciliation of the cached job list *)

Module ReconcileFacts.

Section Loop.
Variable fetchAt : nat -> FetchResult StatusPayload.

Lemma slot_shift idx rows :
  imap ((fun i => reconciledSlot fetchAt (idx + i)) ∘ S) rows
  = imap (fun i => reconciledSlot fetchAt (S idx + i)) rows.
Proof.
  apply imap_ext. intros i x _. cbn. now rewrite Nat.add_succ_r.
Qed.

(** While no request is answered 401 the loop runs to its end, changes
    nothing, and gives the slots of the records in order. *)
Lemma loop_ok rows : forall idx next s,
  (forall i row st t p,
     rows !! i = Some row -> asked row = true ->
     fetchAt (idx + i) = Response st t p -> st <> 401%nat) ->
  exists es,
    reconcileLoop rows idx fetchAt next s
    = (Resolved
         (Some (next ++ concat (imap (fun i => reconciledSlot fetchAt (idx + i))
                                  rows))), s, es)
    /\ Forall (ofKinds [KStatus]) es.
Proof.
  induction rows as [|row rest IH]; intros idx next s Hno.
  - exists []. cbn. rewrite app_nil_r. split; [reflexivity|constructor].
  - assert (forall i row' st t p,
              rest !! i = Some row' -> asked row' = true ->
              fetchAt (S idx + i) = Response st t p -> st <> 401%nat) as Hrest.
    { intros i row' st t p Hi Ha Hf. apply (Hno (S i) row' st t p Hi Ha).
      now rewrite Nat.add_succ_r. }
    rewrite imap_cons, slot_shift. cbn [concat reconcileLoop].
    rewrite Nat.add_0_r. unfold reconciledSlot at 1.
    destruct (Js.truthy (Js.trim (strOr (lj_jobId row) ""))) eqn:Ea; cbn [negb].
    + pose proof (Hno 0%nat row) as H0. rewrite Nat.add_0_r in H0.
      specialize (fun st t p => H0 st t p eq_refl Ea).
      step_simpl.
      destruct (fetchAt idx) as [msg | st t p].
      * destruct (IH (S idx) (next ++ [row]) s Hrest) as (es & -> & Hes).
        exists (Sent (GetJob (Js.trim (strOr (lj_jobId row) ""))) :: es).
        rewrite <- app_assoc. split; [reflexivity|].
        constructor; [exact eq_refl | exact Hes].
      * destruct (st =? 401)%nat eqn:E401;
          [apply Nat.eqb_eq in E401; now destruct (H0 st t p eq_refl)|].
        destruct (st =? 404)%nat.
        -- destruct (IH (S idx) next s Hrest) as (es & -> & Hes).
           exists (Sent (GetJob (Js.trim (strOr (lj_jobId row) ""))) :: es).
           split; [reflexivity|].
           constructor; [exact eq_refl | exact Hes].
        -- destruct (negb (isOk st)).
           ++ destruct (IH (S idx) (next ++ [row]) s Hrest) as (es & -> & Hes).
              exists (Sent (GetJob (Js.trim (strOr (lj_jobId row) ""))) :: es).
              rewrite <- app_assoc. split; [reflexivity|].
              constructor; [exact eq_refl | exact Hes].
           ++ destruct (IH (S idx) (next ++ [mergeStatus row p]) s Hrest)
                as (es & -> & Hes).
              exists (Sent (GetJob (Js.trim (strOr (lj_jobId row) ""))) :: es).
              rewrite <- app_assoc. split; [reflexivity|].
              constructor; [exact eq_refl | exact Hes].
    + destruct (IH (S idx) next s Hrest) as (es & -> & Hes).
      exists es. split; [reflexivity | exact Hes].
Qed.

(** A request answered 401 makes the loop return from the function: the
    list built so far is lost and the page is sent to the login. *)
Lemma loop_unauthorized rows : forall idx next s,
  (exists i row t p,
     rows !! i = Some row /\ asked row = true
     /\ fetchAt (idx + i) = Response 401 t p) ->
  exists es,
    reconcileLoop rows idx fetchAt next s = (Resolved None, s, es)
    /\ In (Redirect "/login") es.
Proof.
  induction rows as [|row rest IH]; intros idx next s (i & r & t & p & Hi & Ha & Hf).
  - discriminate.
  - assert (i <> 0%nat ->
            exists i' row' t' p',
              rest !! i' = Some row' /\ asked row' = true
              /\ fetchAt (S idx + i') = Response 401 t' p') as Hrest.
    { intros Hne. destruct i as [|i']; [congruence|].
      exists i', r, t, p. split; [exact Hi|]. split; [exact Ha|].
      now rewrite Nat.add_succ_r in Hf. }
    cbn [reconcileLoop].
    destruct (Js.truthy (Js.trim (strOr (lj_jobId row) ""))) eqn:Ea; cbn [negb].
    + step_simpl.
      destruct (fetchAt idx) as [msg | st t' p'] eqn:Ef.
      * assert (i <> 0%nat) as Hne.
        { intros ->. rewrite Nat.add_0_r in Hf. congruence. }
        destruct (IH (S idx) (next ++ [row]) s (Hrest Hne)) as (es & -> & Hes).
        eexists. split; [reflexivity|]. now right.
      * destruct (st =? 401)%nat eqn:E401.
        { eexists. split; [reflexivity|]. right. now left. }
        assert (i <> 0%nat) as Hne.
        { intros ->. rewrite Nat.add_0_r in Hf. rewrite Ef in Hf.
          injection Hf as -> _ _. discriminate. }
        destruct (st =? 404)%nat.
        -- destruct (IH (S idx) next s (Hrest Hne)) as (es & -> & Hes).
           eexists. split; [reflexivity|]. now right.
        -- destruct (negb (isOk st)).
           ++ destruct (IH (S idx) (next ++ [row]) s (Hrest Hne))
                as (es & -> & Hes).
              eexists. split; [reflexivity|]. now right.
           ++ destruct (IH (S idx) (next ++ [mergeStatus row p']) s (Hrest Hne))
                as (es & -> & Hes).
              eexists. split; [reflexivity|]. now right.
    + assert (i <> 0%nat) as Hne.
      { intros ->. cbn in Hi. injection Hi as ->. unfold asked in Ha.
        congruence. }
      destruct (IH (S idx) next s (Hrest Hne)) as (es & -> & Hes).
      exists es. split; [reflexivity | exact Hes].
Qed.

End Loop.

(** The whole of [reconcileStoredJobsStatuses] in the two cases. *)
Lemma reconcile_ok fetchAt s :
  (forall i row st t p,
     take 100 (uploadedJobs s) !! i = Some row -> asked row = true ->
     fetchAt i = Response st t p -> st <> 401%nat) ->
  uploadedJobs (stateAfter (reconcileStoredJobsStatuses fetchAt s))
  = concat (imap (reconciledSlot fetchAt) (take 100 (uploadedJobs s))).
Proof.
  intros Hno. unfold reconcileStoredJobsStatuses.
  destruct (uploadedJobs s) as [|j jobs] eqn:Ej.
  - step_simpl. rewrite Ej. cbn. exact Ej.
  - destruct (loop_ok fetchAt (take 100 (j :: jobs)) 0 [] s Hno)
      as (es & Hrun & _).
    step_simpl. rewrite Ej. cbn beta iota. rewrite Hrun. cbn. reflexivity.
Qed.

Lemma reconcile_unauthorized fetchAt s :
  (exists i row t p,
     take 100 (uploadedJobs s) !! i = Some row /\ asked row = true
     /\ fetchAt i = Response 401 t p) ->
  stateAfter (reconcileStoredJobsStatuses fetchAt s) = s
  /\ In (Redirect "/login")
       (effectsOf (reconcileStoredJobsStatuses fetchAt s)).
Proof.
  intros Hex. unfold reconcileStoredJobsStatuses.
  destruct (uploadedJobs s) as [|j jobs] eqn:Ej.
  - destruct Hex as (i & row & _ & _ & Hi & _). now rewrite take_nil in Hi.
  - destruct (loop_unauthorized fetchAt (take 100 (j :: jobs)) 0 [] s Hex)
      as (es & Hrun & Hin).
    step_simpl. rewrite Ej. cbn beta iota. rewrite Hrun. cbn.
    rewrite app_nil_r. split; [reflexivity | exact Hin].
Qed.

End ReconcileFacts.

(** C5, for the records that are asked about and while the session lasts.
    Reconciliation looks at the first hundred cached records and asks the
    server about those that carry a job id. When no request is answered 401,
    the new list is made of the slots of these records in order: nothing for
    a record without a job id or answered 404, the record as it was for a
    fetch error or another failure status, and for a success the record
    with its status, step and progress taken from the response, each falling
    back to the value of the record when the response omits it, and every
    other field kept. When some request is answered 401, the function
    returns at once: the page is sent to the login and the cached list is
    left as it was, whatever the earlier requests were answered. *)
Theorem reconcile_by_response
    (fetchAt : nat -> FetchResult StatusPayload) (s : State) :
  let jobs := take 100 (uploadedJobs s) in
  let r := reconcileStoredJobsStatuses fetchAt s in
  ((forall i row st t p,
      jobs !! i = Some row -> asked row = true ->
      fetchAt i = Response st t p -> st <> 401%nat) ->
   uploadedJobs (stateAfter r) = concat (imap (reconciledSlot fetchAt) jobs))
  /\ ((exists i row t p,
         jobs !! i = Some row /\ asked row = true
         /\ fetchAt i = Response 401 t p) ->
      stateAfter r = s /\ In (Redirect "/login") (effectsOf r))
  /\ (forall i row,
        (asked row = false -> reconciledSlot fetchAt i row = [])
        /\ (asked row = true ->
            (forall t p, fetchAt i = Response 404 t p ->
                         reconciledSlot fetchAt i row = [])
            /\ (forall msg, fetchAt i = NetworkError msg ->
                            reconciledSlot fetchAt i row = [row])
            /\ (forall st t p,
                  fetchAt i = Response st t p -> st <> 404%nat ->
                  isOk st = false -> reconciledSlot fetchAt i row = [row])
            /\ (forall st t p,
                  fetchAt i = Response st t p -> isOk st = true ->
                  reconciledSlot fetchAt i row = [mergeStatus row p])))
  /\ (forall row p,
        let m := mergeStatus row p in
        (lj_jobId m = lj_jobId row /\ lj_fileName m = lj_fileName row
         /\ lj_sizeBytes m = lj_sizeBytes row
         /\ lj_lastModified m = lj_lastModified row
         /\ lj_createdAt m = lj_createdAt row
         /\ lj_parseMode m = lj_parseMode row)
        /\ lj_status m
           = Some (strOr (pl_status p) (strOr (lj_status row) "queued"))
        /\ lj_step m = Some (strOr (pl_step p) (strOr (lj_step row) ""))
        /\ lj_progress m
           = Some (default (default 0%Q (lj_progress row)) (pl_progress p))).
Proof.
  intros jobs r.
  split; [apply ReconcileFacts.reconcile_ok|].
  split; [apply ReconcileFacts.reconcile_unauthorized|].
  split.
  - intros i row. unfold reconciledSlot, asked. split.
    + intros ->. reflexivity.
    + intros ->. cbn [negb]. split; [|split; [|split]].
      * intros t p ->. reflexivity.
      * intros msg ->. reflexivity.
      * intros st t p -> Hne Hok. rewrite Hok.
        apply Nat.eqb_neq in Hne. now rewrite Hne.
      * intros st t p -> Hok. rewrite Hok.
        destruct (st =? 404)%nat eqn:E; [|reflexivity].
        apply Nat.eqb_eq in E. subst st. discriminate.
  - intros row p m. unfold m, mergeStatus. cbn.
    split; [repeat split|]. split; [reflexivity|]. split; reflexivity.
Qed.

(** The theorem at work on two cached records, the first one forgotten by
    the server and the second one in progress. *)
Lemma reconcile_by_response_witness :
  uploadedJobs
    (stateAfter (reconcileStoredJobsStatuses Sample.goneThenUpdated
                   Sample.twoCached))
  = [mergeStatus (Sample.record "B" 20) (Sample.status "processing" 55)].
Proof.
  destruct (reconcile_by_response Sample.goneThenUpdated Sample.twoCached)
    as (Hok & _).
  rewrite Hok; [reflexivity|].
  intros [|[|i]] row st t p Hi _ Hf; cbn in Hi, Hf; try discriminate;
    injection Hf as <- _ _; discriminate.
Defined.

(** The record of a job the server answered 404 for stays in the list when
    a later request is answered 401. *)
Lemma reconcile_keeps_gone_record_on_logout :
  Sample.goneThenLoggedOut 0 = Response 404 "not found"
                                 (MkStatusPayload None None None None None)
  /\ uploadedJobs
       (stateAfter (reconcileStoredJobsStatuses Sample.goneThenLoggedOut
                      Sample.twoCached))
     = [Sample.record "A" 10; Sample.record "B" 20].
Proof. split; reflexivity. Qed.

(** ** Where the progress of a job is kept *)

Module ProgressFacts.

Lemma clampPercent_bounds x : (0 <= clampPercent x <= 100)%Q.
Proof.
  unfold clampPercent. split.
  - apply Q.le_max_l.
  - apply Q.max_lub; [discriminate | apply Q.le_min_l].
Qed.

Lemma clampPercent_inside x : (0 <= x <= 100)%Q -> (clampPercent x == x)%Q.
Proof.
  intros [H0 H1]. unfold clampPercent.
  rewrite (Q.min_r 100 x H1). now apply Q.max_r.
Qed.

(** The cached record of the active job after [setStatus]. *)
Lemma setStatus_record payload s job idx old :
  jobId s = Some job -> Js.truthy job = true ->
  Js.truthy (Js.trim job) = true ->
  findIndex (fun j => String.eqb (jsString (lj_jobId j)) (Js.trim job))
    (uploadedJobs s) = Some idx ->
  uploadedJobs s !! idx = Some old ->
  uploadedJobs (stateAfter (setStatus payload s)) !! idx
  = Some (mergePartial old (statusPartial (Some job) payload)).
Proof.
  intros Hj Hjt Htt Hfind Hold.
  destruct (StatusFacts.setStatus_run payload s)
    as (jobs' & es & Hrun & _ & Hjobs).
  rewrite Hrun. unfold stateAfter at 1. cbn [fst snd]. st_simpl_goal.
  assert (truthyO (jobId s) = true) as Ht by (rewrite Hj; exact Hjt).
  specialize (Hjobs Ht).
  apply (f_equal uploadedJobs) in Hjobs. st_simpl. rewrite <- Hjobs.
  destruct (StatusFacts.updateJob_run (statusPartial (jobId s) payload)
              (statusShown payload s)) as (jobs2 & es2 & Hrun2 & _ & Hj2).
  rewrite Hrun2. unfold stateAfter. cbn [fst snd]. st_simpl_goal.
  rewrite Hj2. rewrite Hj.
  assert (Js.trim (strOr (pt_jobId (statusPartial (Some job) payload)) "")
          = Js.trim job) as ->.
  { cbn. unfold Js.orElse. now rewrite Hjt. }
  assert (uploadedJobs (statusShown payload s) = uploadedJobs s) as ->
    by reflexivity.
  rewrite Hfind, Htt, list_lookup_alter_eq, Hold. reflexivity.
Qed.

Lemma in_concat_imap {A B : Type} (f : nat -> A -> list B) l : forall i x y,
  l !! i = Some x -> In y (f i x) -> In y (concat (imap f l)).
Proof.
  revert f. induction l as [|a l IH]; intros f i x y Hi Hy; [discriminate|].
  rewrite imap_cons. cbn [concat]. apply in_or_app.
  destruct i as [|i].
  - left. injection Hi as ->. exact Hy.
  - right. exact (IH (f ∘ S) i x y Hi Hy).
Qed.

End ProgressFacts.

(** C7, for the one place that clamps. The progress that [setStatus] shows
    is the progress of the payload clamped to the interval from 0 to 100
    (and that progress itself when it lies inside). The cached record of the
    active job and the entry that reconciliation writes hold the progress of
    the payload as it came, clamped nowhere. *)
Theorem progress_clamped_where_shown (payload : StatusPayload) (s : State) :
  let r := setStatus payload s in
  let p := default 0%Q (pl_progress payload) in
  ((0 <= dom_jobProgress (stateAfter r) <= 100)%Q
   /\ dom_jobProgress (stateAfter r) = clampPercent p
   /\ ((0 <= p <= 100)%Q -> (dom_jobProgress (stateAfter r) == p)%Q))
  /\ (forall job idx old,
        jobId s = Some job -> Js.truthy job = true ->
        Js.truthy (Js.trim job) = true ->
        findIndex (fun j => String.eqb (jsString (lj_jobId j)) (Js.trim job))
          (uploadedJobs s) = Some idx ->
        uploadedJobs s !! idx = Some old ->
        exists rec,
          uploadedJobs (stateAfter r) !! idx = Some rec
          /\ lj_progress rec = Some p)
  /\ (forall fetchAt s0 i row st t,
        (forall i row st t p,
           take 100 (uploadedJobs s0) !! i = Some row -> asked row = true ->
           fetchAt i = Response st t p -> st <> 401%nat) ->
        take 100 (uploadedJobs s0) !! i = Some row -> asked row = true ->
        fetchAt i = Response st t payload -> isOk st = true ->
        exists rec,
          In rec (uploadedJobs
                    (stateAfter (reconcileStoredJobsStatuses fetchAt s0)))
          /\ lj_progress rec
             = Some (default (default 0%Q (lj_progress row))
                       (pl_progress payload))).
Proof.
  intros r p.
  assert (dom_jobProgress (stateAfter r) = clampPercent p) as Hshown.
  { unfold r. destruct (StatusFacts.setStatus_run payload s)
      as (jobs' & es & -> & _). reflexivity. }
  split; [|split].
  - rewrite Hshown. split; [apply ProgressFacts.clampPercent_bounds|].
    split; [reflexivity | apply ProgressFacts.clampPercent_inside].
  - intros job idx old Hj Hjt Htt Hfind Hold.
    exists (mergePartial old (statusPartial (Some job) payload)).
    split; [now apply ProgressFacts.setStatus_record | reflexivity].
  - intros fetchAt s0 i row st t Hno Hi Ha Hf Hok.
    exists (mergeStatus row payload). split; [|reflexivity].
    rewrite (ReconcileFacts.reconcile_ok fetchAt s0 Hno).
    apply (ProgressFacts.in_concat_imap _ _ i row _ Hi).
    unfold reconciledSlot. unfold asked in Ha. rewrite Ha, Hf, Hok. cbn [negb].
    destruct (st =? 404)%nat eqn:E; [|now left].
    apply Nat.eqb_eq in E. subst st. discriminate.
Qed.

(** The theorem at work on a payload that reports 150 percent. *)
Lemma progress_clamped_where_shown_witness :
  (0 <= dom_jobProgress
          (stateAfter (setStatus (Sample.status "processing" 150)
                         Sample.tracked)) <= 100)%Q
  /\ exists rec,
       uploadedJobs
         (stateAfter (setStatus (Sample.status "processing" 150)
                        Sample.tracked)) !! 0%nat = Some rec
       /\ lj_progress rec = Some 150%Q.
Proof.
  destruct (progress_clamped_where_shown (Sample.status "processing" 150)
              Sample.tracked) as ((Hb & _) & Hrec & _).
  split; [exact Hb|].
  exact (Hrec "J1" 0%nat (Sample.record "J1" 10)
           eq_refl eq_refl eq_refl eq_refl eq_refl).
Defined.

(** A payload that reports 150 percent: 100 is shown, but the cached record
    of the job and the reconciled entry both hold 150. *)
Lemma progress_stored_unclamped :
  let s' := stateAfter (setStatus (Sample.status "processing" 150)
                          Sample.tracked) in
  let s2 := stateAfter (reconcileStoredJobsStatuses Sample.overshoot
                          Sample.tracked) in
  dom_jobProgress s' = 100%Q
  /\ lj_progress <$> uploadedJobs s' = [Some 150%Q]
  /\ lj_progress <$> uploadedJobs s2 = [Some 150%Q]
  /\ ~ (150 <= 100)%Q.
Proof.
  split; [reflexivity|]. split; [reflexivity|]. split; [reflexivity|].
  unfold Qle. cbn. lia.
Qed.

(** ** Beginning the processing of an attachment *)

Module BeginFacts.

Lemma frame_crm s s' :
  frame s' = frame s -> crmProcessByAttachment s' = crmProcessByAttachment s.
Proof. intros H. unfold frame in H. inversion H. reflexivity. Qed.

(** A step that leaves the frame alone leaves the bindings alone. *)
Lemma keeps_crm_of_frame {A : Type} E (m : M A) :
  (forall fr, Keeps (fun s => frame s = fr) E m) ->
  forall v, Keeps (fun s => crmProcessByAttachment s = v) (fun _ => True) m.
Proof.
  intros H v s Hs. destruct (H (frame s) s eq_refl) as [Hf _].
  split; [|apply Forall_forall; intros; exact I].
  apply frame_crm in Hf. congruence.
Qed.

Ltac crm_side :=
  try exact I;
  try exact eq_refl;
  try assumption;
  try (st_simpl; assumption);
  try (unfold stopPolling, stopCrmStatusPolling; st_simpl; assumption).

Ltac crm_known :=
  idtac;
  lazymatch goal with
  | |- Keeps _ _ (flushPendingPageSaves _) =>
      apply (keeps_crm_of_frame _ _
               (fun fr => PollFacts.keeps_frame_flush fr _))
  | |- Keeps _ _ (loadResultData _) =>
      apply (keeps_crm_of_frame _ _
               (fun fr => PollFacts.keeps_frame_loadResultData fr _))
  end.

(** Activating a job never touches the bindings of the attachments. *)
Lemma keeps_crm_setActiveJob v id sw ai :
  Keeps (fun s => crmProcessByAttachment s = v) (fun _ => True)
    (setActiveJob id sw ai).
Proof.
  unfold setActiveJob, setStatus, updateUploadedJobIfExists, saveStoredJobs,
    startPolling, pollStatusBegin.
  cbv zeta.
  (keeps_using crm_known); crm_side.
Qed.

End BeginFacts.

Module BeginRun.

Lemma crm_startCrmStatusPolling s :
  crmProcessByAttachment (startCrmStatusPolling s) = crmProcessByAttachment s.
Proof. unfold startCrmStatusPolling. now destruct (crmStatusTimer s). Qed.

(** The [then] callback once the binding is written: whatever activating the
    job does, and whether or not it throws, the bindings stay as written. *)
Lemma settles_with_job attachmentId priorLabel btn st t job_id ai s :
  isOk st = true -> Js.truthy (Js.trim (strOr job_id "")) = true ->
  crmProcessByAttachment
    (stateAfter
       (beginProcessSettles attachmentId priorLabel btn
          (Response st t job_id) ai s))
  = <[attachmentId := MkBinding (Js.trim (strOr job_id "")) "queued" "queued" 0%Q]>
      (crmProcessByAttachment s).
Proof.
  intros Hok Hid.
  set (jobId := Js.trim (strOr job_id "")) in *.
  set (s1 := startCrmStatusPolling
               (set_crmProcessByAttachment
                  (<[attachmentId := MkBinding jobId "queued" "queued" 0%Q]>
                     (crmProcessByAttachment s)) s)).
  assert (crmProcessByAttachment s1
          = <[attachmentId := MkBinding jobId "queued" "queued" 0%Q]>
              (crmProcessByAttachment s)) as H1.
  { unfold s1. now rewrite crm_startCrmStatusPolling. }
  destruct (BeginFacts.keeps_crm_setActiveJob _ jobId true ai s1 H1) as [H2 _].
  unfold beginProcessSettles, tryCatch, mbind, M_bind, bind.
  rewrite (SaveFacts.api_ok _ _ _ _ Hok). fold jobId. rewrite Hid.
  cbn [negb].
  change (modify (fun s0 => set_crmProcessByAttachment
            (<[attachmentId := MkBinding jobId "queued" "queued" 0%Q]>
               (crmProcessByAttachment s0)) s0) s)
    with (Resolved tt,
          set_crmProcessByAttachment
            (<[attachmentId := MkBinding jobId "queued" "queued" 0%Q]>
               (crmProcessByAttachment s)) s, @nil Effect).
  cbn beta iota.
  change (modify startCrmStatusPolling
            (set_crmProcessByAttachment
               (<[attachmentId := MkBinding jobId "queued" "queued" 0%Q]>
                  (crmProcessByAttachment s)) s))
    with (Resolved tt, s1, @nil Effect).
  cbn beta iota.
  destruct (setActiveJob jobId true ai s1) as [[[[]|msg] s2] es2];
    cbn in H2 |- *; exact H2.
Qed.

End BeginRun.

(** C6, with the binding written when the response arrives. A click on the
    begin-process button of an attachment disables the button, labels it
    [Starting…] and sends the create request; the bindings are not touched.
    When the response carries a job id, the binding of the attachment is
    written then, with status and step [queued] and progress 0, and it stays
    whatever the activation of the job does. When the request fails, or the
    response carries no job id, the state is left as it was, the failure is
    alerted, and the button is enabled again with the label it had (or
    [Begin Process] if it had none). *)
Theorem begin_process_binding
    (attribute : string) (btn : Button) (s : State) :
  let attachmentId := Js.trim attribute in
  let priorLabel := Js.orElse (btn_textContent btn) "Begin Process" in
  Js.truthy attachmentId = true ->
  beginProcessClick attribute btn s
  = (Resolved (MkButton true "Starting…", Some (attachmentId, priorLabel)), s,
     [Sent (PostBeginProcess attachmentId)])
  /\ forall (clicked : Button) (res : FetchResult (option string))
            (ai : ActivateInputs),
       let r := beginProcessSettles attachmentId priorLabel clicked res ai s in
       (forall msg es,
          api res s = (Rejected msg, s, es) ->
          r = (Resolved (MkButton false priorLabel), s,
               es ++ [AlertNormalized "Begin process failed: " msg]))
       /\ (forall st t job_id,
             res = Response st t job_id -> isOk st = true ->
             Js.truthy (Js.trim (strOr job_id "")) = false ->
             r = (Resolved (MkButton false priorLabel), s,
                  [AlertNormalized "Begin process failed: " "missing_job_id"]))
       /\ (forall st t job_id,
             res = Response st t job_id -> isOk st = true ->
             Js.truthy (Js.trim (strOr job_id "")) = true ->
             crmProcessByAttachment (stateAfter r)
             = <[attachmentId := MkBinding (Js.trim (strOr job_id ""))
                                   "queued" "queued" 0%Q]>
                 (crmProcessByAttachment s)).
Proof.
  intros attachmentId priorLabel Hid. split.
  - unfold beginProcessClick. fold attachmentId priorLabel. rewrite Hid.
    reflexivity.
  - intros clicked res ai r. split; [|split].
    + intros msg es Hapi. unfold r, beginProcessSettles.
      step_simpl. rewrite Hapi. reflexivity.
    + intros st t job_id -> Hok Hno. unfold r, beginProcessSettles.
      unfold tryCatch, mbind, M_bind, bind.
      rewrite (SaveFacts.api_ok _ _ _ _ Hok), Hno. reflexivity.
    + intros st t job_id -> Hok Hyes.
      now apply BeginRun.settles_with_job.
Qed.

(** The theorem at work: the request of attachment [att-7] is refused. *)
Lemma begin_process_binding_witness :
  Js.truthy (Js.trim " att-7 ") = true
  /\ beginProcessSettles "att-7" "Begin Process"
       (MkButton true "Starting…") (NetworkError "offline")
       Sample.activation Sample.twoCached
     = (Resolved Sample.beginButton, Sample.twoCached,
        [AlertNormalized "Begin process failed: " "offline"]).
Proof.
  split; [reflexivity|].
  destruct (begin_process_binding " att-7 " Sample.beginButton
              Sample.twoCached eq_refl) as (_ & Hsettle).
  destruct (Hsettle (MkButton true "Starting…") (NetworkError "offline")
              Sample.activation) as (Hfail & _).
  exact (Hfail "offline" [] eq_refl).
Defined.

(** While the create request is in flight the attachment has no binding. *)
Lemma begin_process_no_binding_in_flight :
  let click := beginProcessClick "att-7" Sample.beginButton Sample.twoCached in
  effectsOf click = [Sent (PostBeginProcess "att-7")]
  /\ crmProcessByAttachment (stateAfter click) !! "att-7" = None.
Proof. split; reflexivity. Qed.

(** ** Escaping text for the document *)

Module HtmlFacts.
Import Html.

Lemma replaceAll_app c rep a b :
  replaceAll c rep (a +:+ b) = replaceAll c rep a +:+ replaceAll c rep b.
Proof.
  induction a as [|x a IH]; cbn [String.append replaceAll]; [reflexivity|].
  rewrite IH. destruct (Ascii.eqb x c); [|reflexivity].
  now rewrite JsFacts.app_assoc_str.
Qed.

(** The five replacements on one character: the entities written by an
    earlier replacement hold no character that a later one looks for. *)
Lemma escape_one c : escapeHtml (Some (String c EmptyString)) = escapeChar c.
Proof.
  unfold escapeHtml, escapeChar. cbn [from_option id replaceAll].
  destruct (Ascii.eqb c amp); [reflexivity|]. cbn [replaceAll].
  destruct (Ascii.eqb c lt); [reflexivity|]. cbn [replaceAll].
  destruct (Ascii.eqb c gt); [reflexivity|]. cbn [replaceAll].
  destruct (Ascii.eqb c dquote); [reflexivity|]. cbn [replaceAll].
  destruct (Ascii.eqb c squote); reflexivity.
Qed.

Lemma escape_app a b :
  escapeHtml (Some (a +:+ b)) = escapeHtml (Some a) +:+ escapeHtml (Some b).
Proof. unfold escapeHtml. cbn [from_option id]. now rewrite !replaceAll_app. Qed.

Lemma escape_each s : escapeHtml (Some s) = escapeEach s.
Proof.
  induction s as [|c s IH]; [reflexivity|].
  change (String c s) with (String c EmptyString +:+ s).
  rewrite escape_app, escape_one, IH. reflexivity.
Qed.

Lemma escapeChar_safe c : allChars isMarkupSafe (escapeChar c) = true.
Proof.
  unfold escapeChar, isMarkupSafe.
  destruct (Ascii.eqb c amp); [reflexivity|].
  destruct (Ascii.eqb c lt) eqn:E2; [reflexivity|].
  destruct (Ascii.eqb c gt) eqn:E3; [reflexivity|].
  destruct (Ascii.eqb c dquote) eqn:E4; [reflexivity|].
  destruct (Ascii.eqb c squote) eqn:E5; [reflexivity|].
  cbn [allChars]. now rewrite E2, E3, E4, E5.
Qed.

(** The code of the characters is prefix free: what follows the text of
    one character decides nothing about it. *)
Lemma escapeChar_prefix_free c1 c2 t1 t2 :
  escapeChar c1 +:+ t1 = escapeChar c2 +:+ t2 -> c1 = c2 /\ t1 = t2.
Proof.
  unfold escapeChar.
  destruct (Ascii.eqb c1 amp) eqn:A1; destruct (Ascii.eqb c2 amp) eqn:A2;
  destruct (Ascii.eqb c1 lt) eqn:B1; destruct (Ascii.eqb c2 lt) eqn:B2;
  destruct (Ascii.eqb c1 gt) eqn:C1; destruct (Ascii.eqb c2 gt) eqn:C2;
  destruct (Ascii.eqb c1 dquote) eqn:D1; destruct (Ascii.eqb c2 dquote) eqn:D2;
  destruct (Ascii.eqb c1 squote) eqn:E1; destruct (Ascii.eqb c2 squote) eqn:E2;
  repeat match goal with
    | H : Ascii.eqb _ _ = true |- _ => apply Ascii.eqb_eq in H
    end;
  subst; try discriminate;
  cbn [String.append]; intros H; try (injection H as ?; subst);
  try discriminate; try (split; congruence).
Qed.

End HtmlFacts.

(** Whatever the value, the text that [escapeHtml] gives holds no [<], no
    [>] and no quote of either kind: written into markup, it opens no tag
    and closes no attribute value. *)
Theorem escapeHtml_markup_safe (value : option string) :
  allChars isMarkupSafe (escapeHtml value) = true.
Proof.
  destruct value as [s|]; [|reflexivity].
  rewrite HtmlFacts.escape_each.
  induction s as [|c s IH]; [reflexivity|].
  cbn [escapeEach]. rewrite JsFacts.allChars_app, IH.
  now rewrite HtmlFacts.escapeChar_safe.
Qed.

(** Escaping works character by character, although the source runs five
    replacements one after the other over the whole text: the text of a
    concatenation is the concatenation of the texts, that of one character
    is its entity or the character itself, and an absent value gives the
    empty text. *)
Theorem escapeHtml_by_character (a b : string) (c : ascii) :
  escapeHtml (Some (a +:+ b)) = escapeHtml (Some a) +:+ escapeHtml (Some b)
  /\ escapeHtml (Some (String c EmptyString)) = escapeChar c
  /\ escapeHtml None = "".
Proof.
  split; [apply HtmlFacts.escape_app|].
  split; [apply HtmlFacts.escape_one | reflexivity].
Qed.

(** Two texts with the same escaped form are the same text: escaping loses
    nothing. *)
Theorem escapeHtml_injective (a b : string) :
  escapeHtml (Some a) = escapeHtml (Some b) -> a = b.
Proof.
  rewrite !HtmlFacts.escape_each. revert b.
  induction a as [|x a IH]; intros [|y b] H.
  - reflexivity.
  - exfalso. cbn [escapeEach] in H. unfold escapeChar in H.
    repeat match type of H with
      | context [if ?t then _ else _] => destruct t
      end; discriminate.
  - exfalso. cbn [escapeEach] in H. unfold escapeChar in H.
    repeat match type of H with
      | context [if ?t then _ else _] => destruct t
      end; discriminate.
  - cbn [escapeEach] in H.
    apply HtmlFacts.escapeChar_prefix_free in H as [-> H].
    now rewrite (IH b H).
Qed.

Lemma escapeHtml_injective_witness :
  escapeHtml (Some "Tom & <Jerry>") = escapeHtml (Some ("Tom " +:+ "& <Jerry>"))
  /\ "Tom & <Jerry>" = "Tom " +:+ "& <Jerry>".
Proof.
  split; [reflexivity|].
  exact (escapeHtml_injective "Tom & <Jerry>" ("Tom " +:+ "& <Jerry>") eq_refl).
Defined.

(** ** The processes of the attachments *)

Module CrmFacts.

Lemma normalize_range raw : isProcessStatus (normalizeProcessStatus raw).
Proof.
  unfold normalizeProcessStatus, isProcessStatus.
  set (st := Js.toLowerCase (Js.trim (strOr raw ""))).
  destruct (String.eqb st "done"); [right; cbn; tauto|].
  destruct (existsb (String.eqb st) knownProcessStatuses) eqn:E; [|now left].
  right. apply existsb_exists in E as (x & Hx & Heq).
  apply String.eqb_eq in Heq. now subst.
Qed.

Lemma normalize_fixed status :
  isProcessStatus status -> normalizeProcessStatus (Some status) = status.
Proof.
  intros [-> | H]; [reflexivity|].
  cbn in H. destruct H as [<-|[<-|[<-|[<-|[<-|[]]]]]]; reflexivity.
Qed.

(** The keys of the map built by the loop. *)
Lemma sync_loop_dom (prev : gmap string Binding) items : forall acc : gmap string Binding,
  dom (fold_left
         (fun next item =>
            if negb (Js.truthy (itemKey item)) then next
            else <[itemKey item := bindingOfItem (prev !! itemKey item) item]> next)
         items acc)
  = dom acc ∪ list_to_set (List.filter Js.truthy (itemKey <$> items)).
Proof.
  induction items as [|item items IH]; intros acc; cbn [fold_left].
  - cbn. now rewrite (right_id_L ∅ (∪)).
  - rewrite IH. cbn [fmap list_fmap List.filter].
    destruct (Js.truthy (itemKey item)); cbn [negb]; [|reflexivity].
    rewrite dom_insert_L. cbn [list_to_set].
    rewrite (comm_L (∪) {[itemKey item]} (dom acc)).
    now rewrite (assoc_L (∪)).
Qed.

(** Every binding of the map built by the loop is the binding of an item,
    once those of the start are. *)
Lemma sync_loop_bindings (P : Binding -> Prop) (prev : gmap string Binding) items :
  (forall item, In item items -> P (bindingOfItem (prev !! itemKey item) item)) ->
  forall acc : gmap string Binding,
  map_Forall (fun _ => P) acc ->
  map_Forall (fun _ => P)
    (fold_left
       (fun next item =>
          if negb (Js.truthy (itemKey item)) then next
          else <[itemKey item := bindingOfItem (prev !! itemKey item) item]> next)
       items acc).
Proof.
  induction items as [|item items IH]; intros Hit acc Hacc; cbn [fold_left];
    [exact Hacc|].
  apply IH; [intros i Hi; apply Hit; now right|].
  destruct (Js.truthy (itemKey item)); cbn [negb]; [|exact Hacc].
  apply map_Forall_insert_2; [apply Hit; now left | exact Hacc].
Qed.

End CrmFacts.

(** [normalizeProcessStatus] always gives one of six words, [not_started]
    or a known status, and gives a word of these six back as it is:
    normalising twice is normalising once. *)
Theorem normalizeProcessStatus_idempotent (rawStatus : option string) :
  isProcessStatus (normalizeProcessStatus rawStatus)
  /\ normalizeProcessStatus (Some (normalizeProcessStatus rawStatus))
     = normalizeProcessStatus rawStatus.
Proof.
  split; [apply CrmFacts.normalize_range|].
  apply CrmFacts.normalize_fixed, CrmFacts.normalize_range.
Qed.

(** After [syncCrmProcessMapFromItems] the attachments that have a binding
    are exactly those of the items, under their trimmed ids, an item without
    an id counting for nothing: a binding of an attachment that is no longer
    listed is dropped. Every binding carries a normalised status and a
    trimmed job id and step; nothing else of the state changes. *)
Theorem syncCrmProcessMapFromItems_bindings (items : list CrmItem) (s : State) :
  let s' := syncCrmProcessMapFromItems items s in
  dom (crmProcessByAttachment s')
  = list_to_set (List.filter Js.truthy (itemKey <$> items))
  /\ map_Forall
       (fun _ b =>
          isProcessStatus (bd_status b)
          /\ Js.trim (bd_jobId b) = bd_jobId b
          /\ Js.trim (bd_step b) = bd_step b)
       (crmProcessByAttachment s')
  /\ set_crmProcessByAttachment (crmProcessByAttachment s) s' = s.
Proof.
  intros s'. unfold s', syncCrmProcessMapFromItems. st_simpl_goal.
  fold itemKey.
  split; [|split].
  - change (fun next item => if negb (Js.truthy (Js.trim (strOr (attachment_id item) "")))
                             then next else _)
      with (fun (next : gmap string Binding) item =>
              if negb (Js.truthy (itemKey item)) then next
              else <[itemKey item :=
                       bindingOfItem (crmProcessByAttachment s !! itemKey item) item]>
                     next).
    rewrite (CrmFacts.sync_loop_dom (crmProcessByAttachment s)).
    now rewrite dom_empty_L, (left_id_L ∅ (∪)).
  - apply (CrmFacts.sync_loop_bindings _ (crmProcessByAttachment s)).
    + intros item _. unfold bindingOfItem. cbn [bd_status bd_jobId bd_step].
      split; [apply CrmFacts.normalize_range|].
      split; apply JsFacts.trim_idem.
    + apply map_Forall_empty.
  - destruct s. reflexivity.
Qed.

(** ** The cached job list *)

Module JobListFacts.

Lemma findIndex_Some {A : Type} (p : A -> bool) (l : list A) i :
  findIndex p l = Some i ->
  exists x, l !! i = Some x /\ p x = true
            /\ forall j y, (j < i)%nat -> l !! j = Some y -> p y = false.
Proof.
  revert i. induction l as [|a l IH]; intros i H; [discriminate|].
  cbn in H. destruct (p a) eqn:Ea.
  - injection H as <-. exists a. split; [reflexivity|]. split; [exact Ea|].
    intros j y Hj. lia.
  - destruct (findIndex p l) as [k|]; [|discriminate].
    injection H as <-. destruct (IH k eq_refl) as (x & Hx & Hp & Hbefore).
    exists x. split; [exact Hx|]. split; [exact Hp|].
    intros [|j] y Hj Hy; [cbn in Hy; congruence|].
    apply (Hbefore j y); [lia | exact Hy].
Qed.

Lemma findIndex_None {A : Type} (p : A -> bool) (l : list A) :
  findIndex p l = None -> forall x, In x l -> p x = false.
Proof.
  induction l as [|a l IH]; intros H x Hx; [destruct Hx|].
  cbn in H. destruct (p a) eqn:Ea; [discriminate|].
  destruct (findIndex p l) eqn:Ef; [discriminate|].
  destruct Hx as [<-|Hx]; [exact Ea | now apply IH].
Qed.

Lemma findIndex_first {A : Type} (p : A -> bool) (x : A) rest :
  p x = true -> findIndex p (x :: rest) = Some 0%nat.
Proof. intros H. cbn. now rewrite H. Qed.

Lemma findIndex_alter_same {A : Type} (p : A -> bool) (f : A -> A) (l : list A) i :
  findIndex p l = Some i -> (forall x, p x = true -> p (f x) = true) ->
  findIndex p (alter f i l) = Some i.
Proof.
  revert i. induction l as [|a l IH]; intros i H Hf; [discriminate|].
  cbn in H. destruct (p a) eqn:Ea.
  - injection H as <-. cbn. now rewrite (Hf a Ea).
  - destruct (findIndex p l) as [k|] eqn:Ek; [|discriminate].
    injection H as <-. cbn. rewrite Ea. now rewrite (IH k eq_refl Hf).
Qed.

End JobListFacts.

(** [updateUploadedJobIfExists] changes nothing but the cached job list, and
    of that list at most the first record whose job id is the trimmed id of
    the update: no record is added or removed, every other record stays as
    it is, and when no record has that id the state is left as it is and
    nothing is written to storage. *)
Theorem updateUploadedJobIfExists_touches_one (partial : JobPartial) (s : State) :
  let id := Js.trim (strOr (pt_jobId partial) "") in
  let r := updateUploadedJobIfExists partial s in
  length (uploadedJobs (stateAfter r)) = length (uploadedJobs s)
  /\ set_uploadedJobs (uploadedJobs s) (stateAfter r) = s
  /\ (forall i, findIndex (hasJobId id) (uploadedJobs s) <> Some i ->
                uploadedJobs (stateAfter r) !! i = uploadedJobs s !! i)
  /\ (findIndex (hasJobId id) (uploadedJobs s) = None ->
      r = (Resolved tt, s, [])).
Proof.
  intros id r.
  destruct (StatusFacts.updateJob_run partial s) as (jobs' & es & Hrun & _ & Hjobs).
  fold id in Hjobs. fold (hasJobId id) in Hjobs.
  assert (stateAfter r = set_uploadedJobs jobs' s) as Hs
    by (unfold r; now rewrite Hrun).
  rewrite Hs. st_simpl_goal.
  split; [|split; [|split]].
  - rewrite Hjobs. destruct (findIndex _ _); [|reflexivity].
    destruct (Js.truthy id); [apply length_alter | reflexivity].
  - destruct s. reflexivity.
  - intros i Hi. rewrite Hjobs.
    destruct (findIndex (hasJobId id) (uploadedJobs s)) as [k|]; [|reflexivity].
    destruct (Js.truthy id); [|reflexivity].
    apply list_lookup_alter_ne. congruence.
  - intros Hnone. unfold r, updateUploadedJobIfExists. cbv zeta.
    fold id. fold (hasJobId id).
    destruct (Js.truthy id); cbn [negb]; [|reflexivity].
    step_simpl. now rewrite Hnone.
Qed.

(** [upsertUploadedJob] with a record whose job id is trimmed and not empty:
    afterwards a record with that id is found, and the first one found is
    the record given; the list grows by one, at the front, when no record
    had the id, and keeps its length otherwise; and doing it twice leaves
    the list as doing it once. *)
Theorem upsertUploadedJob_then_found (partial : JobRecord) (id : string)
    (s : State) :
  lj_jobId partial = Some id -> Js.trim id = id -> id <> "" ->
  let s1 := stateAfter (upsertUploadedJob partial s) in
  (exists i, findIndex (hasJobId id) (uploadedJobs s1) = Some i
             /\ uploadedJobs s1 !! i = Some partial)
  /\ (findIndex (hasJobId id) (uploadedJobs s) = None ->
      uploadedJobs s1 = partial :: uploadedJobs s)
  /\ (is_Some (findIndex (hasJobId id) (uploadedJobs s)) ->
      length (uploadedJobs s1) = length (uploadedJobs s))
  /\ uploadedJobs (stateAfter (upsertUploadedJob partial s1)) = uploadedJobs s1.
Proof.
  intros Hid Htrim Hne s1.
  assert (Js.trim (strOr (lj_jobId partial) "") = id) as Hkey.
  { rewrite Hid. cbn. unfold Js.orElse.
    destruct id; [congruence | exact Htrim]. }
  assert (Js.truthy id = true) as Ht by (destruct id; [congruence|reflexivity]).
  assert (hasJobId id partial = true) as Hp.
  { unfold hasJobId. rewrite Hid. cbn. apply String.eqb_refl. }
  assert (forall s0,
    uploadedJobs (stateAfter (upsertUploadedJob partial s0))
    = match findIndex (hasJobId id) (uploadedJobs s0) with
      | Some idx => alter (fun _ => partial) idx (uploadedJobs s0)
      | None => partial :: uploadedJobs s0
      end) as Hrun.
  { intros s0. unfold upsertUploadedJob, saveStoredJobs. cbv zeta.
    rewrite Hkey, Ht. cbn [negb]. fold (hasJobId id). step_simpl.
    destruct (findIndex (hasJobId id) (uploadedJobs s0)); reflexivity. }
  assert (exists i, findIndex (hasJobId id) (uploadedJobs s1) = Some i
                    /\ uploadedJobs s1 !! i = Some partial) as Hfound.
  { unfold s1. rewrite Hrun.
    destruct (findIndex (hasJobId id) (uploadedJobs s)) as [k|] eqn:Ef.
    - exists k. split.
      + apply JobListFacts.findIndex_alter_same; [exact Ef | intros; exact Hp].
      + destruct (JobListFacts.findIndex_Some _ _ _ Ef) as (x & Hx & _).
        rewrite list_lookup_alter_eq, Hx. reflexivity.
    - exists 0%nat. split; [now apply JobListFacts.findIndex_first | reflexivity]. }
  split; [exact Hfound|]. split; [|split].
  - intros Hnone. unfold s1. now rewrite Hrun, Hnone.
  - intros [k Hk]. unfold s1. rewrite Hrun, Hk. apply length_alter.
  - rewrite Hrun. destruct Hfound as (i & -> & Hi).
    apply list_eq. intros j. destruct (decide (j = i)) as [->|Hji].
    + now rewrite list_lookup_alter_eq, Hi.
    + now rewrite list_lookup_alter_ne by congruence.
Qed.

Lemma upsertUploadedJob_then_found_witness :
  uploadedJobs
    (stateAfter (upsertUploadedJob (Sample.record "C" 1) Sample.twoCached))
  = [Sample.record "C" 1; Sample.record "A" 10; Sample.record "B" 20].
Proof.
  destruct (upsertUploadedJob_then_found (Sample.record "C" 1) "C"
              Sample.twoCached eq_refl eq_refl ltac:(discriminate))
    as (_ & Hnew & _).
  exact (Hnew eq_refl).
Defined.

Lemma updateUploadedJobIfExists_touches_one_witness :
  updateUploadedJobIfExists
    (MkJobPartial (Some "Z") "processing" "ocr" 5 None) Sample.twoCached
  = (Resolved tt, Sample.twoCached, []).
Proof.
  exact (proj2 (proj2 (proj2
           (updateUploadedJobIfExists_touches_one
              (MkJobPartial (Some "Z") "processing" "ocr" 5 None)
              Sample.twoCached))) eq_refl).
Defined.

Module StoredFacts.

Lemma keeps_any_of_frame {A : Type} E (E' : Effect -> Prop) (m : M A) :
  (forall e, E e -> E' e) ->
  (forall fr, Keeps (fun s => frame s = fr) E m) ->
  Keeps (fun _ => True) E' m.
Proof.
  intros HE H s _. destruct (H (frame s) s eq_refl) as [_ He].
  split; [exact I|]. eapply Forall_impl; [exact He | exact HE].
Qed.

Lemma kinds_store_nothing ks e :
  existsb (kindEqb KStored) ks = false -> ofKinds ks e -> storesAtMost 100 e.
Proof.
  intros Hks He. destruct e as [r| | | |jobs]; try exact I.
  unfold ofKinds in He. cbn [kindOf] in He. congruence.
Qed.

Ltac stored_known :=
  idtac;
  lazymatch goal with
  | |- Keeps _ _ (flushPendingPageSaves _) =>
      apply (keeps_any_of_frame _ _ _
               (fun e => kinds_store_nothing _ e eq_refl)
               (fun fr => PollFacts.keeps_frame_flush fr _))
  | |- Keeps _ _ (loadResultData _) =>
      apply (keeps_any_of_frame _ _ _
               (fun e => kinds_store_nothing _ e eq_refl)
               (fun fr => PollFacts.keeps_frame_loadResultData fr _))
  end.

Ltac stored_side :=
  try exact I;
  try (cbn [storesAtMost]; rewrite length_take; lia).

Lemma keeps_saveStoredJobs :
  Keeps (fun _ => True) (storesAtMost 100) saveStoredJobs.
Proof. unfold saveStoredJobs. keeps_go; stored_side. Qed.

Lemma keeps_setStatus payload :
  Keeps (fun _ => True) (storesAtMost 100) (setStatus payload).
Proof.
  unfold setStatus, updateUploadedJobIfExists, saveStoredJobs. cbv zeta.
  keeps_go; stored_side.
Qed.

Lemma keeps_setActiveJob id sw ai :
  Keeps (fun _ => True) (storesAtMost 100) (setActiveJob id sw ai).
Proof.
  unfold setActiveJob, setStatus, updateUploadedJobIfExists, saveStoredJobs,
    startPolling, pollStatusBegin.
  cbv zeta.
  (keeps_using stored_known); stored_side.
Qed.

Lemma keeps_pollStep e :
  Keeps (fun _ => True) (storesAtMost 100) (pollStep e).
Proof.
  destruct e as [|res li]; cbn [pollStep].
  - unfold pollStatusBegin. keeps_go; stored_side.
  - unfold pollStatusResume, setStatus, updateUploadedJobIfExists,
      saveStoredJobs.
    cbv zeta. (keeps_using stored_known); stored_side.
Qed.

Lemma keeps_reconcileLoop fetchAt rows : forall idx next,
  Keeps (fun _ => True) (storesAtMost 100) (reconcileLoop rows idx fetchAt next).
Proof.
  induction rows as [|row rest IH]; intros idx next; cbn [reconcileLoop].
  - apply keeps_ret.
  - (keeps_using
       (idtac;
        lazymatch goal with
        | |- Keeps _ _ (reconcileLoop _ _ _ _) => apply IH
        end)); stored_side.
Qed.

Lemma keeps_reconcile fetchAt :
  Keeps (fun _ => True) (storesAtMost 100) (reconcileStoredJobsStatuses fetchAt).
Proof.
  unfold reconcileStoredJobsStatuses, saveStoredJobs.
  (keeps_using
     (idtac;
      lazymatch goal with
      | |- Keeps _ _ (reconcileLoop _ _ _ _) => apply keeps_reconcileLoop
      end)); stored_side.
Qed.

End StoredFacts.

(** Whatever the job list in memory holds, a write of it to local storage
    holds at most 100 records: this is so of every write made while a job
    is activated, while the poll loop runs, while the cached list is
    reconciled with the server, when a status is shown and when a record is
    added. *)
Theorem stored_job_list_bounded (s : State) :
  (forall id sw ai,
     Forall (storesAtMost 100) (effectsOf (setActiveJob id sw ai s)))
  /\ (forall events,
        Forall (storesAtMost 100) (effectsOf (runPoll events s)))
  /\ (forall fetchAt,
        Forall (storesAtMost 100)
          (effectsOf (reconcileStoredJobsStatuses fetchAt s)))
  /\ (forall payload,
        Forall (storesAtMost 100) (effectsOf (setStatus payload s)))
  /\ (forall partial,
        Forall (storesAtMost 100) (effectsOf (upsertUploadedJob partial s))).
Proof.
  split; [|split; [|split; [|split]]].
  - intros id sw ai. exact (proj2 (StoredFacts.keeps_setActiveJob id sw ai s I)).
  - intros events.
    exact (proj2 (keeps_forEach _ _ pollStep events StoredFacts.keeps_pollStep
                    s I)).
  - intros fetchAt. exact (proj2 (StoredFacts.keeps_reconcile fetchAt s I)).
  - intros payload. exact (proj2 (StoredFacts.keeps_setStatus payload s I)).
  - intros partial.
    assert (Keeps (fun _ => True) (storesAtMost 100) (upsertUploadedJob partial))
      as H.
    { unfold upsertUploadedJob, saveStoredJobs. cbv zeta.
      keeps_go; StoredFacts.stored_side. }
    exact (proj2 (H s I)).
Qed.

(** ** What a save sends and what its response leaves *)

Module PayloadFacts.

Lemma format_idem (v : option string) :
  formatAmountCellValue (Some (formatAmountCellValue v))
  = formatAmountCellValue v.
Proof.
  destruct v as [v|]; [|reflexivity].
  destruct (formatAmountCellValue_cases v)
    as [-> | [(Ht & Hp & ->) | (d & _ & ->)]].
  - reflexivity.
  - apply AmountFacts.format_unparsed; assumption.
  - rewrite AmountFacts.toLocale2_canon. apply AmountFacts.format_canon.
Qed.

Lemma pad3_digits n : allChars Js.isDigit (Js.pad3 n) = true.
Proof.
  unfold Js.pad3. pose proof (JsFacts.digitsOf_allDigits n) as H.
  destruct (String.length (Js.digitsOf n)) as [|[|[|k]]]; try exact H;
    rewrite JsFacts.allChars_app, H; reflexivity.
Qed.

Lemma pad3_truthy n : Js.truthy (Js.pad3 n) = true.
Proof.
  unfold Js.pad3. destruct (JsFacts.digitsOf_cons n) as (c & r & ->).
  destruct (String.length (String c r)) as [|[|[|k]]]; reflexivity.
Qed.

Lemma trim_pad3 n : Js.trim (Js.pad3 n) = Js.pad3 n.
Proof.
  apply JsFacts.trim_nospace.
  eapply JsFacts.allChars_weaken; [|apply pad3_digits].
  intros c. apply AmountFacts.digit_not_space.
Qed.

Lemma truthy_ne s : Js.truthy s = true -> s <> "".
Proof. destruct s; [discriminate | discriminate]. Qed.

(** The id that rendering or a save gives a row is a rendered id. *)
Lemma rowIdAt_rendered i r :
  Js.trim (rowIdAt i r) = rowIdAt i r /\ Js.truthy (rowIdAt i r) = true.
Proof.
  unfold rowIdAt, Js.orElse.
  destruct (Js.truthy (Js.trim (strOr (row_id r) ""))) eqn:E.
  - split; [apply JsFacts.trim_idem | exact E].
  - split; [apply trim_pad3 | apply pad3_truthy].
Qed.

Lemma payloadRow_normal i r : isNormalRow (payloadRow i r).
Proof.
  destruct (rowIdAt_rendered i r) as [Ht Hn].
  unfold isNormalRow, payloadRow, hasRenderedId.
  cbn [row_id date description debit credit balance].
  split; [exists (rowIdAt i r); repeat split; [exact Ht | now apply truthy_ne]|].
  split; [eexists; split; [reflexivity | apply JsFacts.trim_idem]|].
  split; [eexists; split; [reflexivity | apply JsFacts.trim_idem]|].
  split; [eexists; split; [reflexivity | apply format_idem]|].
  split; eexists; (split; [reflexivity | apply format_idem]).
Qed.

Lemma strOr_rendered id d :
  Js.trim id = id -> id <> "" -> Js.trim (strOr (Some id) d) = id.
Proof.
  intros Ht Hn. cbn. unfold Js.orElse.
  destruct id; [congruence | exact Ht].
Qed.

Lemma payloadRow_fixed i r : isNormalRow r -> payloadRow i r = r.
Proof.
  intros ((id & Hid & Ht & Hn) & (d & Hd & Hdt) & (de & Hde & Hdet)
          & (a & Ha & Haf) & (b & Hb & Hbf) & (c & Hc & Hcf)).
  destruct r as [rid rd rde rdb rcr rba].
  cbn [row_id date description debit credit balance] in *. subst.
  unfold payloadRow, rowIdAt.
  cbn [row_id date description debit credit balance normalizeEditableCellValue].
  rewrite (strOr_rendered id "" Ht Hn).
  unfold Js.orElse.
  assert (Js.truthy id = true) as -> by (destruct id; [congruence|reflexivity]).
  now rewrite Hdt, Hdet, Haf, Hbf, Hcf.
Qed.

Lemma copyRow_normal e r : isNormalRow r -> copyRow e r = r.
Proof.
  intros ((id & Hid & Ht & Hn) & (d & Hd & Hdt) & (de & Hde & Hdet)
          & (a & Ha & Haf) & (b & Hb & Hbf) & (c & Hc & Hcf)).
  destruct r as [rid rd rde rdb rcr rba].
  cbn [row_id date description debit credit balance] in *. subst.
  unfold copyRow.
  cbn [row_id date description debit credit balance normalizeEditableCellValue].
  rewrite (strOr_rendered id _ Ht Hn).
  now rewrite Hdt, Hdet, Haf, Hbf, Hcf.
Qed.

Lemma copyRows_normal incoming : forall existing,
  length existing = length incoming -> Forall isNormalRow incoming ->
  copyRows existing incoming = incoming.
Proof.
  induction incoming as [|r rs IH]; intros [|e es] Hlen Hall;
    try discriminate; [reflexivity|].
  inversion Hall; subst. cbn [copyRows].
  rewrite copyRow_normal by assumption. f_equal.
  apply IH; [cbn in Hlen; lia | assumption].
Qed.

Lemma imap_payload_normal (rows : list Row) :
  Forall isNormalRow (imap payloadRow rows).
Proof.
  apply Forall_forall. intros r Hr.
  apply elem_of_lookup_imap in Hr as (i & x & -> & _).
  apply payloadRow_normal.
Qed.

Lemma normal_rendered rows : Forall isNormalRow rows -> Forall hasRenderedId rows.
Proof. intros H. eapply Forall_impl; [exact H|]. intros r Hr. apply Hr. Qed.

End PayloadFacts.

(** What a save sends is normalised for good: the row that a save sends has
    a rendered id, trimmed text cells and normalised amounts, and sending
    such a row again, at any position, sends it unchanged. *)
Theorem payloadRow_idempotent (i j : nat) (r : Row) :
  isNormalRow (payloadRow i r)
  /\ payloadRow j (payloadRow i r) = payloadRow i r.
Proof.
  split; [apply PayloadFacts.payloadRow_normal|].
  apply PayloadFacts.payloadRow_fixed, PayloadFacts.payloadRow_normal.
Qed.

Module EchoFacts.

Lemma clearStaleSelection_rows rows s :
  parsedByPage (clearStaleSelection rows s) = parsedByPage s.
Proof. unfold clearStaleSelection. repeat case_match; reflexivity. Qed.

(** A current response whose rows are normal and as many as the rows in
    memory leaves exactly its rows on the page. *)
Lemma apply_normal page rows sent summary s :
  Js.truthy page = true ->
  parsedByPage s !! page = Some rows -> length rows = length sent ->
  Forall isNormalRow sent ->
  parsedByPage (applySaveResponse page (MkSavePayload (Some sent) summary) s)
    !! page = Some sent.
Proof.
  intros Hp Hrows Hlen Hall. unfold applySaveResponse.
  cbn [sp_rows].
  change (parsedByPage (recomputeTotalParsedRows ?x)) with (parsedByPage x).
  rewrite clearStaleSelection_rows. unfold reconcileRows.
  rewrite Hrows. cbn [default from_option id].
  destruct ((length rows =? length sent)%nat && sameIds 0 rows sent).
  - st_simpl_goal. rewrite lookup_insert_eq.
    now rewrite PayloadFacts.copyRows_normal.
  - destruct (decide _) as [Hc|Hc].
    + st_simpl. unfold renderRows. st_simpl_goal. rewrite Hc, Hp.
      cbn [negb].
      change (parsedByPage (recomputeTotalParsedRows ?x)) with (parsedByPage x).
      st_simpl_goal. rewrite lookup_insert_eq. st_simpl_goal.
      rewrite lookup_insert_eq.
      rewrite (ReverseFacts.imap_rendered withRowId sent
                 ReverseFacts.withRowId_rendered
                 (PayloadFacts.normal_rendered sent Hall)).
      reflexivity.
    + st_simpl_goal. apply lookup_insert_eq.
Qed.

End EchoFacts.

(** A save of a page and its echo. With a job active, the save of a page
    that has rows bumps the token of the page and sends the rows
    normalised, leaving the rows in memory as they are; and when the server
    answers with the rows it was sent, and no other save of the page went
    out meanwhile, the rows in memory become the rows sent, whether they
    are copied in place or put in their place. *)
Theorem echoed_save_leaves_sent_rows
    (s : State) (page job : string) (rows : list Row) :
  jobId s = Some job -> Js.truthy job = true ->
  Js.trim page = page -> Js.truthy page = true ->
  parsedByPage s !! page = Some rows ->
  let sent := imap payloadRow rows in
  let token := (default 0 (pageSaveTokenByPage s !! page) + 1)%nat in
  let s1 :=
    set_pageSaveTokenByPage (<[page := token]> (pageSaveTokenByPage s)) s in
  persistBegin page s
  = (Resolved (Some token), s1, [Sent (PutParsed job page sent)])
  /\ forall status text summary,
       isOk status = true ->
       parsedByPage
         (stateAfter
            (persistResume page token
               (Response status text (MkSavePayload (Some sent) summary)) s1))
       !! page = Some sent.
Proof.
  intros Hj Hjt Hp Hpt Hrows sent token s1. split.
  - unfold persistBegin. step_simpl. rewrite Hp, Hj. cbn [truthyO].
    rewrite Hjt, Hpt. cbn [negb orb]. rewrite Hrows.
    cbn [default from_option id strOr]. unfold Js.orElse. rewrite Hjt.
    reflexivity.
  - intros status text summary Hok.
    rewrite SaveFacts.persistResume_current;
      [|exact Hok | rewrite Hp; apply lookup_insert_eq].
    rewrite Hp. apply (EchoFacts.apply_normal page rows).
    + exact Hpt.
    + exact Hrows.
    + unfold sent. now rewrite length_imap.
    + apply PayloadFacts.imap_payload_normal.
Qed.

Lemma echoed_save_leaves_sent_rows_witness :
  let sent := imap payloadRow Sample.twoRows in
  let s1 := stateAfter (persistBegin "page_001" Sample.editing) in
  effectsOf (persistBegin "page_001" Sample.editing)
  = [Sent (PutParsed "J1" "page_001" sent)]
  /\ parsedByPage
       (stateAfter
          (persistResume "page_001" 1
             (Response 200 "" (MkSavePayload (Some sent) None)) s1))
     !! "page_001" = Some sent.
Proof.
  destruct (echoed_save_leaves_sent_rows Sample.editing "page_001" "J1"
              Sample.twoRows eq_refl eq_refl eq_refl eq_refl eq_refl)
    as [Hsend Hecho].
  split; [now rewrite Hsend|].
  rewrite Hsend. exact (Hecho 200%nat "" None eq_refl).
Defined.

(** ** Flushing the pending saves *)

Module FlushFacts.

Lemma lookup_delete_all {V : Type} (l : list string) (m : gmap string V) k :
  foldr (fun page timers => delete page timers) m l !! k
  = if decide (k ∈ l) then None else m !! k.
Proof.
  induction l as [|p l IH]; cbn [foldr].
  - destruct (decide (k ∈ [])) as [H|_]; [|reflexivity].
    now apply elem_of_nil in H.
  - destruct (decide (k = p)) as [->|Hne].
    + rewrite lookup_delete_eq.
      destruct (decide (p ∈ p :: l)) as [_|H]; [reflexivity|].
      exfalso. apply H. now left.
    + rewrite lookup_delete_ne by congruence. rewrite IH.
      destruct (decide (k ∈ l)) as [H|H];
        destruct (decide (k ∈ p :: l)) as [H'|H']; try reflexivity.
      * exfalso. apply H'. now right.
      * exfalso. apply elem_of_cons in H' as [?|?]; [congruence | contradiction].
Qed.

Lemma delete_all_keys {V : Type} (m : gmap string V) :
  foldr (fun page timers => delete page timers) m (map_to_list m).*1 = ∅.
Proof.
  apply map_eq. intros k. rewrite lookup_delete_all, lookup_empty.
  destruct (decide (k ∈ (map_to_list m).*1)) as [_|H]; [reflexivity|].
  destruct (m !! k) as [v|] eqn:E; [|reflexivity].
  exfalso. apply H. apply list_elem_of_fmap. exists (k, v).
  split; [reflexivity|]. now apply elem_of_map_to_list.
Qed.

Lemma renderRows_timers s : pageSaveTimers (renderRows s) = pageSaveTimers s.
Proof.
  unfold renderRows, recomputeTotalParsedRows. repeat case_match; reflexivity.
Qed.

Lemma applySaveResponse_timers p payload s :
  pageSaveTimers (applySaveResponse p payload s) = pageSaveTimers s.
Proof.
  unfold applySaveResponse, recomputeTotalParsedRows, clearStaleSelection,
    reconcileRows.
  repeat case_match; cbn; rewrite ?renderRows_timers; reflexivity.
Qed.

Ltac timers_side :=
  try exact I;
  try assumption;
  try (st_simpl; assumption);
  try (rewrite applySaveResponse_timers; assumption).

(** Sending the saves and taking their responses sets no timer. *)
Lemma keeps_idle_saves saves pendingPages :
  Keeps (fun s => pageSaveTimers s = ∅) (fun _ => True)
    (sent ← mapM (fun page => token ← persistBegin page; mret (page, token))
              pendingPages;
     forEach (fun '(page, token) =>
                match token with
                | Some t => settle (persistResume page t (saves page));; mret tt
                | None => mret tt
                end) sent).
Proof.
  unfold persistBegin, persistResume. keeps_go; timers_side.
Qed.

Lemma stateAfter_prefixed {A : Type} (r : Outcome A * State * list Effect) es :
  stateAfter (let '(o, s2, e2) := r in (o, s2, es ++ e2)) = stateAfter r.
Proof. destruct r as [[o s2] e2]. reflexivity. Qed.

Lemma flush_timers saves s :
  pageSaveTimers (stateAfter (flushPendingPageSaves saves s)) = ∅.
Proof.
  unfold flushPendingPageSaves.
  unfold mbind at 1, M_bind at 1, bind at 1, gets at 1. cbn beta iota.
  destruct ((map_to_list (pageSaveTimers s)).*1) as [|p ps] eqn:Ek.
  - cbn. apply fmap_nil_inv in Ek. now apply map_to_list_empty_iff in Ek.
  - rewrite ReverseFacts.modify_then.
    match goal with
    | |- context [set_pageSaveTimers ?v s] =>
        assert (pageSaveTimers (set_pageSaveTimers v s) = ∅) as H0
    end.
    { st_simpl_goal. rewrite <- Ek. apply delete_all_keys. }
    rewrite stateAfter_prefixed.
    exact (proj1 (keeps_idle_saves saves (p :: ps) _ H0)).
Qed.

End FlushFacts.

(** [flushPendingPageSaves] never fails, whatever the saves are answered,
    and leaves no save pending: afterwards no page has a timer. It sends
    nothing but saves (and the redirect to the login on a 401), and leaves
    the job, the poll timer, the cached job list and what is shown of the
    status as they were. *)
Theorem flushPendingPageSaves_leaves_none_pending
    (saves : string -> FetchResult SavePayload) (s : State) :
  let r := flushPendingPageSaves saves s in
  outcomeOf r = Resolved tt
  /\ pageSaveTimers (stateAfter r) = ∅
  /\ frame (stateAfter r) = frame s
  /\ Forall (ofKinds [KSave; KRedirect]) (effectsOf r).
Proof.
  intros r. split; [|split].
  - destruct (LoadRun.flush_total saves s) as [[] H]. exact H.
  - apply FlushFacts.flush_timers.
  - exact (PollFacts.keeps_frame_flush (frame s) saves s eq_refl).
Qed.

(** ** Inserting and deleting rows *)

Module RowIdFacts.
Import Js JsFacts Num NumFacts.

Lemma append_empty (s : string) : s +:+ "" = s.
Proof. induction s as [|c s IH]; cbn; [reflexivity | now rewrite IH]. Qed.

Lemma scan_all_digitsOf n cnt :
  scanDigits 0 cnt (digitsOf n)
  = (n, (cnt + String.length (digitsOf n))%nat, EmptyString).
Proof.
  rewrite <- (append_empty (digitsOf n)) at 1. now rewrite scan_digitsOf.
Qed.

Lemma scan_zero cnt s :
  scanDigits 0 cnt (String "0"%char s) = scanDigits 0 (S cnt) s.
Proof. reflexivity. Qed.

Lemma scan_pad3 n :
  exists cnt, scanDigits 0 0 (pad3 n) = (n, S cnt, EmptyString).
Proof.
  unfold pad3. pose proof (digitsOf_length n) as Hlen.
  destruct (String.length (digitsOf n)) as [|[|[|k]]] eqn:E; [lia| | |].
  - cbn [String.append]. rewrite !scan_zero, scan_all_digitsOf. eauto.
  - cbn [String.append]. rewrite !scan_zero, scan_all_digitsOf. eauto.
  - rewrite scan_all_digitsOf, E. eauto.
Qed.

Lemma pad3_first_digit n : exists c r, pad3 n = String c r /\ isDigit c = true.
Proof.
  pose proof (PayloadFacts.pad3_digits n) as Hd.
  pose proof (PayloadFacts.pad3_truthy n) as Ht.
  destruct (pad3 n) as [|c r]; [discriminate|].
  cbn in Hd. apply andb_true_iff in Hd as [Hc _]. eauto.
Qed.

Lemma parseInt10_pad3 n : parseInt10 (pad3 n) = Some (false, n).
Proof.
  unfold parseInt10.
  destruct (pad3_first_digit n) as (c & r & E & Hc).
  assert (trimStart (pad3 n) = pad3 n) as ->.
  { apply trimStart_fixed. rewrite E. cbn.
    pose proof (AmountFacts.digit_not_space c Hc) as H.
    now apply negb_true_iff in H. }
  assert (splitSign (pad3 n) = (false, pad3 n)) as ->.
  { rewrite E. now apply AmountFacts.splitSign_digit. }
  destruct (scan_pad3 n) as (cnt & ->). reflexivity.
Qed.

Lemma nextMax_ge max idx row : max <= nextMax max idx row.
Proof.
  unfold nextMax. destruct (parseInt10 _) as [[sgn v]|]; [|lia].
  destruct (overflowAt <=? v); [lia|]. destruct sgn; lia.
Qed.

Lemma maxRowFrom_ge rows : forall idx max, max <= maxRowFrom idx rows max.
Proof.
  induction rows as [|row rest IH]; intros idx max; cbn [maxRowFrom]; [lia|].
  pose proof (nextMax_ge max idx row). pose proof (IH (S idx) (nextMax max idx row)).
  lia.
Qed.

(** A row whose trimmed id reads as the number [v] keeps the maximum at
    [v] or above. *)
Lemma maxRowFrom_row rows : forall idx max i row v,
  rows !! i = Some row ->
  Js.truthy (Js.trim (strOr (row_id row) "")) = true ->
  parseInt10 (Js.trim (strOr (row_id row) "")) = Some (false, v) ->
  v < overflowAt ->
  v <= maxRowFrom idx rows max.
Proof.
  induction rows as [|r rest IH]; intros idx max i row v Hi Ht Hp Hv;
    [discriminate|].
  cbn [maxRowFrom]. destruct i as [|i].
  - injection Hi as ->.
    pose proof (maxRowFrom_ge rest (S idx) (nextMax max idx row)) as Hge.
    assert (v <= nextMax max idx row); [|lia].
    unfold nextMax, Js.orElse. rewrite Ht, Hp.
    apply N.leb_gt in Hv. rewrite Hv. lia.
  - exact (IH (S idx) _ i row v Hi Ht Hp Hv).
Qed.

Lemma overflowAt_big : 2 ^ 53 < overflowAt.
Proof. vm_compute. reflexivity. Qed.

Lemma fresh rows i row :
  maxRowFrom 0 rows 0 < 2 ^ 53 ->
  rows !! i = Some row ->
  Js.trim (strOr (row_id row) "") <> buildNextRowId rows.
Proof.
  intros Hb Hi Heq. unfold buildNextRowId in Heq.
  set (M := maxRowFrom 0 rows 0) in *.
  assert (M + 1 <= M); [|lia].
  apply (maxRowFrom_row rows 0 0 i row (M + 1) Hi).
  - rewrite Heq. apply PayloadFacts.pad3_truthy.
  - rewrite Heq. apply parseInt10_pad3.
  - pose proof overflowAt_big. lia.
Qed.

End RowIdFacts.

(** The id that [buildNextRowId] gives is new: as long as the numbers read
    from the row ids stay below 2^53, it is the trimmed id of no row of the
    list, so no row is found under it; and it is an id as rendering writes
    them, trimmed and not empty. *)
Theorem buildNextRowId_fresh (rows : list Row) :
  (maxRowFrom 0 rows 0 < 2 ^ 53)%N ->
  let id := buildNextRowId rows in
  Forall (fun row => Js.trim (strOr (row_id row) "") <> id) rows
  /\ findIndex (isRow (Some id)) rows = None
  /\ Js.trim id = id /\ id <> "".
Proof.
  intros Hb id.
  assert (Js.trim id = id) as Htrim by apply PayloadFacts.trim_pad3.
  assert (Js.truthy id = true) as Ht by apply PayloadFacts.pad3_truthy.
  assert (Forall (fun row => Js.trim (strOr (row_id row) "") <> id) rows)
    as Hall.
  { apply Forall_lookup. intros i row Hi.
    now apply (RowIdFacts.fresh rows i row Hb). }
  split; [exact Hall|]. split; [|split; [exact Htrim|]].
  - destruct (findIndex (isRow (Some id)) rows) as [k|] eqn:Ef; [|reflexivity].
    exfalso.
    destruct (JobListFacts.findIndex_Some _ _ _ Ef) as (row & Hrow & Hp & _).
    rewrite Forall_lookup in Hall. apply (Hall k row Hrow).
    unfold isRow in Hp. apply String.eqb_eq in Hp. rewrite Hp.
    cbn [strOr]. unfold Js.orElse. now rewrite Ht.
  - now apply PayloadFacts.truthy_ne.
Qed.

Lemma buildNextRowId_fresh_witness :
  (maxRowFrom 0 Sample.twoRows 0 < 2 ^ 53)%N
  /\ buildNextRowId Sample.twoRows = "003"
  /\ findIndex (isRow (Some "003")) Sample.twoRows = None.
Proof.
  assert (maxRowFrom 0 Sample.twoRows 0 < 2 ^ 53)%N as Hb
    by (vm_compute; reflexivity).
  split; [exact Hb|]. split; [reflexivity|].
  exact (proj1 (proj2 (buildNextRowId_fresh Sample.twoRows Hb))).
Defined.

Module RowEditFacts.

Lemma findIndex_lt {A : Type} (p : A -> bool) (l : list A) i :
  findIndex p l = Some i -> (i < length l)%nat.
Proof.
  intros H. destruct (JobListFacts.findIndex_Some p l i H) as (x & Hx & _).
  now apply lookup_lt_Some in Hx.
Qed.

Lemma findIndex_app_first {A : Type} (p : A -> bool) (l1 l2 : list A) y :
  (forall x, In x l1 -> p x = false) -> p y = true ->
  findIndex p (l1 ++ y :: l2) = Some (length l1).
Proof.
  intros Hno Hy. induction l1 as [|a l1 IH]; cbn.
  - now rewrite Hy.
  - rewrite (Hno a (or_introl eq_refl)), IH; [reflexivity|].
    intros x Hx. apply Hno. now right.
Qed.

Lemma delete_middle {A : Type} (l1 l2 : list A) y :
  delete (length l1) (l1 ++ y :: l2) = l1 ++ l2.
Proof. induction l1 as [|a l1 IH]; cbn; [reflexivity | f_equal; exact IH]. Qed.

(** Rendering the current page writes the ids of its rows and touches
    nothing else but the total. *)
Lemma render_current t page rows :
  currentPage t = Some page -> Js.truthy page = true ->
  parsedByPage t !! page = Some rows ->
  parsedByPage (renderRows t) !! page = Some (imap withRowId rows)
  /\ jobId (renderRows t) = jobId t /\ now (renderRows t) = now t
  /\ selectedRowId (renderRows t) = selectedRowId t
  /\ currentPage (renderRows t) = currentPage t
  /\ pageSaveTimers (renderRows t) = pageSaveTimers t.
Proof.
  intros Hc Hp Hrows. unfold renderRows, recomputeTotalParsedRows.
  rewrite Hc, Hp. cbn [negb]. st_simpl_goal. rewrite Hrows. st_simpl_goal.
  rewrite lookup_insert_eq. repeat split; assumption.
Qed.

Lemma rendered_id row :
  hasRenderedId row ->
  exists id, row_id row = Some id /\ Js.trim id = id /\ Js.truthy id = true
             /\ strOr (row_id row) "" = id.
Proof.
  intros (id & Hid & Ht & Hn). exists id.
  assert (Js.truthy id = true) as Htr by (destruct id; [congruence|reflexivity]).
  repeat split; try assumption.
  rewrite Hid. cbn. unfold Js.orElse. now rewrite Htr.
Qed.

(** Among rendered rows no row is found under the new id. *)
Lemma new_id_not_among rows :
  (maxRowFrom 0 rows 0 < 2 ^ 53)%N ->
  forall row, In row rows -> isRow (Some (buildNextRowId rows)) row = false.
Proof.
  intros Hb row Hin. apply list_elem_of_In in Hin.
  apply list_elem_of_lookup in Hin as (i & Hi).
  pose proof (RowIdFacts.fresh rows i row Hb Hi) as Hne.
  unfold isRow. apply String.eqb_neq. intros Heq. apply Hne.
  rewrite Heq. apply PayloadFacts.strOr_rendered.
  - apply PayloadFacts.trim_pad3.
  - apply PayloadFacts.truthy_ne, PayloadFacts.pad3_truthy.
Qed.

Lemma new_row_rendered rows :
  hasRenderedId
    (MkRow (Some (buildNextRowId rows)) (Some "") (Some "") (Some "")
       (Some "") (Some "")).
Proof.
  exists (buildNextRowId rows). split; [reflexivity|].
  split; [apply PayloadFacts.trim_pad3|].
  apply PayloadFacts.truthy_ne, PayloadFacts.pad3_truthy.
Qed.

End RowEditFacts.

Module RowEditRun.
Import RowEditFacts.

Lemma queue_selected page u :
  selectedRowId (queuePageRowsSave page u) = selectedRowId u.
Proof. unfold queuePageRowsSave. case_match; reflexivity. Qed.

Lemma render_selected u : selectedRowId (renderRows u) = selectedRowId u.
Proof.
  unfold renderRows, recomputeTotalParsedRows. repeat case_match; reflexivity.
Qed.

Section OnCurrentPage.
Variables (s : State) (page job : string) (rows : list Row).
Hypothesis Hj : jobId s = Some job.
Hypothesis Hjt : Js.truthy job = true.
Hypothesis Hc : currentPage s = Some page.
Hypothesis Hp : Js.trim page = page.
Hypothesis Hpt : Js.truthy page = true.
Hypothesis Hrows : parsedByPage s !! page = Some rows.

(** What the steps shared by an insertion and a deletion leave: the rows
    put on the page are rendered and a save of the page is queued. *)
Lemma put_render_queue (rows' : list Row) (sel : option string -> option string) :
  let t := set_selectedRowId (sel (selectedRowId s))
             (set_parsedByPage (<[page := rows']> (parsedByPage s)) s) in
  forall g : State -> State,
    (forall u, parsedByPage (g u) = parsedByPage u /\ jobId (g u) = jobId u
               /\ now (g u) = now u /\ currentPage (g u) = currentPage u) ->
  let s1 := queuePageRowsSave page (g (renderRows t)) in
  parsedByPage s1 !! page = Some (imap withRowId rows')
  /\ pageSaveTimers s1 !! page = Some (now s + ROW_SAVE_DEBOUNCE_MS)%nat
  /\ jobId s1 = Some job /\ currentPage s1 = Some page.
Proof.
  intros t g Hg s1.
  assert (parsedByPage t !! page = Some rows') as Ht
    by (unfold t; st_simpl_goal; apply lookup_insert_eq).
  destruct (render_current t page rows' Hc Hpt Ht)
    as (Hr & Hjr & Hnr & _ & Hcr & _).
  destruct (Hg (renderRows t)) as (Hgp & Hgj & Hgn & Hgc).
  assert (jobId (g (renderRows t)) = Some job) as Hj1
    by (rewrite Hgj, Hjr; exact Hj).
  destruct (DebounceFacts.queue_spec page job (g (renderRows t)) Hj1 Hjt Hp Hpt)
    as (Hq & Hqj & _ & Hqp).
  fold s1 in Hq, Hqj, Hqp.
  split; [now rewrite Hqp, Hgp|].
  split; [rewrite Hq, Hgn, Hnr; reflexivity|].
  split; [now rewrite Hqj|].
  unfold s1, queuePageRowsSave. rewrite Hp, Hpt, Hj1. cbn [truthyO].
  rewrite Hjt. cbn [negb orb]. st_simpl_goal. rewrite Hgc, Hcr. exact Hc.
Qed.

Lemma insert_found rowId idx :
  findIndex (isRow rowId) rows = Some idx ->
  let s1 := insertRowAfter page rowId s in
  parsedByPage s1 !! page
  = Some (imap withRowId
            (take (idx + 1) rows ++ blankRowFor rows :: drop (idx + 1) rows))
  /\ pageSaveTimers s1 !! page = Some (now s + ROW_SAVE_DEBOUNCE_MS)%nat
  /\ jobId s1 = Some job /\ currentPage s1 = Some page
  /\ selectedRowId s1 = Some (buildNextRowId rows).
Proof.
  intros Hf s1. unfold s1, insertRowAfter. rewrite Hrows.
  cbn [default from_option id]. rewrite Hf. cbv zeta. fold (blankRowFor rows).
  pose proof (put_render_queue
                (take (idx + 1) rows ++ blankRowFor rows :: drop (idx + 1) rows)
                (fun x => x) (selectRow (row_id (blankRowFor rows)))) as H.
  cbv beta zeta in H.
  assert (set_selectedRowId (selectedRowId s)
            (set_parsedByPage
               (<[page := take (idx + 1) rows ++ blankRowFor rows
                            :: drop (idx + 1) rows]> (parsedByPage s)) s)
          = set_parsedByPage
              (<[page := take (idx + 1) rows ++ blankRowFor rows
                           :: drop (idx + 1) rows]> (parsedByPage s)) s) as E
    by (destruct s; reflexivity).
  rewrite E in H.
  destruct H as (H1 & H2 & H3 & H4); [intros u; repeat split|].
  split; [exact H1|]. split; [exact H2|]. split; [exact H3|].
  split; [exact H4|].
  rewrite queue_selected. unfold selectRow. st_simpl_goal.
  cbn [blankRowFor row_id].
  rewrite PayloadFacts.strOr_rendered;
    [reflexivity | apply PayloadFacts.trim_pad3
     | apply PayloadFacts.truthy_ne, PayloadFacts.pad3_truthy].
Qed.

Lemma delete_found rowId idx :
  findIndex (isRow rowId) rows = Some idx ->
  let s1 := deleteRow page rowId s in
  let rows' := delete idx rows in
  parsedByPage s1 !! page = Some (imap withRowId rows')
  /\ pageSaveTimers s1 !! page = Some (now s + ROW_SAVE_DEBOUNCE_MS)%nat
  /\ jobId s1 = Some job /\ currentPage s1 = Some page
  /\ selectedRowId s1
     = match rows' with
       | [] => None
       | _ =>
           if String.eqb (strOr (selectedRowId s) "") (strOr rowId "")
           then fallbackSelection idx rows'
           else selectedRowId s
       end.
Proof.
  intros Hf s1 rows'. unfold s1, deleteRow. rewrite Hrows.
  cbn [default from_option id]. rewrite Hf. cbv zeta. fold rows'.
  st_simpl_goal. fold (fallbackSelection idx rows').
  set (sel := fun old : option string =>
                match rows' with
                | [] => None
                | _ => if String.eqb (strOr old "") (strOr rowId "")
                       then fallbackSelection idx rows' else old
                end).
  pose proof (put_render_queue rows' sel (fun x => x)) as H. cbv zeta in H.
  assert (match rows' with
          | [] => set_selectedRowId None
                    (set_parsedByPage (<[page := rows']> (parsedByPage s)) s)
          | _ :: _ =>
              if String.eqb (strOr (selectedRowId s) "") (strOr rowId "")
              then set_selectedRowId (fallbackSelection idx rows')
                     (set_parsedByPage (<[page := rows']> (parsedByPage s)) s)
              else set_parsedByPage (<[page := rows']> (parsedByPage s)) s
          end
          = set_selectedRowId (sel (selectedRowId s))
              (set_parsedByPage (<[page := rows']> (parsedByPage s)) s)) as E.
  { unfold sel. destruct rows'; [reflexivity|].
    destruct (String.eqb _ _); [reflexivity|]. destruct s; reflexivity. }
  rewrite E.
  destruct H as (H1 & H2 & H3 & H4); [intros u; repeat split|].
  split; [exact H1|]. split; [exact H2|]. split; [exact H3|].
  split; [exact H4|].
  rewrite queue_selected, render_selected. reflexivity.
Qed.

End OnCurrentPage.

End RowEditRun.

(** Inserting a row on the current page, its rows as rendering left them.
    When no row has the id given, nothing changes. Otherwise a row with
    empty cells and the next id is put right after the first row with that
    id, the rows before and after it staying as they are; the new row is
    selected; and a save of the page is queued. *)
Theorem insertRowAfter_inserts
    (s : State) (page job : string) (rows : list Row) (rowId : option string) :
  jobId s = Some job -> Js.truthy job = true ->
  currentPage s = Some page -> Js.trim page = page -> Js.truthy page = true ->
  parsedByPage s !! page = Some rows -> Forall hasRenderedId rows ->
  let s1 := insertRowAfter page rowId s in
  match findIndex (isRow rowId) rows with
  | None => s1 = s
  | Some idx =>
      parsedByPage s1 !! page
      = Some (take (idx + 1) rows ++ blankRowFor rows :: drop (idx + 1) rows)
      /\ (idx < length rows)%nat
      /\ selectedRowId s1 = Some (buildNextRowId rows)
      /\ pageSaveTimers s1 !! page = Some (now s + ROW_SAVE_DEBOUNCE_MS)%nat
  end.
Proof.
  intros Hj Hjt Hc Hp Hpt Hrows Hall s1.
  destruct (findIndex (isRow rowId) rows) as [idx|] eqn:Hf.
  - destruct (RowEditRun.insert_found s page job rows Hj Hjt Hc Hp Hpt Hrows
                rowId idx Hf) as (H1 & H2 & _ & _ & H5).
    fold s1 in H1, H2, H5.
    split; [|split; [now apply (RowEditFacts.findIndex_lt _ _ _ Hf)|]];
      [|split; assumption].
    rewrite H1. f_equal.
    apply ReverseFacts.imap_rendered; [apply ReverseFacts.withRowId_rendered|].
    apply Forall_app. split; [now apply Forall_take|].
    constructor; [apply RowEditFacts.new_row_rendered | now apply Forall_drop].
  - unfold s1, insertRowAfter. rewrite Hrows. cbn [default from_option id].
    now rewrite Hf.
Qed.

Lemma insertRowAfter_inserts_witness :
  parsedByPage (insertRowAfter "page_001" (Some "001") Sample.editing)
    !! "page_001"
  = Some (take 1 Sample.twoRows ++ blankRowFor Sample.twoRows
          :: drop 1 Sample.twoRows).
Proof.
  assert (Forall hasRenderedId Sample.twoRows) as Hall.
  { repeat constructor; eexists; (split; [reflexivity|]);
      (split; [reflexivity | discriminate]). }
  pose proof (insertRowAfter_inserts Sample.editing "page_001" "J1"
                Sample.twoRows (Some "001") eq_refl eq_refl eq_refl eq_refl
                eq_refl eq_refl Hall) as H.
  cbv zeta in H.
  change (findIndex (isRow (Some "001")) Sample.twoRows) with (Some 0%nat) in H.
  exact (proj1 H).
Defined.

(** Inserting a row and deleting it again. On the current page, with rows
    as rendering left them and row numbers below 2^53: when a row is
    inserted after a row that is there and the new row is deleted, the page
    has its rows back as they were, and a save is queued. *)
Theorem insert_then_delete_restores
    (s : State) (page job : string) (rows : list Row) (rowId : option string)
    (idx : nat) :
  jobId s = Some job -> Js.truthy job = true ->
  currentPage s = Some page -> Js.trim page = page -> Js.truthy page = true ->
  parsedByPage s !! page = Some rows -> Forall hasRenderedId rows ->
  (maxRowFrom 0 rows 0 < 2 ^ 53)%N ->
  findIndex (isRow rowId) rows = Some idx ->
  let s1 := insertRowAfter page rowId s in
  let s2 := deleteRow page (Some (buildNextRowId rows)) s1 in
  parsedByPage s2 !! page = Some rows
  /\ pageSaveTimers s2 !! page = Some (now s1 + ROW_SAVE_DEBOUNCE_MS)%nat.
Proof.
  intros Hj Hjt Hc Hp Hpt Hrows Hall Hb Hf s1 s2.
  pose proof (RowEditFacts.findIndex_lt _ _ _ Hf) as Hlt.
  destruct (RowEditRun.insert_found s page job rows Hj Hjt Hc Hp Hpt Hrows
              rowId idx Hf) as (H1 & _ & Hj1 & Hc1 & _).
  fold s1 in H1, Hj1, Hc1.
  set (rows1 := take (idx + 1) rows ++ blankRowFor rows :: drop (idx + 1) rows)
    in *.
  assert (Forall hasRenderedId rows1) as Hall1.
  { apply Forall_app. split; [now apply Forall_take|].
    constructor; [apply RowEditFacts.new_row_rendered | now apply Forall_drop]. }
  rewrite (ReverseFacts.imap_rendered withRowId rows1
             ReverseFacts.withRowId_rendered Hall1) in H1.
  assert (findIndex (isRow (Some (buildNextRowId rows))) rows1
          = Some (idx + 1)%nat) as Hf1.
  { unfold rows1.
    rewrite RowEditFacts.findIndex_app_first.
    - rewrite length_take. f_equal. lia.
    - intros row Hin. apply (RowEditFacts.new_id_not_among rows Hb).
      apply list_elem_of_In. apply list_elem_of_In in Hin.
      apply elem_of_take in Hin as (i & Hi & _).
      apply list_elem_of_lookup. eauto.
    - unfold isRow, blankRowFor. cbn [row_id]. apply String.eqb_refl. }
  destruct (RowEditRun.delete_found s1 page job rows1 Hj1 Hjt Hc1 Hp Hpt H1
              (Some (buildNextRowId rows)) (idx + 1) Hf1) as (H2 & H3 & _).
  fold s2 in H2, H3.
  assert (delete (idx + 1)%nat rows1 = rows) as Hdel.
  { unfold rows1.
    replace (idx + 1)%nat with (length (take (idx + 1) rows)) at 1
      by (rewrite length_take; lia).
    rewrite RowEditFacts.delete_middle. apply take_drop. }
  rewrite Hdel in H2.
  rewrite (ReverseFacts.imap_rendered withRowId rows
             ReverseFacts.withRowId_rendered Hall) in H2.
  split; assumption.
Qed.

Lemma insert_then_delete_restores_witness :
  findIndex (isRow (Some "002")) Sample.twoRows = Some 1%nat
  /\ parsedByPage
       (deleteRow "page_001" (Some (buildNextRowId Sample.twoRows))
          (insertRowAfter "page_001" (Some "002") Sample.editing))
     !! "page_001" = Some Sample.twoRows.
Proof.
  split; [reflexivity|].
  assert (Forall hasRenderedId Sample.twoRows) as Hall.
  { repeat constructor; eexists; (split; [reflexivity|]);
      (split; [reflexivity | discriminate]). }
  exact (proj1 (insert_then_delete_restores Sample.editing "page_001" "J1"
                  Sample.twoRows (Some "002") 1 eq_refl eq_refl eq_refl
                  eq_refl eq_refl eq_refl Hall
                  ltac:(vm_compute; reflexivity) eq_refl)).
Defined.

(** Deleting a row on the current page, its rows as rendering left them.
    When no row has the id given, nothing changes. Otherwise the first row
    with that id is taken out and the others stay in their order; a save of
    the page is queued; and the selection goes to none when no row is left,
    to the row that took the place of the deleted one (or the last row)
    when the deleted row was the selected one, and stays otherwise. *)
Theorem deleteRow_deletes
    (s : State) (page job : string) (rows : list Row) (rowId : option string) :
  jobId s = Some job -> Js.truthy job = true ->
  currentPage s = Some page -> Js.trim page = page -> Js.truthy page = true ->
  parsedByPage s !! page = Some rows -> Forall hasRenderedId rows ->
  let s1 := deleteRow page rowId s in
  match findIndex (isRow rowId) rows with
  | None => s1 = s
  | Some idx =>
      parsedByPage s1 !! page = Some (delete idx rows)
      /\ S (length (delete idx rows)) = length rows
      /\ pageSaveTimers s1 !! page = Some (now s + ROW_SAVE_DEBOUNCE_MS)%nat
      /\ selectedRowId s1
         = match delete idx rows with
           | [] => None
           | _ =>
               if String.eqb (strOr (selectedRowId s) "") (strOr rowId "")
               then fallbackSelection idx (delete idx rows)
               else selectedRowId s
           end
  end.
Proof.
  intros Hj Hjt Hc Hp Hpt Hrows Hall s1.
  destruct (findIndex (isRow rowId) rows) as [idx|] eqn:Hf.
  - destruct (RowEditRun.delete_found s page job rows Hj Hjt Hc Hp Hpt Hrows
                rowId idx Hf) as (H1 & H2 & _ & _ & H5).
    fold s1 in H1, H2, H5. cbv zeta in H1, H5.
    pose proof (RowEditFacts.findIndex_lt _ _ _ Hf) as Hlt.
    split; [|split; [|split; assumption]].
    + rewrite H1. f_equal.
      apply ReverseFacts.imap_rendered; [apply ReverseFacts.withRowId_rendered|].
      apply Forall_delete. exact Hall.
    + rewrite length_delete by (apply lookup_lt_is_Some; exact Hlt). lia.
  - unfold s1, deleteRow. rewrite Hrows. cbn [default from_option id].
    now rewrite Hf.
Qed.

Lemma deleteRow_deletes_witness :
  parsedByPage (deleteRow "page_001" (Some "001") Sample.editing)
    !! "page_001" = Some (drop 1 Sample.twoRows).
Proof.
  assert (Forall hasRenderedId Sample.twoRows) as Hall.
  { repeat constructor; eexists; (split; [reflexivity|]);
      (split; [reflexivity | discriminate]). }
  pose proof (deleteRow_deletes Sample.editing "page_001" "J1"
                Sample.twoRows (Some "001") eq_refl eq_refl eq_refl eq_refl
                eq_refl eq_refl Hall) as H.
  cbv zeta in H.
  change (findIndex (isRow (Some "001")) Sample.twoRows) with (Some 0%nat) in H.
  exact (proj1 H).
Defined.

(** ** Saves of different pages *)

Module IsolationFacts.

Lemma renderRows_other s q :
  currentPage s <> Some q ->
  parsedByPage (renderRows s) !! q = parsedByPage s !! q.
Proof.
  intros Hq. unfold renderRows, recomputeTotalParsedRows.
  destruct (currentPage s) as [page|]; [|reflexivity].
  destruct (Js.truthy page); cbn [negb]; [|reflexivity].
  st_simpl_goal. destruct (parsedByPage s !! page); [|reflexivity].
  st_simpl_goal. apply lookup_insert_ne. congruence.
Qed.

(** A response for one page leaves the rows of every other page. *)
Lemma applySaveResponse_other p payload s q :
  q <> p ->
  parsedByPage (applySaveResponse p payload s) !! q = parsedByPage s !! q.
Proof.
  intros Hq. unfold applySaveResponse.
  change (parsedByPage (recomputeTotalParsedRows ?x)) with (parsedByPage x).
  destruct (sp_rows payload) as [rows|]; [|reflexivity].
  rewrite EchoFacts.clearStaleSelection_rows. unfold reconcileRows.
  destruct (_ && _).
  - destruct (parsedByPage s !! p); [|reflexivity].
    st_simpl_goal. apply lookup_insert_ne. congruence.
  - destruct (decide _) as [Hc|Hc].
    + rewrite renderRows_other; [|st_simpl; rewrite Hc; congruence].
      st_simpl_goal. apply lookup_insert_ne. congruence.
    + st_simpl_goal. apply lookup_insert_ne. congruence.
Qed.

Lemma persistResume_state page t res s :
  stateAfter (persistResume page t res s) = s
  \/ exists payload,
       stateAfter (persistResume page t res s)
       = applySaveResponse (Js.trim page) payload s.
Proof.
  unfold persistResume. step_simpl.
  destruct (SaveFacts.api_cases res s) as [(json & ->) | (msg & es & ->)];
    [|now left].
  destruct (decide _); [right; eauto | now left].
Qed.

Lemma persistBegin_state page s :
  stateAfter (persistBegin page s) = s
  \/ exists token,
       stateAfter (persistBegin page s)
       = set_pageSaveTokenByPage
           (<[Js.trim page := token]> (pageSaveTokenByPage s)) s.
Proof.
  unfold persistBegin. step_simpl.
  destruct (negb (truthyO (jobId s)) || negb (Js.truthy (Js.trim page)));
    [now left | right; eauto].
Qed.

End IsolationFacts.

(** The saves of one page leave the other pages alone. For a page [q]
    other than the (trimmed) page of the save: queueing the save, the firing
    of its timer and the arrival of its response change neither the timer
    of [q], nor its save token, nor its rows. So an edit on a second page
    never cancels or delays the save of the first. *)
Theorem page_saves_independent
    (page q : string) (token : nat) (res : FetchResult SavePayload)
    (s : State) :
  q <> Js.trim page ->
  let unchanged (s' : State) :=
    pageSaveTimers s' !! q = pageSaveTimers s !! q
    /\ pageSaveTokenByPage s' !! q = pageSaveTokenByPage s !! q
    /\ parsedByPage s' !! q = parsedByPage s !! q in
  unchanged (queuePageRowsSave page s)
  /\ unchanged (stateAfter (saveTimerFires (Js.trim page) s))
  /\ unchanged (stateAfter (saveTimerSettles (Js.trim page) token res s)).
Proof.
  intros Hq unchanged. unfold unchanged. split; [|split].
  - unfold queuePageRowsSave. case_match; [repeat split|].
    st_simpl_goal. split; [|split; reflexivity].
    apply lookup_insert_ne. congruence.
  - unfold saveTimerFires. rewrite ReverseFacts.modify_then.
    set (s0 := set_pageSaveTimers (delete (Js.trim page) (pageSaveTimers s)) s).
    assert (pageSaveTimers s0 !! q = pageSaveTimers s !! q) as H0.
    { unfold s0. st_simpl_goal. apply lookup_delete_ne. congruence. }
    destruct (IsolationFacts.persistBegin_state (Js.trim page) s0)
      as [-> | (t & ->)].
    + split; [exact H0|]. split; reflexivity.
    + st_simpl_goal. split; [exact H0|]. split; [|reflexivity].
      rewrite JsFacts.trim_idem. apply lookup_insert_ne. congruence.
  - assert (stateAfter (saveTimerSettles (Js.trim page) token res s)
            = stateAfter (persistResume (Js.trim page) token res s)) as ->.
    { unfold saveTimerSettles, tryCatch, stateAfter.
      destruct (persistResume (Js.trim page) token res s) as [[[[]|msg] s1] e1];
        reflexivity. }
    destruct (IsolationFacts.persistResume_state (Js.trim page) token res s)
      as [-> | (payload & ->)]; [repeat split|].
    rewrite FlushFacts.applySaveResponse_timers,
      SaveFacts.applySaveResponse_tokens.
    split; [reflexivity|]. split; [reflexivity|].
    apply IsolationFacts.applySaveResponse_other.
    rewrite JsFacts.trim_idem. exact Hq.
Qed.

Lemma page_saves_independent_witness :
  pageSaveTimers (queuePageRowsSave "page_002" Sample.editing) !! "page_001"
  = pageSaveTimers Sample.editing !! "page_001".
Proof.
  exact (proj1 (proj1 (page_saves_independent "page_002" "page_001" 1
                         Sample.saved Sample.editing ltac:(discriminate)))).
Defined.

(** A save that fails stays inside the callback of its timer: whatever the
    response, the callback completes; when the request is rejected the
    state is left as it was and the failure is alerted once, after whatever
    the rejection itself caused (the redirect to the login on a 401). *)
Theorem saveTimerSettles_contains_failure
    (page : string) (token : nat) (res : FetchResult SavePayload) (s : State) :
  outcomeOf (saveTimerSettles page token res s) = Resolved tt
  /\ forall msg es,
       api res s = (Rejected msg, s, es) ->
       saveTimerSettles page token res s
       = (Resolved tt, s, es ++ [AlertNormalized "Save failed: " msg]).
Proof.
  split.
  - unfold saveTimerSettles, persistResume. step_simpl.
    destruct (SaveFacts.api_cases res s) as [(json & ->) | (msg & es & ->)].
    + destruct (decide _); reflexivity.
    + reflexivity.
  - intros msg es Hapi. unfold saveTimerSettles, persistResume. step_simpl.
    rewrite Hapi. reflexivity.
Qed.

Lemma saveTimerSettles_contains_failure_witness :
  saveTimerSettles "page_001" 1 (NetworkError "offline") Sample.editing
  = (Resolved tt, Sample.editing, [AlertNormalized "Save failed: " "offline"]).
Proof.
  exact (proj2 (saveTimerSettles_contains_failure "page_001" 1
                  (NetworkError "offline") Sample.editing) "offline" [] eq_refl).
Defined.

(** ** Loading the data of a page *)

Module PageLoadFacts.

Lemma strOr_some x d : Js.truthy x = true -> strOr (Some x) d = x.
Proof. intros H. cbn. unfold Js.orElse. now rewrite H. Qed.

End PageLoadFacts.

(** A page that is already in memory is not fetched again: with a job
    active, the rows and the bounds of the current page in the caches and
    the table shown, [loadCurrentPageData] sends no request and cannot fail;
    it only renders the rows and clears the selection. *)
Theorem loadCurrentPageData_cached
    (li : LoadInputs) (s : State) (job page : string) (rows : list Row)
    (bounds : list Bound) :
  jobId s = Some job -> Js.truthy job = true ->
  currentPage s = Some page -> Js.truthy page = true ->
  parsedByPage s !! page = Some rows -> boundsByPage s !! page = Some bounds ->
  parsedPanelMode s = TableMode ->
  loadCurrentPageData li s = (Resolved tt, loadPreview (renderRows s), []).
Proof.
  intros Hj Hjt Hc Hpt Hrows Hbounds Hmode.
  unfold loadCurrentPageData. step_simpl.
  rewrite Hj, Hc. cbn [truthyO]. rewrite Hjt, Hpt. cbn [negb orb].
  rewrite (PageLoadFacts.strOr_some page "" Hpt), Hrows, Hbounds, Hmode.
  reflexivity.
Qed.

Lemma loadCurrentPageData_cached_witness :
  effectsOf (loadCurrentPageData Sample.emptyLoad Shown.loaded) = [].
Proof.
  rewrite (loadCurrentPageData_cached Sample.emptyLoad Shown.loaded
             "J1" "page_001" Sample.twoRows []
             eq_refl eq_refl eq_refl eq_refl eq_refl eq_refl eq_refl).
  reflexivity.
Defined.

(** The raw OCR text of the current page is asked for at most once and its
    loading never fails: [ensureCurrentPageOpenaiRawLoaded] always
    completes; with a job and a page, the cache has an entry for the page
    afterwards, the text received or, when the request failed, the marker
    [openai_ocr_raw_not_ready]; and when the cache had an entry already,
    nothing is sent and nothing changes. *)
Theorem ensureCurrentPageOpenaiRawLoaded_settles
    (li : LoadInputs) (s : State) :
  let r := ensureCurrentPageOpenaiRawLoaded li s in
  let page := Js.trim (strOr (currentPage s) "") in
  outcomeOf r = Resolved tt
  /\ (truthyO (jobId s) = true -> Js.truthy page = true ->
      is_Some (openaiRawByPage (stateAfter r) !! page))
  /\ (is_Some (openaiRawByPage s !! page) -> r = (Resolved tt, s, []))
  /\ (forall msg es,
        truthyO (jobId s) = true -> Js.truthy page = true ->
        openaiRawByPage s !! page = None ->
        api (li_openaiRaw li) s = (Rejected msg, s, es) ->
        openaiRawByPage (stateAfter r) !! page
        = Some "openai_ocr_raw_not_ready").
Proof.
  intros r page. unfold r, ensureCurrentPageOpenaiRawLoaded. step_simpl.
  fold page.
  destruct (truthyO (jobId s)) eqn:Ej; cbn [negb orb].
  2:{ split; [reflexivity|]. split; [intros H; discriminate H|].
      split; [intros _; reflexivity|]. intros msg es H; discriminate H. }
  destruct (Js.truthy page) eqn:Ep; cbn [negb].
  2:{ split; [reflexivity|]. split; [intros _ H; discriminate H|].
      split; [intros _; reflexivity|]. intros msg es _ H; discriminate H. }
  destruct (openaiRawByPage s !! page) as [raw|] eqn:Ec.
  { split; [reflexivity|]. split; [intros _ _; cbn; rewrite Ec; eauto|].
    split; [intros _; reflexivity|]. intros msg es _ _ H; discriminate H. }
  destruct (SaveFacts.api_cases (li_openaiRaw li) s)
    as [(json & ->) | (msg & es & ->)]; cbn.
  - split; [reflexivity|]. split; [intros _ _; rewrite lookup_insert_eq; eauto|].
    split; [intros [? H]; discriminate H|]. intros msg es _ _ _ H; discriminate H.
  - split; [reflexivity|]. split; [intros _ _; rewrite lookup_insert_eq; eauto|].
    split; [intros [? H]; discriminate H|].
    intros msg' es' _ _ _ _. apply lookup_insert_eq.
Qed.

Lemma ensureCurrentPageOpenaiRawLoaded_settles_witness :
  openaiRawByPage
    (stateAfter
       (ensureCurrentPageOpenaiRawLoaded
          (MkLoadInputs (li_saves Sample.emptyLoad) (li_cleaned Sample.emptyLoad)
             (li_summary Sample.emptyLoad) (li_parsed Sample.emptyLoad)
             (li_bounds Sample.emptyLoad) (NetworkError "offline"))
          Sample.editing))
  !! "page_001" = Some "openai_ocr_raw_not_ready".
Proof.
  exact (proj2 (proj2 (proj2
           (ensureCurrentPageOpenaiRawLoaded_settles
              (MkLoadInputs (li_saves Sample.emptyLoad)
                 (li_cleaned Sample.emptyLoad) (li_summary Sample.emptyLoad)
                 (li_parsed Sample.emptyLoad) (li_bounds Sample.emptyLoad)
                 (NetworkError "offline"))
              Sample.editing))) "offline" [] eq_refl eq_refl eq_refl eq_refl).
Defined.

(** The pages of a result: [cleanedPages] gives the names of the cleaned
    list without their [.png], the empty ones left out, in ascending order
    of their code units; it loses and invents no name. *)
Theorem cleanedPages_sorted (cleaned : option (list string)) :
  Sorted String.le (cleanedPages cleaned)
  /\ Forall (fun page => page <> "") (cleanedPages cleaned)
  /\ cleanedPages cleaned
     ≡ₚ List.filter Js.truthy (stripPng <$> default [] cleaned).
Proof.
  unfold cleanedPages.
  assert (merge_sort String.le
            (List.filter Js.truthy (stripPng <$> default [] cleaned))
          ≡ₚ List.filter Js.truthy (stripPng <$> default [] cleaned)) as Hperm
    by apply merge_sort_Permutation.
  split; [apply Sorted_merge_sort; apply _|]. split; [|exact Hperm].
  apply Forall_forall. intros page Hin.
  rewrite Hperm in Hin. apply list_elem_of_In, filter_In in Hin as [_ Ht].
  now apply PayloadFacts.truthy_ne.
Qed.

Module ReconcileTrace.

Section Loop.
Variable fetchAt : nat -> FetchResult StatusPayload.

Lemma loop_run rows : forall idx next s,
  (forall i row st t p,
     rows !! i = Some row -> asked row = true ->
     fetchAt (idx + i) = Response st t p -> st <> 401%nat) ->
  reconcileLoop rows idx fetchAt next s
  = (Resolved
       (Some (next ++ concat (imap (fun i => reconciledSlot fetchAt (idx + i))
                                rows))), s, reconcileRequests rows).
Proof.
  induction rows as [|row rest IH]; intros idx next s Hno.
  - cbn. now rewrite app_nil_r.
  - assert (forall i row' st t p,
              rest !! i = Some row' -> asked row' = true ->
              fetchAt (S idx + i) = Response st t p -> st <> 401%nat) as Hrest.
    { intros i row' st t p Hi Ha Hf. apply (Hno (S i) row' st t p Hi Ha).
      now rewrite Nat.add_succ_r. }
    rewrite imap_cons, ReconcileFacts.slot_shift. cbn [concat reconcileLoop].
    rewrite Nat.add_0_r. unfold reconciledSlot at 1.
    unfold reconcileRequests. cbn [List.filter]. unfold asked at 1.
    fold (reconcileRequests rest).
    destruct (Js.truthy (Js.trim (strOr (lj_jobId row) ""))) eqn:Ea;
      cbn [negb fmap list_fmap].
    + pose proof (Hno 0%nat row) as H0. rewrite Nat.add_0_r in H0.
      specialize (fun st t p => H0 st t p eq_refl Ea).
      fold (reconcileRequests rest).
      step_simpl.
      destruct (fetchAt idx) as [msg | st t p].
      * rewrite (IH (S idx) (next ++ [row]) s Hrest).
        now rewrite <- app_assoc.
      * destruct (st =? 401)%nat eqn:E401;
          [apply Nat.eqb_eq in E401; now destruct (H0 st t p eq_refl)|].
        destruct (st =? 404)%nat.
        -- now rewrite (IH (S idx) next s Hrest).
        -- destruct (negb (isOk st)).
           ++ rewrite (IH (S idx) (next ++ [row]) s Hrest).
              now rewrite <- app_assoc.
           ++ rewrite (IH (S idx) (next ++ [mergeStatus row p]) s Hrest).
              now rewrite <- app_assoc.
    + apply (IH (S idx) next s Hrest).
Qed.

End Loop.

End ReconcileTrace.

(** What a reconciliation that no request ends with a 401 does to the
    outside: with a cached list that is not empty it sends one status
    request for each of the first hundred records that carries a job id, in
    the order of the list, then writes the new list to storage once, and
    nothing else; with an empty list it does nothing at all. It never
    fails. *)
Theorem reconcile_requests_in_order
    (fetchAt : nat -> FetchResult StatusPayload) (s : State) :
  (forall i row st t p,
     take 100 (uploadedJobs s) !! i = Some row -> asked row = true ->
     fetchAt i = Response st t p -> st <> 401%nat) ->
  let r := reconcileStoredJobsStatuses fetchAt s in
  outcomeOf r = Resolved tt
  /\ effectsOf r
     = match uploadedJobs s with
       | [] => []
       | _ =>
           reconcileRequests (take 100 (uploadedJobs s))
           ++ [Stored (take 100 (uploadedJobs (stateAfter r)))]
       end.
Proof.
  intros Hno r. unfold r, reconcileStoredJobsStatuses.
  destruct (uploadedJobs s) as [|j jobs] eqn:Ej.
  - step_simpl. rewrite Ej. split; reflexivity.
  - pose proof (ReconcileTrace.loop_run fetchAt (take 100 (j :: jobs)) 0 [] s Hno)
      as Hrun.
    unfold saveStoredJobs. step_simpl. rewrite Ej. cbn beta iota.
    rewrite Hrun. cbn. split; reflexivity.
Qed.

Lemma reconcile_requests_in_order_witness :
  effectsOf (reconcileStoredJobsStatuses Sample.goneThenUpdated Sample.twoCached)
  = [Sent (GetJob "A"); Sent (GetJob "B");
     Stored [mergeStatus (Sample.record "B" 20) (Sample.status "processing" 55)]].
Proof.
  destruct (reconcile_requests_in_order Sample.goneThenUpdated Sample.twoCached)
    as [_ He].
  - intros [|[|i]] row st t p Hi _ Hf; cbn in Hi, Hf; try discriminate;
      injection Hf as <- _ _; discriminate.
  - rewrite He. reflexivity.
Defined.

(** ** Activating a job *)

Module ActivateFacts.
Import LoadRun LoadSpec.

Lemma frame_fields s s' :
  frame s' = frame s ->
  jobId s' = jobId s /\ pollTimer s' = pollTimer s /\ timerSeq s' = timerSeq s.
Proof. intros H. unfold frame in H. inversion H. repeat split; assumption. Qed.

Lemma wp_setStatus payload Q X s :
  (forall jobs' es,
     Forall (ofKinds [KStored]) es ->
     Q tt (set_uploadedJobs jobs' (statusShown payload s)) es) ->
  wp (setStatus payload) Q X s.
Proof.
  intros H. unfold wp.
  destruct (StatusFacts.setStatus_run payload s) as (jobs' & es & -> & Hes & _).
  now apply H.
Qed.

Lemma shown_keeps jobs' payload s :
  jobId (set_uploadedJobs jobs' (statusShown payload s)) = jobId s
  /\ pollTimer (set_uploadedJobs jobs' (statusShown payload s)) = pollTimer s
  /\ timerSeq (set_uploadedJobs jobs' (statusShown payload s)) = timerSeq s.
Proof. unfold statusShown. st_simpl_goal. repeat split. Qed.

Lemma reset_keeps id s :
  let s1 := set_openaiRawByPage ∅
              (set_totalParsedRows 0
                 (set_isCompleted false (set_jobId (Some id) s))) in
  (jobId s1 = Some id /\ pollTimer s1 = pollTimer s
   /\ timerSeq s1 = timerSeq s)
  /\ (jobId (stopCrmStatusPolling s1) = Some id
      /\ pollTimer (stopCrmStatusPolling s1) = pollTimer s
      /\ timerSeq (stopCrmStatusPolling s1) = timerSeq s).
Proof. unfold stopCrmStatusPolling. st_simpl_goal. repeat split. Qed.

Lemma eqb_done_failed st :
  (String.eqb st "done" = true /\ st = "done")
  \/ (String.eqb st "done" = false /\ String.eqb st "failed" = true
      /\ st = "failed")
  \/ (String.eqb st "done" = false /\ String.eqb st "failed" = false
      /\ st <> "done" /\ st <> "failed").
Proof.
  destruct (String.eqb st "done") eqn:E1.
  - left. split; [reflexivity|]. now apply String.eqb_eq.
  - apply String.eqb_neq in E1. destruct (String.eqb st "failed") eqn:E2.
    + right. left. repeat split. now apply String.eqb_eq.
    + right. right. apply String.eqb_neq in E2. repeat split; assumption.
Qed.

End ActivateFacts.

Module ActivateRun.
Import LoadRun LoadSpec ActivateFacts.

Lemma setActiveJob_wp jobIdArg sw ai s status text payload :
  Js.truthy (Js.trim jobIdArg) = true ->
  ai_status ai = Response status text payload -> isOk status = true ->
  let id := Js.trim jobIdArg in
  let st := Js.toLowerCase (strOr (pl_status payload) "") in
  wp (setActiveJob jobIdArg sw ai)
    (fun a => activated s id st (Resolved a))
    (fun msg => activated s id st (Rejected msg)) s.
Proof.
  intros Hid Hres Hok id st.
  assert (Js.truthy id = true) as Hid' by exact Hid.
  unfold setActiveJob. fold id. cbv zeta.
  apply Wp.wp_bind.
  eapply (wp_total (fun s' => frame s' = frame s) (ofKinds [KSave; KRedirect]));
    [apply PollFacts.keeps_frame_flush | apply flush_total | reflexivity |].
  intros _ s0 e0 Hfr He0.
  destruct (frame_fields _ _ Hfr) as (_ & Ht0 & Hq0).
  unfold id at 1. rewrite Hid. cbn [negb]. fold id.
  do 4 (apply Wp.wp_bind, Wp.wp_modify).
  apply Wp.wp_bind.
  set (s1 := set_openaiRawByPage ∅
               (set_totalParsedRows 0
                  (set_isCompleted false (set_jobId (Some id) s0)))).
  assert (exists s1',
            jobId s1' = Some id /\ pollTimer s1' = pollTimer s
            /\ timerSeq s1' = timerSeq s
            /\ forall Q X, Q tt s1' [] ->
                 wp (when sw (modify stopCrmStatusPolling)) Q X s1)
    as (s1' & Hj1 & Ht1 & Hq1 & Hwhen).
  { destruct (reset_keeps id s0) as ((Ha & Hb & Hc) & (Ha' & Hb' & Hc')).
    fold s1 in Ha, Hb, Hc, Ha', Hb', Hc'.
    destruct sw; cbn [when].
    - exists (stopCrmStatusPolling s1).
      split; [exact Ha'|]. split; [now rewrite Hb'|]. split; [now rewrite Hc'|].
      intros Q X H. now apply Wp.wp_modify.
    - exists s1.
      split; [exact Ha|]. split; [now rewrite Hb|]. split; [now rewrite Hc|].
      intros Q X H. now apply Wp.wp_ret. }
  apply Hwhen. clearbody s1.
  apply Wp.wp_bind, Wp.wp_emit.
  apply Wp.wp_bind. rewrite Hres. apply Wp.wp_api_ok; [exact Hok|].
  apply Wp.wp_bind. apply wp_setStatus. intros jobs' es1 Hes1.
  set (s2 := set_uploadedJobs jobs' (statusShown payload s1')).
  destruct (shown_keeps jobs' payload s1') as (Hj2 & Ht2 & Hq2).
  fold s2 in Hj2, Ht2, Hq2. rewrite Hj1 in Hj2. rewrite Ht1 in Ht2.
  rewrite Hq1 in Hq2.
  clearbody s2. fold st.
  destruct (eqb_done_failed st) as [(E1 & Hst) | [(E1 & E2 & Hst) | (E1 & E2 & N1 & N2)]].
  - rewrite E1. cbn [orb].
    eapply Wp.wp_mono; [apply (loadResultData_wp (ai_load ai) s2 id Hj2 Hid)| |].
    + intros [] s3 es3 (Hf3 & Hc & Hsm & Hks & _).
      destruct (frame_fields _ _ Hf3) as (Hj3 & Ht3 & _).
      split; [congruence|]. split; [|split; [intros; congruence|]].
      * intros _. split; [congruence|].
        split; [|split].
        -- rewrite !PollRun.countIf_app.
           rewrite (countIf_kinds KStatus _ _ He0 eq_refl),
             (countIf_kinds KStatus _ _ Hes1 eq_refl),
             (countIf_kinds KStatus _ _ Hks eq_refl). reflexivity.
        -- rewrite !PollRun.countIf_app, Hc.
           rewrite (countIf_kinds KCleaned _ _ He0 eq_refl),
             (countIf_kinds KCleaned _ _ Hes1 eq_refl). reflexivity.
        -- rewrite !PollRun.countIf_app, Hsm.
           rewrite (countIf_kinds KSummary _ _ He0 eq_refl),
             (countIf_kinds KSummary _ _ Hes1 eq_refl). reflexivity.
      * intros; congruence.
    + intros msg s3 es3 (Hf3 & Hc & Hsm & Hks & _).
      destruct (frame_fields _ _ Hf3) as (Hj3 & Ht3 & _).
      split; [congruence|]. split; [|split; [intros; congruence|]].
      * intros _. split; [congruence|].
        split; [|split].
        -- rewrite !PollRun.countIf_app.
           rewrite (countIf_kinds KStatus _ _ He0 eq_refl),
             (countIf_kinds KStatus _ _ Hes1 eq_refl),
             (countIf_kinds KStatus _ _ Hks eq_refl). reflexivity.
        -- rewrite !PollRun.countIf_app, Hc.
           rewrite (countIf_kinds KCleaned _ _ He0 eq_refl),
             (countIf_kinds KCleaned _ _ Hes1 eq_refl). reflexivity.
        -- rewrite !PollRun.countIf_app, Hsm.
           rewrite (countIf_kinds KSummary _ _ He0 eq_refl),
             (countIf_kinds KSummary _ _ Hes1 eq_refl). reflexivity.
      * intros; congruence.
  - rewrite E1, E2. cbn [orb]. apply Wp.wp_ret.
    split; [exact Hj2|]. split; [intros; congruence|].
    split; [|intros; congruence].
    intros _. split; [reflexivity|]. split; [exact Ht2|].
    split.
    + rewrite !PollRun.countIf_app.
      rewrite (countIf_kinds KStatus _ _ He0 eq_refl),
        (countIf_kinds KStatus _ _ Hes1 eq_refl). reflexivity.
    + rewrite !PollRun.countIf_app.
      rewrite (countIf_kinds KCleaned _ _ He0 eq_refl),
        (countIf_kinds KCleaned _ _ Hes1 eq_refl). reflexivity.
  - rewrite E1, E2. cbn [orb]. unfold startPolling, pollStatusBegin.
    do 2 (apply Wp.wp_bind, Wp.wp_modify).
    apply Wp.wp_bind. apply Wp.wp_bind, Wp.wp_gets.
    unfold stopPolling. st_simpl_goal.
    rewrite Hj2. cbn [truthyO]. rewrite Hid'. cbn [negb].
    apply Wp.wp_bind, Wp.wp_emit. apply Wp.wp_ret. apply Wp.wp_ret.
    split; [exact Hj2|]. split; [intros; congruence|].
    split; [intros; congruence|].
    intros _ _. split; [reflexivity|].
    split; [st_simpl_goal; now rewrite Hq2|].
    split.
    + rewrite !PollRun.countIf_app.
      rewrite (countIf_kinds KStatus _ _ He0 eq_refl),
        (countIf_kinds KStatus _ _ Hes1 eq_refl). reflexivity.
    + rewrite !PollRun.countIf_app.
      rewrite (countIf_kinds KCleaned _ _ He0 eq_refl),
        (countIf_kinds KCleaned _ _ Hes1 eq_refl). reflexivity.
Qed.

End ActivateRun.

Module ActivateEdge.
Import LoadRun LoadSpec ActivateFacts.

Lemma blank_wp jobIdArg sw ai s :
  Js.truthy (Js.trim jobIdArg) = false ->
  wp (setActiveJob jobIdArg sw ai)
    (fun _ s' es =>
       frame s' = frame s /\ Forall (ofKinds [KSave; KRedirect]) es)
    (fun _ _ _ => False) s.
Proof.
  intros Hid. unfold setActiveJob. cbv zeta.
  apply Wp.wp_bind.
  eapply (wp_total (fun s' => frame s' = frame s) (ofKinds [KSave; KRedirect]));
    [apply PollFacts.keeps_frame_flush | apply flush_total | reflexivity |].
  intros _ s0 e0 Hfr He0. rewrite Hid. cbn [negb]. apply Wp.wp_ret.
  split; [exact Hfr|]. rewrite app_nil_r. exact He0.
Qed.

Lemma refused_wp jobIdArg sw ai s :
  Js.truthy (Js.trim jobIdArg) = true ->
  (forall status text payload,
     ai_status ai = Response status text payload -> isOk status = false) ->
  wp (setActiveJob jobIdArg sw ai)
    (fun _ _ _ => False)
    (fun _ s' es =>
       jobId s' = Some (Js.trim jobIdArg) /\ pollTimer s' = pollTimer s
       /\ countIf (isKind KStatus) es = 1%nat
       /\ countIf (isKind KCleaned) es = 0%nat
       /\ countIf (isKind KStored) es = 0%nat) s.
Proof.
  intros Hid Hno. unfold setActiveJob. cbv zeta.
  apply Wp.wp_bind.
  eapply (wp_total (fun s' => frame s' = frame s) (ofKinds [KSave; KRedirect]));
    [apply PollFacts.keeps_frame_flush | apply flush_total | reflexivity |].
  intros _ s0 e0 Hfr He0.
  destruct (frame_fields _ _ Hfr) as (_ & Ht0 & Hq0).
  rewrite Hid. cbn [negb].
  do 4 (apply Wp.wp_bind, Wp.wp_modify).
  apply Wp.wp_bind.
  destruct (reset_keeps (Js.trim jobIdArg) s0) as ((Ha & Hb & _) & (Ha' & Hb' & _)).
  cbv zeta in Ha, Hb, Ha', Hb'.
  set (s1 := set_openaiRawByPage ∅
               (set_totalParsedRows 0
                  (set_isCompleted false
                     (set_jobId (Some (Js.trim jobIdArg)) s0)))) in *.
  assert (exists s1',
            jobId s1' = Some (Js.trim jobIdArg) /\ pollTimer s1' = pollTimer s
            /\ forall Q X, Q tt s1' [] ->
                 wp (when sw (modify stopCrmStatusPolling)) Q X s1)
    as (s1' & Hj1 & Ht1 & Hwhen).
  { destruct sw; cbn [when].
    - exists (stopCrmStatusPolling s1).
      split; [exact Ha'|]. split; [now rewrite Hb'|].
      intros Q X H. now apply Wp.wp_modify.
    - exists s1. split; [exact Ha|]. split; [now rewrite Hb|].
      intros Q X H. now apply Wp.wp_ret. }
  apply Hwhen. clearbody s1.
  apply Wp.wp_bind, Wp.wp_emit.
  apply Wp.wp_bind. unfold wp at 1.
  destruct (api_run (ai_status ai) s1')
    as [(st & tx & j & Hr & Ho & _) | (msg & es & -> & Hes & _)].
  { rewrite (Hno st tx j Hr) in Ho. discriminate. }
  split; [exact Hj1|]. split; [exact Ht1|].
  split; [|split].
  - rewrite !PollRun.countIf_app.
    rewrite (countIf_kinds KStatus _ _ He0 eq_refl),
      (countIf_kinds KStatus _ _ Hes eq_refl). reflexivity.
  - rewrite !PollRun.countIf_app.
    rewrite (countIf_kinds KCleaned _ _ He0 eq_refl),
      (countIf_kinds KCleaned _ _ Hes eq_refl). reflexivity.
  - rewrite !PollRun.countIf_app.
    rewrite (countIf_kinds KStored _ _ He0 eq_refl),
      (countIf_kinds KStored _ _ Hes eq_refl). reflexivity.
Qed.

End ActivateEdge.

(** Activating a job whose status the server reports. With a job id that
    is not blank and a successful answer to the status request, the job
    becomes the active job under its trimmed id, and then, by the status of
    the answer in lower case: for [done] the results are loaded once (one
    request for the cleaned pages, one for the summary) and the poll timer
    is left as it was; for [failed] nothing more happens and the poll timer
    is left as it was; for any other status the activation completes with a
    new poll timer set and a second status request sent, the first poll. *)
Theorem setActiveJob_by_status
    (jobIdArg : string) (sw : bool) (ai : ActivateInputs) (s : State)
    (status : nat) (text : string) (payload : StatusPayload) :
  Js.truthy (Js.trim jobIdArg) = true ->
  ai_status ai = Response status text payload -> isOk status = true ->
  let r := setActiveJob jobIdArg sw ai s in
  activated s (Js.trim jobIdArg)
    (Js.toLowerCase (strOr (pl_status payload) ""))
    (outcomeOf r) (stateAfter r) (effectsOf r).
Proof.
  intros Hid Hres Hok r.
  pose proof (Wp.wp_elim _ _ _ _
                (ActivateRun.setActiveJob_wp jobIdArg sw ai s status text
                   payload Hid Hres Hok)) as H.
  fold r in H. destruct (outcomeOf r) as [[]|msg]; exact H.
Qed.

Lemma setActiveJob_by_status_witness :
  let r := setActiveJob " J1 " true Sample.activation Sample.twoCached in
  jobId (stateAfter r) = Some "J1"
  /\ pollTimer (stateAfter r) = Some 1%nat
  /\ countIf (isKind KStatus) (effectsOf r) = 2%nat.
Proof.
  intros r.
  destruct (setActiveJob_by_status " J1 " true Sample.activation
              Sample.twoCached 200 "" (Sample.status "processing" 5)
              eq_refl eq_refl eq_refl) as (Hj & _ & _ & Hother).
  destruct (Hother ltac:(discriminate) ltac:(discriminate))
    as (_ & Ht & Hc & _).
  split; [exact Hj|]. split; [exact Ht | exact Hc].
Defined.

(** Activating a job that cannot be activated. With a blank job id,
    [setActiveJob] completes having done nothing but flush the pending
    saves: the active job, the poll timer and the cached job list are as
    before and no status request is sent. With a job id and a status
    request that does not succeed, it fails: the job is the active job all
    the same, the poll timer is as before, the one status request was sent,
    no result is loaded and nothing is written to storage. *)
Theorem setActiveJob_unavailable
    (jobIdArg : string) (sw : bool) (ai : ActivateInputs) (s : State) :
  let r := setActiveJob jobIdArg sw ai s in
  (Js.truthy (Js.trim jobIdArg) = false ->
   outcomeOf r = Resolved tt
   /\ frame (stateAfter r) = frame s
   /\ countIf (isKind KStatus) (effectsOf r) = 0%nat)
  /\ (Js.truthy (Js.trim jobIdArg) = true ->
      (forall status text payload,
         ai_status ai = Response status text payload -> isOk status = false) ->
      (exists msg, outcomeOf r = Rejected msg)
      /\ jobId (stateAfter r) = Some (Js.trim jobIdArg)
      /\ pollTimer (stateAfter r) = pollTimer s
      /\ countIf (isKind KStatus) (effectsOf r) = 1%nat
      /\ countIf (isKind KCleaned) (effectsOf r) = 0%nat
      /\ countIf (isKind KStored) (effectsOf r) = 0%nat).
Proof.
  intros r. split.
  - intros Hid.
    pose proof (Wp.wp_elim _ _ _ _ (ActivateEdge.blank_wp jobIdArg sw ai s Hid))
      as H.
    fold r in H. destruct (outcomeOf r) as [[]|msg]; [|destruct H].
    destruct H as [Hf He]. split; [reflexivity|]. split; [exact Hf|].
    exact (LoadSpec.countIf_kinds KStatus _ _ He eq_refl).
  - intros Hid Hno.
    pose proof (Wp.wp_elim _ _ _ _
                  (ActivateEdge.refused_wp jobIdArg sw ai s Hid Hno)) as H.
    fold r in H. destruct (outcomeOf r) as [[]|msg]; [destruct H|].
    split; [eauto | exact H].
Qed.

Lemma setActiveJob_unavailable_witness :
  countIf (isKind KStatus)
    (effectsOf (setActiveJob "   " true Sample.activation Sample.twoCached))
  = 0%nat.
Proof.
  destruct (setActiveJob_unavailable "   " true Sample.activation
              Sample.twoCached) as [Hblank _].
  exact (proj2 (proj2 (Hblank eq_refl))).
Defined.

(** ** Moving between the pages *)

Module NavFacts.

Lemma renderRows_nav s :
  currentPage (renderRows s) = currentPage s /\ pages (renderRows s) = pages s.
Proof.
  unfold renderRows, recomputeTotalParsedRows.
  repeat case_match; split; st_simpl_goal; congruence.
Qed.

Lemma loadPreview_nav s :
  currentPage (loadPreview s) = currentPage s
  /\ pages (loadPreview s) = pages s.
Proof. unfold loadPreview. case_match; split; st_simpl_goal; congruence. Qed.

Ltac nav_side :=
  try exact I;
  try assumption;
  try (st_simpl; assumption);
  try (destruct (renderRows_nav ltac:(eassumption)) as [-> ->]; assumption).

(** Loading the data of the current page, with its failure alerted, keeps
    the current page and the list of pages, and never fails. *)
Lemma keeps_nav_load c p li :
  Keeps (fun s => currentPage s = c /\ pages s = p) (fun _ => True)
    (loadPageOrAlert li).
Proof.
  unfold loadPageOrAlert, loadCurrentPageData, ensureCurrentPageOpenaiRawLoaded.
  keeps_go; try exact I; try assumption; try (st_simpl; assumption).
  - match goal with
    | H : _ /\ _ |- context [renderRows ?x] =>
        destruct (renderRows_nav x) as [-> ->]; exact H
    end.
  - match goal with
    | H : _ /\ _ |- context [loadPreview ?x] =>
        destruct (loadPreview_nav x) as [-> ->]; exact H
    end.
Qed.

Lemma load_total li : NoThrow (loadPageOrAlert li).
Proof. unfold loadPageOrAlert. repeat nothrow_step. Qed.

(** The run of [loadPageOrAlert]: it completes and leaves the current page
    and the pages. *)
Lemma load_run li s :
  outcomeOf (loadPageOrAlert li s) = Resolved tt
  /\ currentPage (stateAfter (loadPageOrAlert li s)) = currentPage s
  /\ pages (stateAfter (loadPageOrAlert li s)) = pages s.
Proof.
  destruct (load_total li s) as [[] Ho].
  destruct (keeps_nav_load (currentPage s) (pages s) li s (conj eq_refl eq_refl))
    as [[Hc Hp] _].
  repeat split; assumption.
Qed.

Lemma findIndex_eqb_lookup (c : string) pages i :
  findIndex (String.eqb c) pages = Some i -> pages !! i = Some c.
Proof.
  intros H. destruct (JobListFacts.findIndex_Some _ _ _ H) as (x & Hx & Hp & _).
  apply String.eqb_eq in Hp. now subst.
Qed.

Lemma findIndex_nodup (pages : list string) i c :
  NoDup pages -> pages !! i = Some c -> findIndex (String.eqb c) pages = Some i.
Proof.
  intros Hnd Hi.
  destruct (findIndex (String.eqb c) pages) as [j|] eqn:Ef.
  - apply findIndex_eqb_lookup in Ef. f_equal.
    exact (NoDup_lookup pages j i c Hnd Ef Hi).
  - exfalso.
    pose proof (JobListFacts.findIndex_None _ _ Ef c) as H.
    rewrite String.eqb_refl in H.
    assert (In c pages) as Hin
      by (apply list_elem_of_In, list_elem_of_lookup; eauto).
    specialize (H Hin). discriminate.
Qed.

Lemma gets_then {A B : Type} (f : State -> A) (k : A -> M B) s :
  (gets f ≫= k) s = k (f s) s.
Proof.
  unfold mbind, M_bind, bind, gets.
  destruct (k (f s) s) as [[o s2] e2]. reflexivity.
Qed.

(** What the two buttons do, in terms of the index of the current page. *)
Lemma next_run li s i :
  indexOfPage (currentPage s) (pages s) = Some i ->
  (i + 1 < length (pages s))%nat ->
  let r := pageNextClick li s in
  outcomeOf r = Resolved tt
  /\ currentPage (stateAfter r) = pages s !! (i + 1)%nat
  /\ pages (stateAfter r) = pages s.
Proof.
  intros Hi Hlt r.
  assert (r = loadPageOrAlert li
                (set_selectedRowId None
                   (set_currentPage (pages s !! (i + 1)%nat) s))) as ->.
  { unfold r, pageNextClick. rewrite gets_then, gets_then, Hi.
    destruct (length (pages s) - 1 <=? i)%nat eqn:E;
      [apply Nat.leb_le in E; lia|].
    now rewrite ReverseFacts.modify_then, ReverseFacts.modify_then. }
  match goal with
  | |- context [loadPageOrAlert li ?t] =>
      destruct (load_run li t) as (Ho & Hc & Hp)
  end.
  split; [exact Ho|]. split; [rewrite Hc | rewrite Hp]; reflexivity.
Qed.

Lemma prev_run li s k :
  indexOfPage (currentPage s) (pages s) = Some (S k) ->
  let r := pagePrevClick li s in
  outcomeOf r = Resolved tt
  /\ currentPage (stateAfter r) = pages s !! k
  /\ pages (stateAfter r) = pages s.
Proof.
  intros Hi r.
  assert (r = loadPageOrAlert li
                (set_selectedRowId None (set_currentPage (pages s !! k) s)))
    as ->.
  { unfold r, pagePrevClick. rewrite gets_then, Hi.
    now rewrite ReverseFacts.modify_then, ReverseFacts.modify_then. }
  match goal with
  | |- context [loadPageOrAlert li ?t] =>
      destruct (load_run li t) as (Ho & Hc & Hp)
  end.
  split; [exact Ho|]. split; [rewrite Hc | rewrite Hp]; reflexivity.
Qed.

End NavFacts.


(** Going to the next page and back. When no page name occurs twice in the
    list and the current page is in it and is not the last one, the button
    for the next page followed by the button for the previous page leaves
    the current page as it was, whatever the loads of the two pages did. *)
Theorem page_next_then_prev_returns (li li' : LoadInputs) (s : State) (i : nat) :
  NoDup (pages s) ->
  indexOfPage (currentPage s) (pages s) = Some i ->
  (i + 1 < length (pages s))%nat ->
  let s1 := stateAfter (pageNextClick li s) in
  let s2 := stateAfter (pagePrevClick li' s1) in
  currentPage s1 <> currentPage s /\ currentPage s2 = currentPage s
  /\ pages s2 = pages s.
Proof.
  intros Hnd Hi Hlt s1 s2.
  destruct (NavFacts.next_run li s i Hi Hlt) as (_ & Hc1 & Hp1).
  fold s1 in Hc1, Hp1.
  destruct (currentPage s) as [c|] eqn:Ec; [|discriminate].
  cbn [indexOfPage] in Hi. apply NavFacts.findIndex_eqb_lookup in Hi.
  destruct (lookup_lt_is_Some_2 (pages s) (i + 1) Hlt) as [c' Hc'].
  rewrite Hc' in Hc1.
  assert (indexOfPage (currentPage s1) (pages s1) = Some (S i)) as Hi1.
  { rewrite Hc1, Hp1. cbn [indexOfPage].
    rewrite (NavFacts.findIndex_nodup (pages s) (i + 1) c' Hnd Hc').
    f_equal. lia. }
  destruct (NavFacts.prev_run li' s1 i Hi1) as (_ & Hc2 & Hp2).
  fold s2 in Hc2, Hp2. rewrite Hp1 in Hc2, Hp2.
  split; [|split; [congruence | exact Hp2]].
  rewrite Hc1. intros [= ->].
  pose proof (NoDup_lookup (pages s) i (i + 1) c Hnd Hi Hc'). lia.
Qed.

Lemma page_next_then_prev_returns_witness :
  let s := set_pages ["page_001"; "page_002"] Sample.editing in
  let s1 := stateAfter (pageNextClick Sample.emptyLoad s) in
  currentPage s1 = Some "page_002"
  /\ currentPage (stateAfter (pagePrevClick Sample.emptyLoad s1))
     = Some "page_001".
Proof.
  intros s s1.
  assert (NoDup (pages s)) as Hnd.
  { repeat constructor; cbn; intros H;
      repeat (apply elem_of_cons in H as [H|H]; [discriminate|]);
      now apply elem_of_nil in H. }
  destruct (page_next_then_prev_returns Sample.emptyLoad Sample.emptyLoad s 0
              Hnd eq_refl ltac:(vm_compute; lia)) as (_ & H2 & _).
  split; [reflexivity | exact H2].
Defined.


(** The poll of the process of one attachment. An entry is asked about
    only when it has a job id and its status is [queued] or [processing]
    once normalised. The response changes at most the binding of that
    attachment: when it differs from the binding in status, step or
    progress, the binding becomes the job id of the entry with the
    normalised status, the trimmed step and the progress of the response
    (that of the entry when the response has none); the same response a
    second time changes nothing. A request that fails is dropped: the
    callback completes, the state is as before and nothing is alerted. *)
Theorem refreshEntry_updates_own_binding
    (attachmentId : string) (processInfo : Binding)
    (res : FetchResult StatusPayload) (s : State) :
  let r := refreshEntrySettles attachmentId processInfo res s in
  let s' := stateAfter r in
  (exists changed, outcomeOf r = Resolved changed)
  /\ (forall q, q <> attachmentId ->
        crmProcessByAttachment s' !! q = crmProcessByAttachment s !! q)
  /\ set_crmProcessByAttachment (crmProcessByAttachment s) s' = s
  /\ (forall status text payload,
        res = Response status text payload -> isOk status = true ->
        (outcomeOf r = Resolved true ->
         crmProcessByAttachment s' !! attachmentId
         = Some (MkBinding (Js.trim (bd_jobId processInfo))
                   (normalizeProcessStatus (pl_status payload))
                   (Js.trim (strOr (pl_step payload) ""))
                   (default (bd_progress processInfo) (pl_progress payload))))
        /\ (outcomeOf r = Resolved false -> s' = s)
        /\ outcomeOf (refreshEntrySettles attachmentId processInfo res s')
           = Resolved false)
  /\ (forall msg es,
        api res s = (Rejected msg, s, es) ->
        r = (Resolved false, s, es))
  /\ (effectsOf (refreshEntryBegin processInfo s) <> [] ->
      Js.trim (bd_jobId processInfo) <> ""
      /\ In (normalizeProcessStatus (Some (bd_status processInfo)))
           ["queued"; "processing"]).
Proof.
  intros r s'.
  assert (forall status text payload,
            res = Response status text payload -> isOk status = true ->
            forall s0,
            refreshEntrySettles attachmentId processInfo res s0
            = let b := MkBinding (Js.trim (bd_jobId processInfo))
                         (normalizeProcessStatus (pl_status payload))
                         (Js.trim (strOr (pl_step payload) ""))
                         (default (bd_progress processInfo)
                            (pl_progress payload)) in
              if match crmProcessByAttachment s0 !! attachmentId with
                 | Some p =>
                     String.eqb (bd_status p) (bd_status b)
                     && String.eqb (bd_step p) (bd_step b)
                     && Qeq_bool (bd_progress p) (bd_progress b)
                 | None => false
                 end
              then (Resolved false, s0, [])
              else (Resolved true,
                    set_crmProcessByAttachment
                      (<[attachmentId := b]> (crmProcessByAttachment s0)) s0,
                    [])) as Hok.
  { intros status text payload -> Ho s0. unfold refreshEntrySettles.
    step_simpl. rewrite (SaveFacts.api_ok _ _ _ _ Ho). cbn.
    destruct (crmProcessByAttachment s0 !! attachmentId) as [p|];
      [|reflexivity].
    destruct (_ && _); reflexivity. }
  assert (forall msg es,
            api res s = (Rejected msg, s, es) -> r = (Resolved false, s, es))
    as Hbad.
  { intros msg es Hapi. unfold r, refreshEntrySettles. step_simpl.
    rewrite Hapi. cbn. now rewrite app_nil_r. }
  assert (r = (Resolved false, s, effectsOf r)
          \/ exists b, r = (Resolved true,
                            set_crmProcessByAttachment
                              (<[attachmentId := b]> (crmProcessByAttachment s))
                              s, [])) as Hcases.
  { destruct (LoadRun.api_run res s)
      as [(st & tx & j & Hr & Ho & _) | (msg & es & Hapi & _)].
    - unfold r. rewrite (Hok st tx j Hr Ho s). cbv zeta.
      destruct (match crmProcessByAttachment s !! attachmentId with
                | Some _ => _ | None => _ end);
        [left; reflexivity | right; eauto].
    - left. rewrite (Hbad msg es Hapi). reflexivity. }
  split; [|split; [|split; [|split; [|split]]]].
  - destruct Hcases as [E | (b & E)]; rewrite E; eauto.
  - intros q Hq. unfold s'.
    destruct Hcases as [E | (b & E)]; rewrite E; [reflexivity|].
    cbn. apply lookup_insert_ne. congruence.
  - unfold s'. destruct Hcases as [E | (b & E)]; rewrite E; cbn;
      destruct s; reflexivity.
  - intros status text payload Hr Ho. unfold s', r.
    rewrite (Hok status text payload Hr Ho s). cbv zeta.
    destruct (match crmProcessByAttachment s !! attachmentId with
              | Some _ => _ | None => _ end) eqn:Esame.
    + split; [intros H; discriminate H|]. split; [intros _; reflexivity|].
      cbn [stateAfter fst snd].
      rewrite (Hok status text payload Hr Ho s). cbv zeta.
      now rewrite Esame.
    + split; [intros _; cbn; apply lookup_insert_eq|].
      split; [intros H; discriminate H|].
      cbn [stateAfter fst snd].
      rewrite (Hok status text payload Hr Ho). cbv zeta. st_simpl_goal.
      rewrite lookup_insert_eq. cbn [bd_status bd_step bd_progress].
      rewrite !String.eqb_refl. cbn [andb].
      now rewrite (proj2 (Qeq_bool_iff _ _) (Qeq_refl _)).
  - exact Hbad.
  - unfold refreshEntryBegin, isPollable.
    destruct (Js.truthy (Js.trim (bd_jobId processInfo))) eqn:Et;
      cbn [andb]; [|intros H; now destruct H].
    destruct (existsb _ _) eqn:Ee; [|intros H; now destruct H].
    intros _. split; [now apply PayloadFacts.truthy_ne|].
    apply existsb_exists in Ee as (x & Hx & Heq).
    apply String.eqb_eq in Heq. now subst.
Qed.

Lemma refreshEntry_updates_own_binding_witness :
  stateAfter
    (refreshEntrySettles "att-7" (MkBinding "J1" "queued" "queued" 0)
       (NetworkError "offline") Sample.twoCached)
  = Sample.twoCached.
Proof.
  destruct (refreshEntry_updates_own_binding "att-7"
              (MkBinding "J1" "queued" "queued" 0) (NetworkError "offline")
              Sample.twoCached) as (_ & _ & _ & _ & Hbad & _).
  now rewrite (Hbad "offline" [] eq_refl).
Defined.
